(** * WNTR: simulation results arithmetic and splicing, network model facade

    Shallow embedding of [wntr/sim/results.py] (class [SimulationResults])
    and of the behaviour exercised by [epanetlib/tests/test_network.py].

    Python objects are modelled as follows.
    - A [dict] is an insertion-ordered association list with unique keys
      (module [Dict]); iteration order is the order of first insertion, as in
      Python.
    - A pandas [DataFrame] is a list of column labels and a list of rows,
      each row a timestamp (the index value) and one cell per column.
      Cells are float64 values read as exact rationals, infinities or NaN.
    - Exceptions are values of [exn]; a function that may raise returns a
      [result], and a method that mutates [self] before raising returns an
      [outcome] that carries the state reached. *)

From Stdlib Require Import List String Ascii ZArith QArith Qabs Bool Lia.
From Stdlib Require Import DecimalString.
Import ListNotations.

Local Open Scope string_scope.
Local Open Scope Z_scope.
Local Open Scope list_scope.

(** ** Exceptions and results *)

Inductive exn : Type :=
| ValueError (msg : string)
| KeyError (key : string)
| IndexError
| AttributeError
| TypeError.

Inductive result (A : Type) : Type :=
| Ok (a : A)
| Raise (e : exn).
Arguments Ok {A} a.
Arguments Raise {A} e.

Definition bind {A B : Type} (r : result A) (k : A -> result B) : result B :=
  match r with
  | Ok a => k a
  | Raise e => Raise e
  end.

Notation "x <- r ;; k" := (bind r (fun x => k))
  (at level 61, r at next level, right associativity).

(** State reached by a method that updates [self] in place: either it ran to
    completion, or it raised and left [self] as it was at that moment. *)
Inductive outcome (S : Type) : Type :=
| Done (s : S)
| Raised (e : exn) (s : S).
Arguments Done {S} s.
Arguments Raised {S} e s.

(** [try r s k]: evaluate an expression that may raise while the state is [s]. *)
Definition try {A S : Type} (r : result A) (s : S) (k : A -> outcome S) : outcome S :=
  match r with
  | Ok a => k a
  | Raise e => Raised e s
  end.

(** [for key in ks: body], the state threaded through the iterations; the
    loop stops at the first iteration that raises. *)
Fixpoint for_each {K S : Type} (ks : list K) (body : K -> S -> outcome S) (s : S)
  : outcome S :=
  match ks with
  | [] => Done s
  | key :: ks' =>
      match body key s with
      | Done s' => for_each ks' body s'
      | Raised e s' => Raised e s'
      end
  end.

(** ** Insertion-ordered dictionaries *)

Module Dict.
Section Dict.
Context {V : Type}.

Definition t : Type := list (string * V).

Definition empty : t := [].

Fixpoint get (key : string) (d : t) : option V :=
  match d with
  | [] => None
  | (k, v) :: d' => if String.eqb key k then Some v else get key d'
  end.

(** [key in d] *)
Definition contains (key : string) (d : t) : bool :=
  match get key d with
  | Some _ => true
  | None => false
  end.

(** [d[key] = v]: an existing key keeps its place, a new key goes last. *)
Fixpoint set (key : string) (v : V) (d : t) : t :=
  match d with
  | [] => [(key, v)]
  | (k, w) :: d' =>
      if String.eqb key k then (k, v) :: d' else (k, w) :: set key v d'
  end.

(** [del d[key]] *)
Fixpoint remove (key : string) (d : t) : t :=
  match d with
  | [] => []
  | (k, w) :: d' =>
      if String.eqb key k then d' else (k, w) :: remove key d'
  end.

(** [d.keys()] *)
Definition keys (d : t) : list string := map fst d.

(** [d[key]] as an expression: a missing key raises [KeyError]. *)
Definition getitem (key : string) (d : t) : result V :=
  match get key d with
  | Some v => Ok v
  | None => Raise (KeyError key)
  end.
End Dict.
Arguments t : clear implicits.
End Dict.

(** ** Time-indexed frames *)

(** A float64 cell. *)
Inductive cell : Type :=
| Num (x : Q)
| Inf (negative : bool)
| NaN.

Record DataFrame : Type := mkFrame {
  columns : list string;
  rows : list (Z * list cell)
}.

(** [df.index.values] *)
Definition index (df : DataFrame) : list Z := map fst (rows df).

(** [values[0]] on a numpy array. *)
Definition first_value (ts : list Z) : result Z :=
  match ts with
  | t :: _ => Ok t
  | [] => Raise IndexError
  end.

(** [index.values < start_time], elementwise. *)
Definition before (start_time : Z) (ts : list Z) : list bool :=
  map (fun t => t <? start_time) ts.

(** Rows selected by a boolean mask, position by position. *)
Fixpoint select {A : Type} (keep : list bool) (rs : list A) : list A :=
  match keep, rs with
  | k :: keep', r :: rs' => if k then r :: select keep' rs' else select keep' rs'
  | _, _ => []
  end.

(** [df.loc[keep]] with a boolean array: the mask must be as long as the
    frame (pandas 1.x raises [IndexError] otherwise). *)
Definition loc (keep : list bool) (df : DataFrame) : result DataFrame :=
  if Nat.eqb (List.length keep) (List.length (rows df))
  then Ok (mkFrame (columns df) (select keep (rows df)))
  else Raise IndexError.

(** The product of two float64 values, read exactly; NaN absorbs. *)
Definition cell_mul (x y : cell) : cell :=
  match x, y with
  | NaN, _ | _, NaN => NaN
  | Num a, Num b => Num (a * b)
  | Inf s, Inf s' => Inf (xorb s s')
  | Inf s, Num b | Num b, Inf s =>
      if Qeq_bool b 0 then NaN else Inf (xorb s (Qnum b <? 0))
  end.

(** [df * x] for a scalar [x]: same labels, every cell multiplied. *)
Definition mul_scalar (df : DataFrame) (x : cell) : DataFrame :=
  mkFrame (columns df)
    (map (fun r => (fst r, map (fun c => cell_mul c x) (snd r))) (rows df)).

(** The cell of a row under column label [c]; NaN when the row has none. *)
Fixpoint cell_of (cols : list string) (r : list cell) (c : string) : cell :=
  match cols, r with
  | c' :: cols', x :: r' => if String.eqb c c' then x else cell_of cols' r' c
  | _, _ => NaN
  end.

Definition reindex (cols new_cols : list string) (r : Z * list cell) : Z * list cell :=
  (fst r, map (cell_of cols (snd r)) new_cols).

Definition union_columns (a b : list string) : list string :=
  a ++ filter (fun c => negb (existsb (String.eqb c) a)) b.

(** [df.append(other)] on frames whose column labels are distinct: the rows
    of [other] after those of [df], cells aligned on the union of the column
    labels (missing cells are NaN).  pandas refuses to align a frame that
    repeats a label with a frame of other columns; [append] does not cover
    such frames, and the properties that conclude that a call returns
    assume distinct labels. *)
Definition append (df other : DataFrame) : DataFrame :=
  let cols := union_columns (columns df) (columns other) in
  mkFrame cols
    (map (reindex (columns df) cols) (rows df)
     ++ map (reindex (columns other) cols) (rows other)).

(** [df.at[t, c]]: the cell of the first row stamped [t] under column [c]. *)
Fixpoint row_at (t : Z) (rs : list (Z * list cell)) : option (list cell) :=
  match rs with
  | [] => None
  | (t', r) :: rs' => if t =? t' then Some r else row_at t rs'
  end.

Definition at_ (df : DataFrame) (t : Z) (c : string) : option cell :=
  option_map (fun r => cell_of (columns df) r c) (row_at t (rows df)).

(** Strictly increasing timestamps (a time-ordered index). *)
Fixpoint increasing (ts : list Z) : bool :=
  match ts with
  | t :: ((t' :: _) as ts') => (t <? t') && increasing ts'
  | _ => true
  end.

(** ** Python values that can reach an operator as the right operand *)

Record SimulationResults : Type := mkResults {
  timestamp : string;
  network_name : option string;
  sim_time : Z;
  link : option (Dict.t DataFrame);
  node : option (Dict.t DataFrame)
}.

Inductive pyval : Type :=
| PyResults (r : SimulationResults)
| PyInt (n : Z)
| PyBool (b : bool)
| PyFloat (x : Q)
| PyStr (s : string)
| PyNone.

(** [isinstance(x, SimulationResults)] *)
Definition isinstance_results (x : pyval) : bool :=
  match x with
  | PyResults _ => true
  | _ => false
  end.

(** [isinstance(x, int)]; [bool] is a subclass of [int]. *)
Definition isinstance_int (x : pyval) : bool :=
  match x with
  | PyInt _ | PyBool _ => true
  | _ => false
  end.

(** [str(x)] for the values that get formatted into a network name. *)
Definition str_int (n : Z) : string := NilZero.string_of_int (Z.to_int n).

Definition str_name (name : option string) : string :=
  match name with
  | Some s => s
  | None => "None"
  end.

(** Accesses on an attribute that may still be [None]. *)
Definition keys_of (d : option (Dict.t DataFrame)) : result (list string) :=
  match d with
  | Some d' => Ok (Dict.keys d')
  | None => Raise AttributeError
  end.

Definition in_ (key : string) (d : option (Dict.t DataFrame)) : result bool :=
  match d with
  | Some d' => Ok (Dict.contains key d')
  | None => Raise TypeError
  end.

Definition subscript (d : option (Dict.t DataFrame)) (key : string) : result DataFrame :=
  match d with
  | Some d' => Dict.getitem key d'
  | None => Raise TypeError
  end.

(** The value of an expression evaluated for a fresh local object: an
    exception discards the object under construction. *)
Definition run {S : Type} (o : outcome S) : result S :=
  match o with
  | Done s => Ok s
  | Raised e _ => Raise e
  end.

Definition type_message : string :=
  "operating on a results object requires both be SimulationResults".

Definition divisor_message : string :=
  "operating on a results object requires divisor be a SimulationResults or a float".

(** ** results.py: the operators *)

Section Operators.
(** pandas arithmetic between frames and between a frame and an integer;
    [now] is what [str(datetime.datetime.now())] returns when the result
    object is constructed. *)
Variables df_add df_sub df_div : DataFrame -> DataFrame -> DataFrame.
Variable df_div_int : DataFrame -> Z -> DataFrame.
Variable now : string.

(** [SimulationResults()] *)
Definition __init__ : SimulationResults :=
  mkResults now None 0 None None.

(** [for key in mine.keys(): if key in theirs: new[key] = mine[key] op theirs[key]] *)
Definition elementwise (op : DataFrame -> DataFrame -> DataFrame)
    (mine theirs : option (Dict.t DataFrame)) : result (Dict.t DataFrame) :=
  ks <- keys_of mine ;;
  run (for_each ks
    (fun key new =>
       try (in_ key theirs) new (fun present =>
       if present then
         try (subscript mine key) new (fun a =>
         try (subscript theirs key) new (fun b =>
         Done (Dict.set key (op a b) new)))
       else Done new))
    Dict.empty).

(** [for key in mine.keys(): new[key] = mine[key] / n] *)
Definition scalarwise (n : Z) (mine : option (Dict.t DataFrame))
  : result (Dict.t DataFrame) :=
  ks <- keys_of mine ;;
  run (for_each ks
    (fun key new =>
       try (subscript mine key) new (fun a =>
       Done (Dict.set key (df_div_int a n) new)))
    Dict.empty).

Definition binary_name (sign : string) (self other : SimulationResults) : string :=
  (str_name (network_name self) ++ "[" ++ timestamp self ++ "]" ++ sign
   ++ str_name (network_name other) ++ "[" ++ timestamp other ++ "]")%string.

Definition with_dicts (new : SimulationResults) (name : string)
    (l n : Dict.t DataFrame) : SimulationResults :=
  mkResults (timestamp new) (Some name) (sim_time new) (Some l) (Some n).

(** results.py, lines 63-80 *)
Definition __add__ (self : SimulationResults) (other : pyval)
  : result SimulationResults :=
  match other with
  | PyResults other =>
      let name := binary_name " + " self other in
      new_link <- elementwise df_add (link self) (link other) ;;
      new_node <- elementwise df_add (node self) (node other) ;;
      Ok (with_dicts __init__ name new_link new_node)
  | _ => Raise (ValueError type_message)
  end.

(** results.py, lines 82-99 *)
Definition __sub__ (self : SimulationResults) (other : pyval)
  : result SimulationResults :=
  match other with
  | PyResults other =>
      let name := binary_name " - " self other in
      new_link <- elementwise df_sub (link self) (link other) ;;
      new_node <- elementwise df_sub (node self) (node other) ;;
      Ok (with_dicts __init__ name new_link new_node)
  | _ => Raise (ValueError type_message)
  end.

(** [other] as a number, once [isinstance(other, int)] holds. *)
Definition int_value (other : pyval) : option (Z * string) :=
  match other with
  | PyInt n => Some (n, str_int n)
  | PyBool true => Some (1, "True")
  | PyBool false => Some (0, "False")
  | _ => None
  end.

(** results.py, lines 140-167 *)
Definition __truediv__ (self : SimulationResults) (other : pyval)
  : result SimulationResults :=
  match other with
  | PyResults other =>
      let name := binary_name " / " self other in
      new_link <- elementwise df_div (link self) (link other) ;;
      new_node <- elementwise df_div (node self) (node other) ;;
      Ok (with_dicts __init__ name new_link new_node)
  | _ =>
      match int_value other with
      | Some (n, shown) =>
          let name := (str_name (network_name self) ++ "[" ++ timestamp self
                       ++ "] / " ++ shown)%string in
          new_link <- scalarwise n (link self) ;;
          new_node <- scalarwise n (node self) ;;
          Ok (with_dicts __init__ name new_link new_node)
      | None => Raise (ValueError divisor_message)
      end
  end.
End Operators.

(** ** results.py: append_results_from (lines 198-254) *)

Section Splice.
(** What evaluating [pd.nan] gives.  The attribute belongs to pandas, not to
    this repository: it is the float NaN if pandas provides it, and the
    lookup raises [AttributeError] if pandas does not. *)
Variable pd_nan : result cell.

(** First pair of loops, lines 229-236 and 242-249: every key of [self]'s
    dictionary is replaced by its kept rows followed by [other]'s frame, or
    by [other]'s [template] frame times [pd.nan] when [other] lacks the key. *)
Definition splice_known (keep : list bool) (template : string)
    (theirs : option (Dict.t DataFrame)) (key : string) (mine : Dict.t DataFrame)
  : outcome (Dict.t DataFrame) :=
  try (in_ key theirs) mine (fun present =>
  if present then
    try (Dict.getitem key mine) mine (fun a =>
    try (loc keep a) mine (fun kept =>
    try (subscript theirs key) mine (fun b =>
    Done (Dict.set key (append kept b) mine))))
  else
    try (subscript theirs template) mine (fun t =>
    try pd_nan mine (fun nan =>
    let temp := mul_scalar t nan in
    try (Dict.getitem key mine) mine (fun a =>
    try (loc keep a) mine (fun kept =>
    Done (Dict.set key (append kept temp) mine)))))).

(** Second pair of loops, lines 237-241 and 250-254: a key that only
    [other] has is added, built from the current [template] frame of [self]. *)
Definition splice_new (keep : list bool) (template : string)
    (theirs : Dict.t DataFrame) (key : string) (mine : Dict.t DataFrame)
  : outcome (Dict.t DataFrame) :=
  if negb (Dict.contains key mine) then
    try (Dict.getitem template mine) mine (fun t =>
    try pd_nan mine (fun nan =>
    let temp := mul_scalar t nan in
    try (loc keep temp) mine (fun kept =>
    try (Dict.getitem key theirs) mine (fun b =>
    Done (Dict.set key (append kept b) mine)))))
  else Done mine.

(** Both loops over one of the two dictionaries of [self]. *)
Definition splice (keep : list bool) (template : string)
    (mine theirs : option (Dict.t DataFrame)) : outcome (option (Dict.t DataFrame)) :=
  match mine with
  | None => Raised AttributeError None
  | Some d =>
      match for_each (Dict.keys d) (splice_known keep template theirs) d with
      | Raised e d' => Raised e (Some d')
      | Done d' =>
          match theirs with
          | None => Raised AttributeError (Some d')
          | Some o =>
              match for_each (Dict.keys o) (splice_new keep template o) d' with
              | Raised e d'' => Raised e (Some d'')
              | Done d'' => Done (Some d'')
              end
          end
      end
  end.

Definition set_link (self : SimulationResults) (l : option (Dict.t DataFrame)) :=
  mkResults (timestamp self) (network_name self) (sim_time self) l (node self).

Definition set_node (self : SimulationResults) (n : option (Dict.t DataFrame)) :=
  mkResults (timestamp self) (network_name self) (sim_time self) (link self) n.

(** [other] is passed by value.  That agrees with the source also when
    [other] is [self]: each iteration reads [other]'s frame for a key
    before it assigns [self]'s. *)
Definition append_results_from (self : SimulationResults) (other : pyval)
  : outcome SimulationResults :=
  match other with
  | PyResults other =>
      try (subscript (node other) "head") self (fun their_head =>
      try (first_value (index their_head)) self (fun start_time =>
      try (subscript (node self) "head") self (fun my_head =>
      let keep := before start_time (index my_head) in
      match splice keep "flowrate" (link self) (link other) with
      | Raised e l => Raised e (set_link self l)
      | Done l =>
          let self := set_link self l in
          match splice keep "head" (node self) (node other) with
          | Raised e n => Raised e (set_node self n)
          | Done n => Done (set_node self n)
          end
      end)))
  | _ => Raised (ValueError type_message) self
  end.

(** Spec side of the splice: what a key of [self] holds afterwards, given
    the frame [a] it held before. *)
Definition spliced (keep : list bool) (template : string)
    (theirs : Dict.t DataFrame) (key : string) (a : DataFrame) : result DataFrame :=
  match Dict.get key theirs with
  | Some b => kept <- loc keep a ;; Ok (append kept b)
  | None =>
      t <- Dict.getitem template theirs ;;
      nan <- pd_nan ;;
      kept <- loc keep a ;;
      Ok (append kept (mul_scalar t nan))
  end.
End Splice.

(** ** Exact reading of float64 arithmetic on identically labelled frames

    These serve as instances of the pandas operators when the operators of
    the results class are evaluated on concrete frames.  They are meant for
    two frames with the same index and the same columns, where pandas works
    cell by cell, for cells whose result is a float64 value again (sums and
    differences of small integers, quotients by a power of two), and for
    integer divisors that fit in 64 bits. *)

Definition cell_neg (x : cell) : cell :=
  match x with
  | Num a => Num (- a)
  | Inf s => Inf (negb s)
  | NaN => NaN
  end.

Definition cell_add (x y : cell) : cell :=
  match x, y with
  | NaN, _ | _, NaN => NaN
  | Num a, Num b => Num (a + b)
  | Inf s, Inf s' => if Bool.eqb s s' then Inf s else NaN
  | Inf s, Num _ | Num _, Inf s => Inf s
  end.

Definition cell_sub (x y : cell) : cell := cell_add x (cell_neg y).

Definition cell_div (x y : cell) : cell :=
  match x, y with
  | NaN, _ | _, NaN => NaN
  | Inf _, Inf _ => NaN
  | Inf s, Num b => Inf (xorb s (Qnum b <? 0))
  | Num _, Inf _ => Num 0
  | Num a, Num b =>
      if Qeq_bool b 0
      then (if Qeq_bool a 0 then NaN else Inf (Qnum a <? 0))
      else Num (a / b)
  end.

Fixpoint zip_cells (op : cell -> cell -> cell) (r s : list cell) : list cell :=
  match r, s with
  | x :: r', y :: s' => op x y :: zip_cells op r' s'
  | _, _ => []
  end.

Fixpoint zip_rows (op : cell -> cell -> cell) (rs ss : list (Z * list cell))
  : list (Z * list cell) :=
  match rs, ss with
  | (t, r) :: rs', (_, s) :: ss' => (t, zip_cells op r s) :: zip_rows op rs' ss'
  | _, _ => []
  end.

Definition frame_op (op : cell -> cell -> cell) (f g : DataFrame) : DataFrame :=
  mkFrame (columns f) (zip_rows op (rows f) (rows g)).

Definition frame_div_int (f : DataFrame) (n : Z) : DataFrame :=
  mkFrame (columns f)
    (map (fun r => (fst r, map (fun x => cell_div x (Num (inject_Z n))) (snd r))) (rows f)).

(** ** The water network model exercised by test_network.py

    The model class [WaterNetworkModel] is not among the sources; only its
    tests are.  Its operations are modelled from the specification (sections
    3 and 4), floats being read as exact rationals. *)

Module Network.

(** Modelled from the spec: the error taxonomy of section 7, and
    [InvalidStatusError] for a status word the model cannot read. *)
Inductive error : Type :=
| DuplicateNameError
| NotFoundError
| UnsupportedCurveShapeError
| ConvergenceError
| SingularityError
| InvalidStatusError.

Inductive res (A : Type) : Type :=
| Success (a : A)
| Failure (e : error).
Arguments Success {A} a.
Arguments Failure {A} e.

(** A number as a caller supplies it. *)
Inductive number : Type :=
| Int (n : Z)
| Float (x : Q).

(** [float(x)] *)
Definition to_float (x : number) : Q :=
  match x with
  | Int n => inject_Z n
  | Float q => q
  end.

(** Modelled from the spec: the entities of section 3. *)
Inductive status : Type := OPEN | CLOSED | CV.

Inductive curve_type : Type := HEAD | EFFICIENCY | VOLUME | HEADLOSS.

Record Curve : Type := mkCurve {
  curve_name : string;
  curve_kind : curve_type;
  points : list (Q * Q)
}.

Inductive node : Type :=
| Junction (name : string) (elevation base_demand : Q)
    (demand_pattern_name : option string)
| Tank (name : string)
    (elevation init_level min_level max_level diameter min_vol : Q)
| Reservoir (name : string) (base_head : Q) (head_pattern_name : option string).

(** What drives a pump: a head curve with its solved coefficients
    [(a, b, c)], or a constant power. *)
Inductive pump_drive : Type :=
| HeadCurve (curve : Curve) (coefficients : Q * Q * Q)
| Power (power : Q).

Inductive link : Type :=
| Pipe (name start_node end_node : string)
    (length diameter roughness minor_loss : Q) (base_status : status)
| Pump (name start_node end_node : string) (drive : pump_drive)
| Valve (name start_node end_node : string) (valve_type : string) (setting : Q).

Definition start_of (l : link) : string :=
  match l with
  | Pipe _ s _ _ _ _ _ _ | Pump _ s _ _ | Valve _ s _ _ _ => s
  end.

Definition end_of (l : link) : string :=
  match l with
  | Pipe _ _ e _ _ _ _ _ | Pump _ _ e _ | Valve _ _ e _ _ => e
  end.

Definition is_cv (l : link) : bool :=
  match l with
  | Pipe _ _ _ _ _ _ _ CV => true
  | _ => false
  end.

Definition is_pipe (l : link) : bool :=
  match l with Pipe _ _ _ _ _ _ _ _ => true | _ => false end.

Definition is_pump (l : link) : bool :=
  match l with Pump _ _ _ _ => true | _ => false end.

Definition is_valve (l : link) : bool :=
  match l with Valve _ _ _ _ _ => true | _ => false end.

Definition is_junction (n : node) : bool :=
  match n with Junction _ _ _ _ => true | _ => false end.

Definition is_tank (n : node) : bool :=
  match n with Tank _ _ _ _ _ _ _ => true | _ => false end.

Definition is_reservoir (n : node) : bool :=
  match n with Reservoir _ _ _ => true | _ => false end.

(** A directed edge of the topology graph, labelled with the link name. *)
Definition edge : Type := (string * string * string)%type.

Definition edge_name (e : edge) : string := snd e.
Definition edge_start (e : edge) : string := fst (fst e).
Definition edge_end (e : edge) : string := snd (fst e).

(** Modelled from the spec: the state of the class [WaterNetworkModel]
    (section 3): the registries, the counts, the check-valve names and the
    topology graph. *)
Record WaterNetworkModel : Type := mkModel {
  nodes : Dict.t node;
  links : Dict.t link;
  curves : Dict.t Curve;
  num_junctions : nat;
  num_tanks : nat;
  num_reservoirs : nat;
  num_pipes : nat;
  num_pumps : nat;
  num_valves : nat;
  check_valves : list string;
  graph_nodes : list string;
  graph_edges : list edge
}.

Definition empty : WaterNetworkModel :=
  mkModel Dict.empty Dict.empty Dict.empty 0 0 0 0 0 0 [] [] [].

(** [str.upper()] on ASCII letters. *)
Definition upper_ascii (c : ascii) : ascii :=
  let n := nat_of_ascii c in
  if ((97 <=? n) && (n <=? 122))%nat then ascii_of_nat (n - 32) else c.

Fixpoint upper (s : string) : string :=
  match s with
  | EmptyString => EmptyString
  | String c s' => String (upper_ascii c) (upper s')
  end.

(** Modelled from the spec: case-insensitive reading of a status word
    (section 4.5).  The spec names no error for a word that is none of the
    three; the model then fails with [InvalidStatusError]. *)
Definition normalize_status (s : string) : res status :=
  let u := upper s in
  if String.eqb u "OPEN" then Success OPEN
  else if String.eqb u "CLOSED" then Success CLOSED
  else if String.eqb u "CV" then Success CV
  else Failure InvalidStatusError.

(** *** Modelled operations *)

(** Modelled from the spec: the node side of the element registry and of
    the topology graph (sections 4.1 and 4.3).  A node is stored under a
    name no other node has, its numeric attributes converted to floats,
    its count incremented and one vertex without edges added. *)
Definition add_node (wn : WaterNetworkModel) (name : string) (n : node)
  : res WaterNetworkModel :=
  if Dict.contains name (nodes wn) then Failure DuplicateNameError
  else Success
    (mkModel (Dict.set name n (nodes wn)) (links wn) (curves wn)
       (num_junctions wn + (if is_junction n then 1 else 0))
       (num_tanks wn + (if is_tank n then 1 else 0))
       (num_reservoirs wn + (if is_reservoir n then 1 else 0))
       (num_pipes wn) (num_pumps wn) (num_valves wn)
       (check_valves wn) (graph_nodes wn ++ [name]) (graph_edges wn)).

(** Modelled from the spec: [add_junction(name, demand, pattern, elevation)]. *)
Definition add_junction (wn : WaterNetworkModel) (name : string)
    (base_demand : number) (demand_pattern_name : option string)
    (elevation : number) : res WaterNetworkModel :=
  add_node wn name
    (Junction name (to_float elevation) (to_float base_demand) demand_pattern_name).

(** Modelled from the spec: [add_tank]. *)
Definition add_tank (wn : WaterNetworkModel) (name : string)
    (elevation init_level min_level max_level diameter min_vol : number)
  : res WaterNetworkModel :=
  add_node wn name
    (Tank name (to_float elevation) (to_float init_level) (to_float min_level)
       (to_float max_level) (to_float diameter) (to_float min_vol)).

(** Modelled from the spec: [add_reservoir]. *)
Definition add_reservoir (wn : WaterNetworkModel) (name : string)
    (base_head : number) (head_pattern_name : option string)
  : res WaterNetworkModel :=
  add_node wn name (Reservoir name (to_float base_head) head_pattern_name).

(** Modelled from the spec: [get_node], [get_link], [get_curve] fail with
    [NotFoundError] on an unknown name. *)
Definition lookup {V : Type} (name : string) (d : Dict.t V) : res V :=
  match Dict.get name d with
  | Some v => Success v
  | None => Failure NotFoundError
  end.

Definition get_node (wn : WaterNetworkModel) (name : string) : res node :=
  lookup name (nodes wn).

Definition get_link (wn : WaterNetworkModel) (name : string) : res link :=
  lookup name (links wn).

Definition get_curve (wn : WaterNetworkModel) (name : string) : res Curve :=
  lookup name (curves wn).

(** Modelled from the spec: [add_curve(name, type, points)] stores the
    points verbatim (section 4.2). *)
Definition add_curve (wn : WaterNetworkModel) (name : string)
    (kind : curve_type) (pts : list (Q * Q)) : res WaterNetworkModel :=
  if Dict.contains name (curves wn) then Failure DuplicateNameError
  else Success
    (mkModel (nodes wn) (links wn) (Dict.set name (mkCurve name kind pts) (curves wn))
       (num_junctions wn) (num_tanks wn) (num_reservoirs wn)
       (num_pipes wn) (num_pumps wn) (num_valves wn)
       (check_valves wn) (graph_nodes wn) (graph_edges wn)).

(** Modelled from the spec: the link side of the registry and of the graph
    (sections 4.1, 4.3 and 4.5).  A link takes a name no other link has
    and joins two registered nodes (no link may dangle, section 3); it adds
    one directed edge, and a pipe of status CV enters the check-valve set. *)
Definition add_link (wn : WaterNetworkModel) (name : string) (l : link)
  : res WaterNetworkModel :=
  if Dict.contains name (links wn) then Failure DuplicateNameError
  else if negb (Dict.contains (start_of l) (nodes wn)
                && Dict.contains (end_of l) (nodes wn))
  then Failure NotFoundError
  else Success
    (mkModel (nodes wn) (Dict.set name l (links wn)) (curves wn)
       (num_junctions wn) (num_tanks wn) (num_reservoirs wn)
       (num_pipes wn + (if is_pipe l then 1 else 0))
       (num_pumps wn + (if is_pump l then 1 else 0))
       (num_valves wn + (if is_valve l then 1 else 0))
       (if is_cv l then check_valves wn ++ [name] else check_valves wn)
       (graph_nodes wn)
       (graph_edges wn ++ [(start_of l, end_of l, name)])).

(** Modelled from the spec: [add_pipe(name, start, end, length, diameter,
    roughness, minor_loss, status)] (section 4.5). *)
Definition add_pipe (wn : WaterNetworkModel) (name start_node end_node : string)
    (length diameter roughness minor_loss : number) (status_word : string)
  : res WaterNetworkModel :=
  match normalize_status status_word with
  | Failure e => Failure e
  | Success st =>
      add_link wn name
        (Pipe name start_node end_node (to_float length) (to_float diameter)
           (to_float roughness) (to_float minor_loss) st)
  end.

(** Modelled from the spec: [add_valve]. *)
Definition add_valve (wn : WaterNetworkModel) (name start_node end_node : string)
    (valve_type : string) (setting : number) : res WaterNetworkModel :=
  add_link wn name (Valve name start_node end_node valve_type (to_float setting)).

(** Modelled from the spec: [remove_pipe(name)] deletes the pipe, takes
    its name out of the check-valve set whether or not it is there,
    deletes its edge and decrements the pipe count (section 4.5). *)
Definition remove_pipe (wn : WaterNetworkModel) (name : string)
  : res WaterNetworkModel :=
  match Dict.get name (links wn) with
  | Some (Pipe _ _ _ _ _ _ _ _) =>
      Success
        (mkModel (nodes wn) (Dict.remove name (links wn)) (curves wn)
           (num_junctions wn) (num_tanks wn) (num_reservoirs wn)
           (pred (num_pipes wn)) (num_pumps wn) (num_valves wn)
           (filter (fun n => negb (String.eqb n name)) (check_valves wn))
           (graph_nodes wn)
           (filter (fun e => negb (String.eqb (edge_name e) name)) (graph_edges wn)))
  | _ => Failure NotFoundError
  end.

(** Modelled from the spec: [get_links_for_node(name)], the names of the
    edges that leave or enter the vertex (section 4.3). *)
Definition get_links_for_node (wn : WaterNetworkModel) (name : string)
  : list string :=
  map edge_name
    (filter (fun e => String.eqb (edge_start e) name || String.eqb (edge_end e) name)
       (graph_edges wn)).

(** *** Pump curve solver (section 4.4) *)

(** Modelled from the spec: the three points a single nominal point
    [(q2, h2)] stands for. *)
Definition synthesized_points (q2 h2 : Q) : (Q * Q) * (Q * Q) * (Q * Q) :=
  ((0, (4 # 3) * h2), (q2, h2), (2 * q2, 0))%Q.

(** Modelled from the spec: the closed relations of the one-point case.
    With [q1 = 0] the first equation gives [a = h1]; dividing the third by
    the second gives [(q3 / q2) ^ c = (h1 - h3) / (h1 - h2)], that is
    [2 ^ c = 4]; the second then gives [b]. *)
Definition solve_one_point (q2 h2 : Q) : Q * Q * Q :=
  let '((_, h1), _, _) := synthesized_points q2 h2 in
  let a := h1 in
  let c := 2%Q in
  let b := ((h1 - h2) / (q2 ^ 2))%Q in
  (a, b, c).

Section Solver.
(** The numerical root finder of the three-point case. *)
Variable solve_three_points : Q * Q -> Q * Q -> Q * Q -> res (Q * Q * Q).

(** Modelled from the spec: the policy by point count. *)
Definition head_curve_coefficients (c : Curve) : res (Q * Q * Q) :=
  match points c with
  | [(q2, h2)] => Success (solve_one_point q2 h2)
  | [p1; p2; p3] => solve_three_points p1 p2 p3
  | _ => Failure UnsupportedCurveShapeError
  end.

(** What [add_pump] is given besides the name and the end nodes: the
    curve type word and the curve, or the power. *)
Inductive pump_argument : Type :=
| HeadArgument (curve : Curve)
| PowerArgument (power : number).

(** Modelled from the spec: [add_pump(name, start, end, curve_type,
    curve)] solves a HEAD curve at once; a solver failure fails the call
    and leaves the model as it was (sections 4.5 and 7). *)
Definition add_pump (wn : WaterNetworkModel) (name start_node end_node : string)
    (arg : pump_argument) : res WaterNetworkModel :=
  match arg with
  | HeadArgument c =>
      match head_curve_coefficients c with
      | Failure e => Failure e
      | Success abc => add_link wn name (Pump name start_node end_node (HeadCurve c abc))
      end
  | PowerArgument p =>
      add_link wn name (Pump name start_node end_node (Power (to_float p)))
  end.
End Solver.

(** Modelled from the spec: [get_head_curve_coefficients()] of a link. *)
Definition get_head_curve_coefficients (l : link) : res (Q * Q * Q) :=
  match l with
  | Pump _ _ _ (HeadCurve _ abc) => Success abc
  | _ => Failure NotFoundError
  end.

(** [q ** c] for a whole exponent; other exponents need real powers, and
    zero to a negative power raises. *)
Definition float_pow (q c : Q) : option Q :=
  if negb (Pos.eqb (Qden c) 1) then None
  else if Qeq_bool q 0 && (Qnum c <? 0) then None
  else Some (q ^ Qnum c)%Q.

(** test_network.py, lines 173-178: [curve_fun]. *)
Definition curve_fun (pts : (Q * Q) * (Q * Q) * (Q * Q)) (x : Q * Q * Q)
  : option (Q * Q * Q) :=
  let '((q1, h1), (q2, h2), (q3, h3)) := pts in
  let '(x0, x1, x2) := x in
  match float_pow q1 x2, float_pow q2 x2, float_pow q3 x2 with
  | Some p1, Some p2, Some p3 =>
      Some (h1 - x0 + x1 * p1, h2 - x0 + x1 * p2, h3 - x0 + x1 * p3)%Q
  | _, _, _ => None
  end.

(** *** Consistency of the views (section 3) *)

Definition edge_of (entry : string * link) : edge :=
  (start_of (snd entry), end_of (snd entry), fst entry).

Definition count {V : Type} (p : V -> bool) (d : Dict.t V) : nat :=
  List.length (filter (fun entry => p (snd entry)) d).

Record consistent (wn : WaterNetworkModel) : Prop := {
  nodes_unique : NoDup (Dict.keys (nodes wn));
  links_unique : NoDup (Dict.keys (links wn));
  graph_nodes_ok : graph_nodes wn = Dict.keys (nodes wn);
  graph_edges_ok : graph_edges wn = map edge_of (links wn);
  check_valves_ok :
    check_valves wn = Dict.keys (filter (fun entry => is_cv (snd entry)) (links wn));
  endpoints_ok : forall name l, In (name, l) (links wn) ->
    Dict.contains (start_of l) (nodes wn) = true
    /\ Dict.contains (end_of l) (nodes wn) = true;
  num_junctions_ok : num_junctions wn = count is_junction (nodes wn);
  num_tanks_ok : num_tanks wn = count is_tank (nodes wn);
  num_reservoirs_ok : num_reservoirs wn = count is_reservoir (nodes wn);
  num_pipes_ok : num_pipes wn = count is_pipe (links wn);
  num_pumps_ok : num_pumps wn = count is_pump (links wn);
  num_valves_ok : num_valves wn = count is_valve (links wn)
}.

(** *** Calls on the facade and their runs *)

Section Runs.
Variable solve_three_points : Q * Q -> Q * Q -> Q * Q -> res (Q * Q * Q).

Inductive call : Type :=
| AddJunction (name : string) (demand : number) (pattern : option string)
    (elevation : number)
| AddTank (name : string)
    (elevation init_level min_level max_level diameter min_vol : number)
| AddReservoir (name : string) (base_head : number) (pattern : option string)
| AddCurve (name : string) (kind : curve_type) (pts : list (Q * Q))
| AddPipe (name start_node end_node : string)
    (length diameter roughness minor_loss : number) (status_word : string)
| AddPump (name start_node end_node : string) (arg : pump_argument)
| AddValve (name start_node end_node : string) (valve_type : string)
    (setting : number)
| RemovePipe (name : string).

Definition perform (wn : WaterNetworkModel) (c : call) : res WaterNetworkModel :=
  match c with
  | AddJunction n d p e => add_junction wn n d p e
  | AddTank n e i lo hi d v => add_tank wn n e i lo hi d v
  | AddReservoir n h p => add_reservoir wn n h p
  | AddCurve n k pts => add_curve wn n k pts
  | AddPipe n s e len d r m st => add_pipe wn n s e len d r m st
  | AddPump n s e arg => add_pump solve_three_points wn n s e arg
  | AddValve n s e ty v => add_valve wn n s e ty v
  | RemovePipe n => remove_pipe wn n
  end.

(** A failed call leaves the model as it was. *)
Definition after (wn : WaterNetworkModel) (c : call) : WaterNetworkModel :=
  match perform wn c with
  | Success wn' => wn'
  | Failure _ => wn
  end.

Definition run_calls (cs : list call) : WaterNetworkModel :=
  fold_left after cs empty.
End Runs.

End Network.

(** Spec side of the elementwise operators: the value a key has after
    combining two dictionaries key by key. *)
Definition pairwise (op : DataFrame -> DataFrame -> DataFrame)
    (mine theirs : Dict.t DataFrame) (key : string) : option DataFrame :=
  match Dict.get key mine, Dict.get key theirs with
  | Some a, Some b => Some (op a b)
  | _, _ => None
  end.

(** What a binary operator returns on operands whose link dictionaries are
    [la] and [lb] and whose node dictionaries are [na] and [nb]. *)
Definition combines (op : DataFrame -> DataFrame -> DataFrame)
    (la lb na nb : Dict.t DataFrame) (r : result SimulationResults) : Prop :=
  exists new l n,
    r = Ok new
    /\ link new = Some l /\ node new = Some n
    /\ (forall key, Dict.get key l = pairwise op la lb key)
    /\ (forall key, Dict.get key n = pairwise op na nb key)
    /\ (forall key, Dict.contains key l
                    = Dict.contains key la && Dict.contains key lb)
    /\ (forall key, Dict.contains key n
                    = Dict.contains key na && Dict.contains key nb).

(** Every frame of a dictionary carries the time index [ts]. *)
Definition indexed_by (ts : list Z) (d : Dict.t DataFrame) : Prop :=
  forall key f, Dict.get key d = Some f -> index f = ts.

(** A results object that holds both dictionaries, all of whose frames
    carry one strictly increasing time index. *)
Definition time_indexed (r : SimulationResults) (ts : list Z)
    (l n : Dict.t DataFrame) : Prop :=
  link r = Some l /\ node r = Some n
  /\ NoDup (Dict.keys l) /\ NoDup (Dict.keys n)
  /\ indexed_by ts l /\ indexed_by ts n
  /\ increasing ts = true.

(** No frame of the dictionary repeats a column label. *)
Definition distinct_labels (d : Dict.t DataFrame) : Prop :=
  forall key f, Dict.get key d = Some f -> NoDup (columns f).

(** [m] is [a] cut at [start] and continued by [b]. *)
Definition cut_and_continued (start : Z) (a b m : DataFrame) : Prop :=
  index m = filter (fun t => t <? start) (index a) ++ index b
  /\ NoDup (index m)
  /\ (forall t c, t < start -> In c (columns a) -> at_ m t c = at_ a t c)
  /\ (forall t c, start <= t -> In c (columns b) -> at_ m t c = at_ b t c).

(** [LookupError] is the base class of [KeyError] and [IndexError]. *)
Definition lookup_error (e : exn) : bool :=
  match e with
  | KeyError _ | IndexError => true
  | _ => false
  end.

(** Every frame of a dictionary has [n] rows. *)
Definition rows_long (n : nat) (d : Dict.t DataFrame) : Prop :=
  forall key f, Dict.get key d = Some f -> List.length (rows f) = n.

(** The rows of [a] that a mask keeps. *)
Definition kept_rows (keep : list bool) (a : DataFrame) : DataFrame :=
  mkFrame (columns a) (select keep (rows a)).

(** [p] is a placeholder shaped like [t]: the same column labels, the same
    timestamps, every cell NaN. *)
Definition placeholder_like (t p : DataFrame) : Prop :=
  columns p = columns t
  /\ index p = index t
  /\ forall time c, In time (index t) -> at_ p time c = Some NaN.

(** Decidable forms of the conditions above. *)
Fixpoint distinct (ks : list string) : bool :=
  match ks with
  | [] => true
  | k :: ks' => negb (existsb (String.eqb k) ks') && distinct ks'
  end.

Fixpoint same_times (ts us : list Z) : bool :=
  match ts, us with
  | [], [] => true
  | t :: ts', u :: us' => (t =? u) && same_times ts' us'
  | _, _ => false
  end.

Definition all_indexed_by (ts : list Z) (d : Dict.t DataFrame) : bool :=
  forallb (fun entry => same_times (index (snd entry)) ts) d.

Definition all_distinct_labels (d : Dict.t DataFrame) : bool :=
  forallb (fun entry => distinct (columns (snd entry))) d.

(** ** Concrete results objects

    [results_A] covers the times 0, 25, 50, 75 and [results_B] the times
    50, 75, 100, 125, with the same properties.  [results_short] is
    [results_B] without the velocity and the pressure, [results_untemplated]
    is [results_B] without the flowrate, and [results_headless] is
    [results_A] without the head. *)

Definition series (column : string) (values : list (Z * Z)) : DataFrame :=
  mkFrame [column] (map (fun p => (fst p, [Num (inject_Z (snd p))])) values).

Definition times_A : list Z := [0; 25; 50; 75].
Definition times_B : list Z := [50; 75; 100; 125].

Definition flowrate_A := series "p1" [(0, 1); (25, 2); (50, 3); (75, 4)].
Definition velocity_A := series "p1" [(0, 5); (25, 6); (50, 7); (75, 8)].
Definition head_A := series "j1" [(0, 10); (25, 11); (50, 12); (75, 13)].
Definition pressure_A := series "j1" [(0, 20); (25, 21); (50, 22); (75, 23)].

Definition flowrate_B := series "p1" [(50, 30); (75, 40); (100, 50); (125, 60)].
Definition velocity_B := series "p1" [(50, 70); (75, 80); (100, 90); (125, 100)].
Definition head_B := series "j1" [(50, 120); (75, 130); (100, 140); (125, 150)].
Definition pressure_B := series "j1" [(50, 220); (75, 230); (100, 240); (125, 250)].

Definition links_A : Dict.t DataFrame :=
  [("flowrate", flowrate_A); ("velocity", velocity_A)].
Definition nodes_A : Dict.t DataFrame := [("head", head_A); ("pressure", pressure_A)].
Definition links_B : Dict.t DataFrame :=
  [("flowrate", flowrate_B); ("velocity", velocity_B)].
Definition nodes_B : Dict.t DataFrame := [("head", head_B); ("pressure", pressure_B)].

Definition results_of (stamp : string) (l n : Dict.t DataFrame) : SimulationResults :=
  mkResults stamp (Some "net") 0 (Some l) (Some n).

Definition results_A : SimulationResults :=
  results_of "2020-01-01 00:00:00" links_A nodes_A.

Definition results_B : SimulationResults :=
  results_of "2020-01-02 00:00:00" links_B nodes_B.

Definition links_short : Dict.t DataFrame := [("flowrate", flowrate_B)].
Definition nodes_short : Dict.t DataFrame := [("head", head_B)].

Definition results_short : SimulationResults :=
  results_of "2020-01-02 00:00:00" links_short nodes_short.

Definition results_untemplated : SimulationResults :=
  results_of "2020-01-02 00:00:00" [("velocity", velocity_B)] nodes_B.

Definition nodes_headless : Dict.t DataFrame := [("pressure", pressure_A)].

Definition results_headless : SimulationResults :=
  results_of "2020-01-01 00:00:00" links_A nodes_headless.

(** [results_C] covers the same times as [results_A], with values that are
    powers of two; [results_C_short] is [results_C] with the flowrate and
    the head alone. *)

Definition flowrate_C := series "p1" [(0, 2); (25, 4); (50, 8); (75, 16)].
Definition velocity_C := series "p1" [(0, 4); (25, 8); (50, 16); (75, 32)].
Definition head_C := series "j1" [(0, 8); (25, 16); (50, 32); (75, 64)].
Definition pressure_C := series "j1" [(0, 16); (25, 32); (50, 64); (75, 128)].

Definition links_C : Dict.t DataFrame :=
  [("flowrate", flowrate_C); ("velocity", velocity_C)].
Definition nodes_C : Dict.t DataFrame := [("head", head_C); ("pressure", pressure_C)].

Definition results_C : SimulationResults :=
  results_of "2020-01-02 00:00:00" links_C nodes_C.

Definition links_C_short : Dict.t DataFrame := [("flowrate", flowrate_C)].
Definition nodes_C_short : Dict.t DataFrame := [("head", head_C)].

Definition results_C_short : SimulationResults :=
  results_of "2020-01-02 00:00:00" links_C_short nodes_C_short.

(** [results_tail] covers the times 50 and 75 only, with all four
    properties; [results_flow_only] is [results_A] with the flowrate and
    the head alone. *)


Definition links_tail : Dict.t DataFrame :=
  [("flowrate", series "p1" [(50, 30); (75, 40)]);
   ("velocity", series "p1" [(50, 70); (75, 80)])].

Definition nodes_tail : Dict.t DataFrame :=
  [("head", series "j1" [(50, 120); (75, 130)]);
   ("pressure", series "j1" [(50, 220); (75, 230)])].

Definition results_tail : SimulationResults :=
  results_of "2020-01-02 00:00:00" links_tail nodes_tail.

Definition links_flow : Dict.t DataFrame := [("flowrate", flowrate_A)].
Definition nodes_head : Dict.t DataFrame := [("head", head_A)].

Definition results_flow_only : SimulationResults :=
  results_of "2020-01-01 00:00:00" links_flow nodes_head.

(** ** The scenarios of test_network.py *)

(** A root finder that never converges, for the runs that fit no
    three-point curve. *)
Definition no_solver (p1 p2 p3 : Q * Q) : Network.res (Q * Q * Q) :=
  Network.Failure Network.ConvergenceError.

(** [assertAlmostEqual] accepts a difference that rounds to zero at seven
    decimal places. *)
Definition tolerance : Q := 5 # 100000000.

Definition junctions (names : list string) : list Network.call :=
  map (fun n => Network.AddJunction n (Network.Int 0) None (Network.Int 0)) names.

Definition plain_pipe (name start_node end_node status_word : string) : Network.call :=
  Network.AddPipe name start_node end_node (Network.Int 1000) (Network.Int 1)
    (Network.Int 100) (Network.Int 0) status_word.

(** ** results.py: the unary operators and the power (lines 101-138, 170-181) *)

Section UnaryOperators.
(** pandas [abs(df)], [-df], [+df] and [pow(df, exp, mod)], the last of which
    may raise; [exponent] and [modulus] are the types of what [__pow__] is
    given besides [self], and [str_exponent] is [str(exp)]. *)
Variables df_abs df_neg df_pos : DataFrame -> DataFrame.
Variables exponent modulus : Type.
Variable str_exponent : exponent -> string.
Variable df_pow : DataFrame -> exponent -> option modulus -> result DataFrame.
Variable now : string.

(** [for key in mine.keys(): new[key] = f(mine[key])] *)
Definition mapwise (f : DataFrame -> result DataFrame)
    (mine : option (Dict.t DataFrame)) : result (Dict.t DataFrame) :=
  ks <- keys_of mine ;;
  run (for_each ks
    (fun key new =>
       try (subscript mine key) new (fun a =>
       try (f a) new (fun b =>
       Done (Dict.set key b new))))
    Dict.empty).

Definition unary_name (opening closing : string) (self : SimulationResults) : string :=
  (opening ++ str_name (network_name self) ++ "[" ++ timestamp self ++ "]"
   ++ closing)%string.

(** results.py, lines 101-112 *)
Definition __abs__ (self : SimulationResults) : result SimulationResults :=
  let name := unary_name "|" "|" self in
  new_link <- mapwise (fun a => Ok (df_abs a)) (link self) ;;
  new_node <- mapwise (fun a => Ok (df_abs a)) (node self) ;;
  Ok (with_dicts (__init__ now) name new_link new_node).

(** results.py, lines 114-125 *)
Definition __neg__ (self : SimulationResults) : result SimulationResults :=
  let name := unary_name "-" "" self in
  new_link <- mapwise (fun a => Ok (df_neg a)) (link self) ;;
  new_node <- mapwise (fun a => Ok (df_neg a)) (node self) ;;
  Ok (with_dicts (__init__ now) name new_link new_node).

(** results.py, lines 127-138 *)
Definition __pos__ (self : SimulationResults) : result SimulationResults :=
  let name := unary_name "+" "" self in
  new_link <- mapwise (fun a => Ok (df_pos a)) (link self) ;;
  new_node <- mapwise (fun a => Ok (df_pos a)) (node self) ;;
  Ok (with_dicts (__init__ now) name new_link new_node).

(** results.py, lines 170-181; the modulus [m] defaults to [None]. *)
Definition __pow__ (self : SimulationResults) (exp : exponent) (m : option modulus)
  : result SimulationResults :=
  let name := unary_name "" (" ** " ++ str_exponent exp) self in
  new_link <- mapwise (fun a => df_pow a exp m) (link self) ;;
  new_node <- mapwise (fun a => df_pow a exp m) (node self) ;;
  Ok (with_dicts (__init__ now) name new_link new_node).
End UnaryOperators.

(** ** results.py: _adjust_time (lines 183-196) *)

(** Spec side: the frame with every index value moved by [ts], in exact
    integers. *)
Definition shift (ts : Z) (df : DataFrame) : DataFrame :=
  mkFrame (columns df) (map (fun r => (fst r + ts, snd r)) (rows df)).

(** The index of a results frame holds int64 values, and numpy adds to
    them without a check: a sum past either end of the range wraps around. *)
Definition int64 (z : Z) : Prop := - 2 ^ 63 <= z < 2 ^ 63.

Definition wrap64 (z : Z) : Z := (z + 2 ^ 63) mod 2 ^ 64 - 2 ^ 63.

(** [df.index += ts] on an int64 index, for a [ts] that fits in 64 bits:
    the frame object gets the index of the wrapped sums.  An index of
    another type, or a [ts] beyond 64 bits, makes numpy leave int64;
    nothing below is stated for them. *)
Definition index_iadd (ts : Z) (df : DataFrame) : DataFrame :=
  mkFrame (columns df) (map (fun r => (wrap64 (fst r + ts), snd r)) (rows df)).

(** Adding [n] to the index of [f] stays within int64. *)
Definition fits (n : Z) (f : DataFrame) : Prop :=
  forall t, In t (index f) -> int64 (t + n).

(** [_adjust_time] changes frame objects in place, and one frame object can
    sit under several keys.  The frame objects therefore live in a store,
    and the dictionaries of a results object hold references into it. *)

Module Shared.

Definition store : Type := list DataFrame.

Record results : Type := mkShared {
  timestamp : string;
  network_name : option string;
  sim_time : Z;
  link_refs : option (Dict.t nat);
  node_refs : option (Dict.t nat)
}.

(** The store with the object at [i] replaced by [g] of it. *)
Fixpoint update (i : nat) (g : DataFrame -> DataFrame) (fs : store) : store :=
  match fs, i with
  | [], _ => []
  | f :: fs', O => g f :: fs'
  | f :: fs', S i' => f :: update i' g fs'
  end.

(** [for key in refs.keys(): refs[key].index += ts] *)
Definition adjust_refs (ts : Z) (refs : option (Dict.t nat)) (fs : store)
  : outcome store :=
  match refs with
  | None => Raised AttributeError fs
  | Some d =>
      for_each (Dict.keys d)
        (fun key fs =>
           try (Dict.getitem key d) fs (fun r =>
           Done (update r (index_iadd ts) fs)))
        fs
  end.

(** results.py, lines 183-196.  [int_ts] is what the builtin [int(ts)]
    evaluates to: an integer, or the exception it raises. *)
Definition _adjust_time (int_ts : result Z) (self : results) (fs : store)
  : outcome store :=
  try int_ts fs (fun ts =>
  match adjust_refs ts (link_refs self) fs with
  | Raised e fs' => Raised e fs'
  | Done fs' => adjust_refs ts (node_refs self) fs'
  end).

(** The frame a reference stands for; a reference past the end of the
    store stands for an empty frame. *)
Definition deref (fs : store) (r : nat) : DataFrame :=
  nth r fs (mkFrame [] []).

(** The dictionary of frames that a dictionary of references stands for. *)
Definition view (fs : store) (refs : Dict.t nat) : Dict.t DataFrame :=
  map (fun entry => (fst entry, deref fs (snd entry))) refs.

(** The results object, by value, that [self] stands for in the store [fs]. *)
Definition value (fs : store) (self : results) : SimulationResults :=
  mkResults (timestamp self) (network_name self) (sim_time self)
    (option_map (view fs) (link_refs self)) (option_map (view fs) (node_refs self)).

Definition refs_of (refs : option (Dict.t nat)) : list nat :=
  match refs with
  | Some d => map snd d
  | None => []
  end.

(** All references held by the object, one per key. *)
Definition all_refs (self : results) : list nat :=
  refs_of (link_refs self) ++ refs_of (node_refs self).

(** Every frame of the store has an index of int64 values. *)
Definition int64_indexed (fs : store) : Prop :=
  forall f t, In f fs -> In t (index f) -> int64 t.

End Shared.

(** ** Spec side of the loops that build a dictionary *)

(** The dictionary collected from [d]: [g] gives the new value of a key, says
    to skip it, or raises; the first raise ends the collection. *)
Fixpoint collect (g : string -> DataFrame -> result (option DataFrame))
    (d : Dict.t DataFrame) : result (Dict.t DataFrame) :=
  match d with
  | [] => Ok []
  | (k, a) :: d' =>
      match g k a with
      | Raise e => Raise e
      | Ok r =>
          match collect g d' with
          | Raise e => Raise e
          | Ok rest =>
              Ok (match r with
                  | Some b => (k, b) :: rest
                  | None => rest
                  end)
          end
      end
  end.

(** The same keys in the same order, every frame replaced by [g] of it. *)
Definition map_values (g : DataFrame -> DataFrame) (d : Dict.t DataFrame)
  : Dict.t DataFrame :=
  map (fun entry => (fst entry, g (snd entry))) d.

(** The entries of [mine] whose key [theirs] has too, combined. *)
Definition common (op : DataFrame -> DataFrame -> DataFrame)
    (mine theirs : Dict.t DataFrame) : Dict.t DataFrame :=
  flat_map
    (fun entry =>
       match Dict.get (fst entry) theirs with
       | Some b => [(fst entry, op (snd entry) b)]
       | None => []
       end) mine.

(** The state an outcome carries, transformed. *)
Definition outcome_map {S T : Type} (f : S -> T) (o : outcome S) : outcome T :=
  match o with
  | Done s => Done (f s)
  | Raised e s => Raised e (f s)
  end.

(** A populated results object with every frame shifted by [ts]. *)
Definition shifted (ts : Z) (r : SimulationResults) : SimulationResults :=
  mkResults (timestamp r) (network_name r) (sim_time r)
    (option_map (map_values (shift ts)) (link r))
    (option_map (map_values (shift ts)) (node r)).

(** The dictionary left by [for key in d.keys(): d[key] = g(key, d[key])]:
    the frames before the first raise are replaced, the others are not. *)
Fixpoint update_all (g : string -> DataFrame -> result DataFrame)
    (d : Dict.t DataFrame) : outcome (Dict.t DataFrame) :=
  match d with
  | [] => Done []
  | (k, a) :: d' =>
      match g k a with
      | Raise e => Raised e ((k, a) :: d')
      | Ok f =>
          match update_all g d' with
          | Done r => Done ((k, f) :: r)
          | Raised e r => Raised e ((k, f) :: r)
          end
      end
  end.

(** The entries of [theirs] under keys that [mine] lacks. *)
Definition only_theirs (mine theirs : Dict.t DataFrame) : Dict.t DataFrame :=
  filter (fun entry => negb (Dict.contains (fst entry) mine)) theirs.

(** The placeholder rows that the second loop of [append_results_from]
    puts before the frame of a key that only [other] has: the template frame
    of [self], as it is by then, times [pd.nan], under the mask. *)
Definition masked_template (pd_nan : result cell) (keep : list bool)
    (template : string) (mine : Dict.t DataFrame) : result DataFrame :=
  t <- Dict.getitem template mine ;;
  nan <- pd_nan ;;
  loc keep (mul_scalar t nan).

(** Spec side of both loops over one dictionary of [self]: every frame of
    [mine] spliced in turn, then the keys that only [theirs] has adopted
    behind one masked placeholder. *)
Definition merged (pd_nan : result cell) (keep : list bool) (template : string)
    (mine theirs : Dict.t DataFrame) : outcome (Dict.t DataFrame) :=
  match update_all (spliced pd_nan keep template theirs) mine with
  | Raised e d => Raised e d
  | Done d =>
      match only_theirs mine theirs with
      | [] => Done d
      | _ :: _ =>
          match masked_template pd_nan keep template d with
          | Ok kept =>
              Done (d ++ map_values (append kept) (only_theirs mine theirs))
          | Raise e => Raised e d
          end
      end
  end.

(** What follows the kept rows of [self]'s frame for [key]: the frame of
    [theirs], or its template frame times [pd.nan]. *)
Definition continuation (pd_nan : result cell) (template : string)
    (theirs : Dict.t DataFrame) (key : string) : result DataFrame :=
  match Dict.get key theirs with
  | Some b => Ok b
  | None =>
      t <- Dict.getitem template theirs ;;
      nan <- pd_nan ;;
      Ok (mul_scalar t nan)
  end.

(** The dictionary [r] that a raise of [e] leaves in place of [mine]: the
    frames of the keys [pre] walked so far are spliced and the others,
    [post], are as they were.  The raise comes from the first key of
    [post], or, when every key of [mine] has been walked, from the masked
    placeholder for the keys to adopt; none of them has been adopted. *)
Definition stopped (pd_nan : result cell) (keep : list bool) (template : string)
    (mine theirs : Dict.t DataFrame) (e : exn) (r : Dict.t DataFrame) : Prop :=
  exists pre post done,
    mine = pre ++ post /\ r = done ++ post
    /\ update_all (spliced pd_nan keep template theirs) pre = Done done
    /\ match post with
       | (k, a) :: _ => spliced pd_nan keep template theirs k a = Raise e
       | [] =>
           only_theirs mine theirs <> []
           /\ masked_template pd_nan keep template r = Raise e
       end.

(** [results_B] as an object whose four frames are four objects of a
    store, and an object two of whose link keys hold one frame object. *)

Definition store_B : Shared.store := [flowrate_B; velocity_B; head_B; pressure_B].

Definition shared_B : Shared.results :=
  Shared.mkShared "2020-01-02 00:00:00" (Some "net") 0
    (Some [("flowrate", 0%nat); ("velocity", 1%nat)])
    (Some [("head", 2%nat); ("pressure", 3%nat)]).

Definition store_aliased : Shared.store := [flowrate_A; head_A; pressure_A].

Definition shared_aliased : Shared.results :=
  Shared.mkShared "2020-01-01 00:00:00" (Some "net") 0
    (Some [("flowrate", 0%nat); ("velocity", 0%nat)])
    (Some [("head", 1%nat)]).

(** ** Exact reading of the unary float64 operations, for concrete frames *)

Definition cell_abs (x : cell) : cell :=
  match x with
  | Num a => Num (Qabs a)
  | Inf _ => Inf false
  | NaN => NaN
  end.

(** [x ** n] for an integer [n]. *)
Definition cell_pow (n : Z) (x : cell) : cell :=
  match x with
  | Num a =>
      if Qeq_bool a 0 && (n <? 0) then Inf false else Num (a ^ n)
  | Inf s =>
      if n =? 0 then Num 1
      else if n <? 0 then Num 0
      else Inf (s && Z.odd n)
  | NaN => if n =? 0 then Num 1 else NaN
  end.

Definition frame_map (g : cell -> cell) (f : DataFrame) : DataFrame :=
  mkFrame (columns f) (map (fun r => (fst r, map g (snd r))) (rows f)).

(** [pow(df, n, m)]: a frame takes no modulus. *)
Definition frame_pow (f : DataFrame) (n : Z) (m : option Z) : result DataFrame :=
  match m with
  | None => Ok (frame_map (cell_pow n) f)
  | Some _ => Raise TypeError
  end.

(** * Properties *)

(** ** Dictionaries *)

Section DictFacts.
Context {V : Type}.
Implicit Types (d : Dict.t V) (k key : string) (v : V).

Lemma get_set_same : forall d k v, Dict.get k (Dict.set k v d) = Some v.
Proof.
  induction d as [|[k' w] d IH]; intros k v; simpl.
  - now rewrite String.eqb_refl.
  - destruct (String.eqb k k') eqn:E; simpl.
    + now rewrite E.
    + rewrite E. apply IH.
Qed.

Lemma get_set_other : forall d k key v,
  key <> k -> Dict.get key (Dict.set k v d) = Dict.get key d.
Proof.
  induction d as [|[k' w] d IH]; intros k key v Hne; simpl.
  - apply String.eqb_neq in Hne. now rewrite Hne.
  - destruct (String.eqb k k') eqn:E; simpl.
    + apply String.eqb_eq in E. subst k'.
      apply String.eqb_neq in Hne. now rewrite Hne.
    + destruct (String.eqb key k'); [reflexivity | now apply IH].
Qed.

Lemma contains_keys : forall d key,
  Dict.contains key d = true <-> In key (Dict.keys d).
Proof.
  unfold Dict.contains.
  induction d as [|[k' w] d IH]; intros key; simpl.
  - split; [discriminate | tauto].
  - destruct (String.eqb key k') eqn:E.
    + apply String.eqb_eq in E. subst. split; auto.
    + apply String.eqb_neq in E. rewrite IH. split; [auto | intros [H|H]; congruence].
Qed.

Lemma not_contains_keys : forall d key,
  Dict.contains key d = false <-> ~ In key (Dict.keys d).
Proof.
  intros d key. rewrite <- contains_keys.
  destruct (Dict.contains key d); split; congruence.
Qed.

Lemma contains_get : forall d key,
  Dict.contains key d = true <-> exists v, Dict.get key d = Some v.
Proof.
  intros d key. unfold Dict.contains.
  destruct (Dict.get key d) as [v|]; split; eauto; try discriminate.
  intros [v H]. discriminate.
Qed.

Lemma keys_set_known : forall d k v,
  Dict.contains k d = true -> Dict.keys (Dict.set k v d) = Dict.keys d.
Proof.
  unfold Dict.contains.
  induction d as [|[k' w] d IH]; intros k v; simpl; [discriminate|].
  destruct (String.eqb k k') eqn:E; simpl; intros H.
  - reflexivity.
  - f_equal. now apply IH.
Qed.

Lemma keys_set_new : forall d k v,
  Dict.contains k d = false -> Dict.keys (Dict.set k v d) = Dict.keys d ++ [k].
Proof.
  unfold Dict.contains.
  induction d as [|[k' w] d IH]; intros k v; simpl; [reflexivity|].
  destruct (String.eqb k k') eqn:E; simpl; intros H; [discriminate|].
  f_equal. now apply IH.
Qed.

Lemma set_new : forall d k v,
  Dict.contains k d = false -> Dict.set k v d = d ++ [(k, v)].
Proof.
  unfold Dict.contains.
  induction d as [|[k' w] d IH]; intros k v; simpl; [reflexivity|].
  destruct (String.eqb k k') eqn:E; simpl; intros H; [discriminate|].
  f_equal. now apply IH.
Qed.

Lemma get_in : forall d key v, Dict.get key d = Some v -> In (key, v) d.
Proof.
  induction d as [|[k' w] d IH]; intros key v; simpl; [discriminate|].
  destruct (String.eqb key k') eqn:E.
  - apply String.eqb_eq in E. intros [= ->]. subst. now left.
  - intros H. right. now apply IH.
Qed.

Lemma in_get : forall d key v,
  NoDup (Dict.keys d) -> In (key, v) d -> Dict.get key d = Some v.
Proof.
  induction d as [|[k' w] d IH]; intros key v Hnd Hin; simpl in *; [tauto|].
  inversion Hnd as [|? ? Hnot Hnd']; subst.
  destruct Hin as [[= -> ->]|Hin].
  - now rewrite String.eqb_refl.
  - destruct (String.eqb key k') eqn:E.
    + apply String.eqb_eq in E. subst k'.
      exfalso. apply Hnot. change key with (fst (key, v)). now apply in_map.
    + now apply IH.
Qed.

Lemma get_app_new : forall d key k v,
  Dict.get key (d ++ [(k, v)])
  = match Dict.get key d with
    | Some w => Some w
    | None => if String.eqb key k then Some v else None
    end.
Proof.
  induction d as [|[k' w] d IH]; intros key k v; simpl; [reflexivity|].
  destruct (String.eqb key k'); [reflexivity | apply IH].
Qed.

End DictFacts.

(** ** The operators of the results class *)

Section OperatorFacts.
Variables df_add df_sub df_div : DataFrame -> DataFrame -> DataFrame.
Variable df_div_int : DataFrame -> Z -> DataFrame.
Variable now : string.

(** The loop of a binary operator neither raises nor touches a key outside
    the keys it walks through; a walked key that both operands have gets the
    combined frame. *)
Lemma elementwise_loop (op : DataFrame -> DataFrame -> DataFrame)
    (la lb : Dict.t DataFrame) :
  forall ks new,
    (forall k, In k ks -> In k (Dict.keys la)) ->
    exists new',
      for_each ks
        (fun key new =>
           try (in_ key (Some lb)) new (fun present =>
           if present then
             try (subscript (Some la) key) new (fun a =>
             try (subscript (Some lb) key) new (fun b =>
             Done (Dict.set key (op a b) new)))
           else Done new)) new = Done new'
      /\ forall key,
           Dict.get key new'
           = match (if in_dec string_dec key ks then pairwise op la lb key else None) with
             | Some v => Some v
             | None => Dict.get key new
             end.
Proof.
  induction ks as [|k ks IH]; intros new Hks.
  - exists new. split; [reflexivity|]. intros key. reflexivity.
  - assert (Hk : In k (Dict.keys la)) by (apply Hks; now left).
    apply contains_keys, contains_get in Hk. destruct Hk as [a Ha].
    cbn [for_each in_ try subscript]. unfold Dict.getitem. rewrite Ha.
    unfold Dict.contains.
    destruct (Dict.get k lb) as [b|] eqn:Hb; cbn [try].
    + destruct (IH (Dict.set k (op a b) new)) as [new' [Hrun Hget]].
      { intros k' Hk'. apply Hks. now right. }
      exists new'. split; [exact Hrun|].
      intros key. rewrite Hget.
      destruct (string_dec key k) as [->|Hne].
      * destruct (in_dec string_dec k (k :: ks)) as [_|Hn]; [|exfalso; apply Hn; now left].
        unfold pairwise. rewrite Ha, Hb.
        destruct (in_dec string_dec k ks); [reflexivity|].
        apply get_set_same.
      * rewrite (get_set_other _ k key _ Hne).
        destruct (in_dec string_dec key ks) as [Hi|Hi];
          destruct (in_dec string_dec key (k :: ks)) as [Hj|Hj]; try reflexivity.
        -- exfalso. apply Hj. now right.
        -- exfalso. destruct Hj as [Hj|Hj]; [congruence | tauto].
    + destruct (IH new) as [new' [Hrun Hget]].
      { intros k' Hk'. apply Hks. now right. }
      exists new'. split; [exact Hrun|].
      intros key. rewrite Hget.
      destruct (string_dec key k) as [->|Hne].
      * destruct (in_dec string_dec k (k :: ks)) as [_|Hn]; [|exfalso; apply Hn; now left].
        unfold pairwise. rewrite Ha, Hb.
        destruct (in_dec string_dec k ks); reflexivity.
      * destruct (in_dec string_dec key ks) as [Hi|Hi];
          destruct (in_dec string_dec key (k :: ks)) as [Hj|Hj]; try reflexivity.
        -- exfalso. apply Hj. now right.
        -- exfalso. destruct Hj as [Hj|Hj]; [congruence | tauto].
Qed.

Lemma elementwise_pairwise (op : DataFrame -> DataFrame -> DataFrame)
    (la lb : Dict.t DataFrame) :
  exists new,
    elementwise op (Some la) (Some lb) = Ok new
    /\ (forall key, Dict.get key new = pairwise op la lb key)
    /\ (forall key, Dict.contains key new
                    = Dict.contains key la && Dict.contains key lb).
Proof.
  destruct (elementwise_loop op la lb (Dict.keys la) Dict.empty) as [new [Hrun Hget]];
    [auto|].
  assert (Hpair : forall key, Dict.get key new = pairwise op la lb key).
  { intros key. rewrite Hget.
    destruct (in_dec string_dec key (Dict.keys la)) as [Hi|Hi].
    - now destruct (pairwise op la lb key).
    - apply not_contains_keys in Hi. unfold Dict.contains in Hi.
      unfold pairwise. now destruct (Dict.get key la). }
  exists new. split; [|split].
  - unfold elementwise. cbn [keys_of bind]. rewrite Hrun. reflexivity.
  - exact Hpair.
  - intros key. unfold Dict.contains. rewrite Hpair. unfold pairwise.
    destruct (Dict.get key la), (Dict.get key lb); reflexivity.
Qed.

Lemma binary_combines (op : DataFrame -> DataFrame -> DataFrame) (sign : string)
    (self other : SimulationResults) (la lb na nb : Dict.t DataFrame) :
  link self = Some la -> link other = Some lb ->
  node self = Some na -> node other = Some nb ->
  combines op la lb na nb
    (new_link <- elementwise op (link self) (link other) ;;
     new_node <- elementwise op (node self) (node other) ;;
     Ok (with_dicts (__init__ now) (binary_name sign self other) new_link new_node)).
Proof.
  intros Hla Hlb Hna Hnb. rewrite Hla, Hlb, Hna, Hnb.
  destruct (elementwise_pairwise op la lb) as [l [Hl [Hgl Hcl]]].
  destruct (elementwise_pairwise op na nb) as [n [Hn [Hgn Hcn]]].
  rewrite Hl, Hn. cbn [bind].
  exists (with_dicts (__init__ now) (binary_name sign self other) l n), l, n.
  repeat split; auto.
Qed.

(** C4: on two results objects that hold their link and node dictionaries,
    [A + B], [A - B] and [A / B] return a new results object whose
    dictionaries have exactly the keys that both operands have, each mapped
    to the combination of the two frames; a key missing from either operand
    is skipped and nothing is raised. *)
Theorem binary_operators_combine_common_keys :
  forall (self other : SimulationResults) (la lb na nb : Dict.t DataFrame),
    link self = Some la -> link other = Some lb ->
    node self = Some na -> node other = Some nb ->
    combines df_add la lb na nb (__add__ df_add now self (PyResults other))
    /\ combines df_sub la lb na nb (__sub__ df_sub now self (PyResults other))
    /\ combines df_div la lb na nb
         (__truediv__ df_div df_div_int now self (PyResults other)).
Proof.
  intros self other la lb na nb Hla Hlb Hna Hnb.
  repeat split; cbn [__add__ __sub__ __truediv__];
    eapply binary_combines; eassumption.
Qed.

(** C3: with a right operand that is not a results object, [A + x] and
    [A - x] raise the operand-type error (a [ValueError] in the source), and
    so does [A / x] when [x] is not an integer either; no result is built
    from a converted operand. *)
Theorem operators_reject_foreign_operands :
  forall (self : SimulationResults) (x : pyval),
    isinstance_results x = false ->
    __add__ df_add now self x = Raise (ValueError type_message)
    /\ __sub__ df_sub now self x = Raise (ValueError type_message)
    /\ (isinstance_int x = false ->
        __truediv__ df_div df_div_int now self x = Raise (ValueError divisor_message)).
Proof.
  intros self x Hx.
  destruct x as [r|n|b|q|s|]; try discriminate Hx;
    repeat split; try reflexivity; intros Hint; try discriminate Hint; reflexivity.
Qed.

End OperatorFacts.

(** ** Frames *)

Lemma select_before : forall (start : Z) (rs : list (Z * list cell)),
  select (before start (map fst rs)) rs = filter (fun r => fst r <? start) rs.
Proof.
  intros start. induction rs as [|r rs IH]; simpl; [reflexivity|].
  destruct (fst r <? start); now rewrite IH.
Qed.

Lemma index_filter : forall (start : Z) (rs : list (Z * list cell)),
  map fst (filter (fun r => fst r <? start) rs)
  = filter (fun t => t <? start) (map fst rs).
Proof.
  intros start. induction rs as [|r rs IH]; simpl; [reflexivity|].
  destruct (fst r <? start); simpl; now rewrite IH.
Qed.

Lemma index_reindex : forall cols new rs,
  map fst (map (reindex cols new) rs) = map fst rs.
Proof.
  intros cols new rs. rewrite map_map. reflexivity.
Qed.

Lemma index_append : forall f g, index (append f g) = index f ++ index g.
Proof.
  intros f g. unfold index, append. cbn [rows].
  now rewrite map_app, !index_reindex.
Qed.

Lemma index_mul_scalar : forall f x, index (mul_scalar f x) = index f.
Proof.
  intros f x. unfold index, mul_scalar. cbn [rows]. now rewrite map_map.
Qed.

Lemma loc_before : forall start a ts,
  index a = ts ->
  loc (before start ts) a
  = Ok (mkFrame (columns a) (filter (fun r => fst r <? start) (rows a))).
Proof.
  intros start a ts <-. unfold loc, before, index.
  rewrite !length_map, Nat.eqb_refl. f_equal. f_equal.
  apply (select_before start).
Qed.

Lemma row_at_app : forall t xs ys,
  row_at t (xs ++ ys)
  = match row_at t xs with
    | Some r => Some r
    | None => row_at t ys
    end.
Proof.
  intros t. induction xs as [|[t' r] xs IH]; intros ys; simpl; [reflexivity|].
  destruct (t =? t'); [reflexivity | apply IH].
Qed.

Lemma row_at_reindex : forall t cols new rs,
  row_at t (map (reindex cols new) rs)
  = option_map (fun r => map (cell_of cols r) new) (row_at t rs).
Proof.
  intros t cols new. induction rs as [|[t' r] rs IH]; simpl; [reflexivity|].
  destruct (t =? t'); [reflexivity | apply IH].
Qed.

Lemma row_at_absent : forall t rs, ~ In t (map fst rs) -> row_at t rs = None.
Proof.
  intros t. induction rs as [|[t' r] rs IH]; simpl; intros H; [reflexivity|].
  destruct (Z.eqb_spec t t') as [->|Hne]; [exfalso; auto|].
  apply IH. tauto.
Qed.

Lemma row_at_filter_below : forall t start rs,
  t < start -> row_at t (filter (fun r => fst r <? start) rs) = row_at t rs.
Proof.
  intros t start rs Hlt. induction rs as [|[t' r] rs IH]; simpl; [reflexivity|].
  destruct (Z.ltb_spec t' start) as [H|H]; simpl.
  - now rewrite IH.
  - destruct (Z.eqb_spec t t') as [->|Hne]; [lia | exact IH].
Qed.

Lemma row_at_filter_above : forall t start rs,
  start <= t -> row_at t (filter (fun r => fst r <? start) rs) = None.
Proof.
  intros t start rs Hle. apply row_at_absent.
  rewrite index_filter. intros Hin. apply filter_In in Hin.
  destruct Hin as [_ Hlt]. apply Z.ltb_lt in Hlt. lia.
Qed.

Lemma cell_of_reindex : forall cols r new c,
  In c new -> cell_of new (map (cell_of cols r) new) c = cell_of cols r c.
Proof.
  intros cols r. induction new as [|c' new IH]; intros c Hin; simpl in *; [tauto|].
  destruct (String.eqb_spec c c') as [->|Hne]; [reflexivity|].
  apply IH. destruct Hin; [congruence | assumption].
Qed.

Lemma union_columns_left : forall a b c, In c a -> In c (union_columns a b).
Proof.
  intros a b c H. unfold union_columns. apply in_or_app. now left.
Qed.

Lemma union_columns_right : forall a b c, In c b -> In c (union_columns a b).
Proof.
  intros a b c H. unfold union_columns. apply in_or_app.
  destruct (existsb (String.eqb c) a) eqn:E.
  - left. apply existsb_exists in E. destruct E as [x [Hx Heq]].
    apply String.eqb_eq in Heq. now subst.
  - right. apply filter_In. split; [assumption | now rewrite E].
Qed.

(** On frames with the same, distinct column labels and full rows,
    [append] is the concatenation of the rows. *)
Lemma reindex_same : forall cols r,
  NoDup cols -> List.length r = List.length cols ->
  map (cell_of cols r) cols = r.
Proof.
  induction cols as [|c cols IH]; intros [|x r] Hnd Hlen; try discriminate Hlen;
    [reflexivity|].
  inversion Hnd as [|? ? Hnot Hnd']; subst.
  cbn [map cell_of]. rewrite String.eqb_refl. f_equal.
  transitivity (map (cell_of cols r) cols).
  - apply map_ext_in. intros c' Hin. cbn [cell_of].
    destruct (String.eqb_spec c' c) as [->|_]; [tauto | reflexivity].
  - apply IH; [assumption|]. cbn in Hlen. congruence.
Qed.

Lemma union_columns_same : forall cols, union_columns cols cols = cols.
Proof.
  intros cols. unfold union_columns.
  assert (H : forall b, (forall c, In c b -> In c cols) ->
            filter (fun c => negb (existsb (String.eqb c) cols)) b = []).
  { induction b as [|c b IH]; intros Hb; [reflexivity|]. cbn [filter].
    assert (Hc : existsb (String.eqb c) cols = true).
    { apply existsb_exists. exists c. split; [apply Hb; now left|].
      apply String.eqb_refl. }
    rewrite Hc. cbn [negb]. apply IH. intros c' Hc'. apply Hb. now right. }
  rewrite H by auto. apply app_nil_r.
Qed.

Lemma append_aligned : forall f g,
  columns g = columns f -> NoDup (columns f) ->
  (forall r, In r (rows f ++ rows g) -> List.length (snd r) = List.length (columns f)) ->
  append f g = mkFrame (columns f) (rows f ++ rows g).
Proof.
  intros f g Hcols Hnd Hfull. unfold append. rewrite Hcols, union_columns_same.
  f_equal. rewrite <- map_app. rewrite <- (map_id (rows f ++ rows g)) at 2.
  apply map_ext_in. intros [t r] Hin. unfold reindex. cbn [fst snd].
  f_equal. apply reindex_same; [assumption|]. exact (Hfull (t, r) Hin).
Qed.

(** Strictly increasing lists: everything after the head is larger, and no
    timestamp occurs twice. *)
Lemma increasing_head : forall t ts u,
  increasing (t :: ts) = true -> In u ts -> t < u.
Proof.
  intros t ts. revert t. induction ts as [|t' ts IH]; intros t u Hinc Hin; [easy|].
  cbn [increasing] in Hinc. apply andb_true_iff in Hinc. destruct Hinc as [Hlt Hinc].
  apply Z.ltb_lt in Hlt. destruct Hin as [<-|Hin]; [assumption|].
  specialize (IH t' u Hinc Hin). lia.
Qed.

Lemma increasing_tail : forall t ts, increasing (t :: ts) = true -> increasing ts = true.
Proof.
  intros t [|t' ts] H; [reflexivity|].
  cbn [increasing] in H. now apply andb_true_iff in H.
Qed.

Lemma increasing_NoDup : forall ts, increasing ts = true -> NoDup ts.
Proof.
  induction ts as [|t ts IH]; intros H; constructor.
  - intros Hin. pose proof (increasing_head t ts t H Hin). lia.
  - apply IH. now apply increasing_tail in H.
Qed.

Lemma NoDup_filter : forall (p : Z -> bool) ts, NoDup ts -> NoDup (filter p ts).
Proof.
  intros p. induction ts as [|t ts IH]; intros H; simpl; [constructor|].
  inversion H as [|? ? Hnot Hnd]; subst.
  destruct (p t); [constructor|]; auto.
  intros Hin. apply filter_In in Hin. tauto.
Qed.

Lemma NoDup_app_disjoint : forall (xs ys : list Z),
  NoDup xs -> NoDup ys -> (forall x, In x xs -> ~ In x ys) -> NoDup (xs ++ ys).
Proof.
  induction xs as [|x xs IH]; intros ys Hx Hy Hdis; simpl; [assumption|].
  inversion Hx as [|? ? Hnot Hnd]; subst. constructor.
  - intros Hin. apply in_app_or in Hin. destruct Hin as [Hin|Hin]; [tauto|].
    apply (Hdis x); [now left | assumption].
  - apply IH; auto. intros z Hz. apply Hdis. now right.
Qed.

(** The frame a common key ends up with. *)
Lemma append_cut : forall start rest a b,
  increasing (index a) = true ->
  index b = start :: rest ->
  increasing (index b) = true ->
  cut_and_continued start a b
    (append (mkFrame (columns a) (filter (fun r => fst r <? start) (rows a))) b).
Proof.
  intros start rest a b Ha Hb Hinc.
  assert (Hlow : forall t, In t (index b) -> start <= t).
  { intros t Hin. rewrite Hb in Hin, Hinc. destruct Hin as [<-|Hin]; [lia|].
    pose proof (increasing_head start rest t Hinc Hin). lia. }
  unfold cut_and_continued. repeat split.
  - rewrite index_append. unfold index at 1. cbn [rows]. now rewrite index_filter.
  - rewrite index_append. unfold index at 1. cbn [rows]. rewrite index_filter.
    apply NoDup_app_disjoint.
    + apply NoDup_filter. now apply increasing_NoDup.
    + now apply increasing_NoDup.
    + intros t Hin Hin'. apply filter_In in Hin. destruct Hin as [_ Hlt].
      apply Z.ltb_lt in Hlt. apply Hlow in Hin'. lia.
  - intros t c Hlt Hc. unfold at_, append. cbn [rows columns].
    rewrite row_at_app, !row_at_reindex, row_at_filter_below by assumption.
    destruct (row_at t (rows a)) as [r|] eqn:Hr; cbn [option_map].
    + f_equal. apply cell_of_reindex. now apply union_columns_left.
    + rewrite (row_at_absent t (rows b)); [reflexivity|].
      intros Hin. apply Hlow in Hin. lia.
  - intros t c Hle Hc. unfold at_, append. cbn [rows columns].
    rewrite row_at_app, !row_at_reindex, row_at_filter_above by assumption.
    cbn [option_map].
    destruct (row_at t (rows b)) as [r|] eqn:Hr; cbn [option_map]; [|reflexivity].
    f_equal. apply cell_of_reindex. now apply union_columns_right.
Qed.

(** ** append_results_from *)

Section SpliceFacts.
Variable pd_nan : result cell.
Variable keep : list bool.
Variable template : string.

Lemma splice_known_step : forall (o mine : Dict.t DataFrame) key a,
  Dict.get key mine = Some a ->
  splice_known pd_nan keep template (Some o) key mine
  = match spliced pd_nan keep template o key a with
    | Ok f => Done (Dict.set key f mine)
    | Raise e => Raised e mine
    end.
Proof.
  intros o mine key a Ha.
  unfold splice_known, spliced, in_, subscript, Dict.contains, Dict.getitem.
  rewrite Ha. cbn [try].
  destruct (Dict.get key o) as [b|] eqn:Hb; cbn [try bind].
  - destruct (loc keep a); reflexivity.
  - destruct (Dict.get template o); cbn [try bind]; [|reflexivity].
    destruct pd_nan; cbn [try bind]; [|reflexivity].
    destruct (loc keep a); reflexivity.
Qed.

(** First loop: the keys stay, every walked key is spliced, and a raise
    comes from the splice of some walked key. *)
Lemma splice_known_loop (o : Dict.t DataFrame) :
  forall ks mine,
    NoDup ks ->
    (forall k, In k ks -> In k (Dict.keys mine)) ->
    match for_each ks (splice_known pd_nan keep template (Some o)) mine with
    | Done mine' =>
        Dict.keys mine' = Dict.keys mine
        /\ (forall key a, In key ks -> Dict.get key mine = Some a ->
              exists f, spliced pd_nan keep template o key a = Ok f
                        /\ Dict.get key mine' = Some f)
        /\ (forall key, ~ In key ks -> Dict.get key mine' = Dict.get key mine)
    | Raised e _ =>
        exists key a, In key ks /\ Dict.get key mine = Some a
                      /\ spliced pd_nan keep template o key a = Raise e
    end.
Proof.
  induction ks as [|k ks IH]; intros mine Hnd Hks.
  - cbn [for_each]. repeat split; auto. intros key a [].
  - inversion Hnd as [|? ? Hnot Hnd']; subst.
    assert (Hk : In k (Dict.keys mine)) by (apply Hks; now left).
    pose proof Hk as Hc. apply contains_keys in Hc.
    apply contains_get in Hc. destruct Hc as [a Ha].
    cbn [for_each]. rewrite (splice_known_step o mine k a Ha).
    destruct (spliced pd_nan keep template o k a) as [f|e] eqn:Hf.
    + assert (Hkeys : Dict.keys (Dict.set k f mine) = Dict.keys mine).
      { apply keys_set_known. now apply contains_keys. }
      specialize (IH (Dict.set k f mine) Hnd').
      destruct (for_each ks (splice_known pd_nan keep template (Some o))
                  (Dict.set k f mine)) as [mine'|e' s'].
      * destruct IH as [Hkeys' [Hin Hout]].
        { intros k' Hk'. rewrite Hkeys. apply Hks. now right. }
        split; [congruence|]. split.
        -- intros key a' [<-|Hkey] Hget.
           ++ exists f. split; [congruence|].
              rewrite (Hout k Hnot). apply get_set_same.
           ++ apply (Hin key a' Hkey).
              rewrite get_set_other; [assumption|]. intros ->. tauto.
        -- intros key Hkey. rewrite Hout by (intros H; apply Hkey; now right).
           apply get_set_other. intros ->. apply Hkey. now left.
      * destruct IH as [key [a' [Hkey [Hget Hraise]]]].
        { intros k' Hk'. rewrite Hkeys. apply Hks. now right. }
        exists key, a'. split; [now right|]. split; [|assumption].
        rewrite get_set_other in Hget; [assumption|]. intros ->. tauto.
    + exists k, a. split; [now left|]. split; assumption.
Qed.

(** Second loop: a key that [self] already has keeps its frame. *)
Lemma splice_new_keeps (o : Dict.t DataFrame) :
  forall ks mine,
    match for_each ks (splice_new pd_nan keep template o) mine with
    | Done mine' =>
        forall key, Dict.contains key mine = true ->
          Dict.get key mine' = Dict.get key mine
    | Raised _ _ => True
    end.
Proof.
  induction ks as [|k ks IH]; intros mine; cbn [for_each]; [auto|].
  unfold splice_new at 1.
  destruct (Dict.contains k mine) eqn:Hk; cbn [negb].
  - apply IH.
  - destruct (Dict.getitem template mine) as [t|e]; cbn [try]; [|exact I].
    destruct pd_nan as [nan|e]; cbn [try]; [|exact I].
    destruct (loc keep (mul_scalar t nan)) as [kept|e]; cbn [try]; [|exact I].
    destruct (Dict.getitem k o) as [b|e]; cbn [try]; [|exact I].
    specialize (IH (Dict.set k (append kept b) mine)).
    destruct (for_each ks _ (Dict.set k (append kept b) mine)) as [mine'|];
      [|exact I].
    intros key Hkey.
    assert (Hne : key <> k) by (intros ->; congruence).
    rewrite IH.
    + now apply get_set_other.
    + unfold Dict.contains in *. now rewrite get_set_other.
Qed.

(** Second loop: nothing to add when [self] has every key of [other]. *)
Lemma splice_new_nothing (o : Dict.t DataFrame) :
  forall ks mine,
    (forall k, In k ks -> Dict.contains k mine = true) ->
    for_each ks (splice_new pd_nan keep template o) mine = Done mine.
Proof.
  induction ks as [|k ks IH]; intros mine Hks; cbn [for_each]; [reflexivity|].
  unfold splice_new at 1. rewrite (Hks k) by now left. cbn [negb].
  apply IH. intros k' Hk'. apply Hks. now right.
Qed.

(** Both loops, when they run to completion. *)
Lemma splice_done : forall (mine o : Dict.t DataFrame) theirs result,
  NoDup (Dict.keys mine) ->
  theirs = Some o ->
  splice pd_nan keep template (Some mine) theirs = Done result ->
  exists mine',
    result = Some mine'
    /\ forall key a, Dict.get key mine = Some a ->
         exists f, spliced pd_nan keep template o key a = Ok f
                   /\ Dict.get key mine' = Some f.
Proof.
  intros mine o theirs result Hnd -> Hrun. unfold splice in Hrun.
  pose proof (splice_known_loop o (Dict.keys mine) mine Hnd (fun k H => H)) as H1.
  destruct (for_each (Dict.keys mine) (splice_known pd_nan keep template (Some o)) mine)
    as [d1|]; [|discriminate].
  destruct H1 as [Hkeys [Hin _]].
  pose proof (splice_new_keeps o (Dict.keys o) d1) as H2.
  destruct (for_each (Dict.keys o) (splice_new pd_nan keep template o) d1) as [d2|];
    [|discriminate].
  injection Hrun as <-. exists d2. split; [reflexivity|].
  intros key a Ha.
  assert (Hkey : In key (Dict.keys mine)).
  { apply contains_keys, contains_get. eauto. }
  destruct (Hin key a Hkey Ha) as [f [Hf Hget]].
  exists f. split; [assumption|].
  rewrite H2; [assumption|].
  apply contains_get. eauto.
Qed.

(** Both loops run to completion when every splice succeeds and [other]
    brings no key of its own. *)
Lemma splice_completes : forall (mine o : Dict.t DataFrame),
  NoDup (Dict.keys mine) ->
  (forall key a, Dict.get key mine = Some a ->
     exists f, spliced pd_nan keep template o key a = Ok f) ->
  (forall key, In key (Dict.keys o) -> In key (Dict.keys mine)) ->
  exists mine',
    splice pd_nan keep template (Some mine) (Some o) = Done (Some mine')
    /\ Dict.keys mine' = Dict.keys mine
    /\ forall key a, Dict.get key mine = Some a ->
         exists f, spliced pd_nan keep template o key a = Ok f
                   /\ Dict.get key mine' = Some f.
Proof.
  intros mine o Hnd Hok Hsub. unfold splice.
  pose proof (splice_known_loop o (Dict.keys mine) mine Hnd (fun k H => H)) as H1.
  destruct (for_each (Dict.keys mine) (splice_known pd_nan keep template (Some o)) mine)
    as [d1|e s].
  - destruct H1 as [Hkeys [Hin _]].
    rewrite splice_new_nothing.
    + exists d1. split; [reflexivity|]. split; [assumption|].
      intros key a Ha. apply (Hin key a); [|assumption].
      apply contains_keys, contains_get. eauto.
    + intros k Hk. apply contains_keys. rewrite Hkeys. now apply Hsub.
  - destruct H1 as [key [a [_ [Ha Hraise]]]].
    destruct (Hok key a Ha) as [f Hf]. congruence.
Qed.

End SpliceFacts.

Lemma loc_ok : forall keep a,
  List.length keep = List.length (rows a) -> loc keep a = Ok (kept_rows keep a).
Proof.
  intros keep a H. unfold loc. rewrite H, Nat.eqb_refl. reflexivity.
Qed.

Lemma length_before : forall start ts, List.length (before start ts) = List.length ts.
Proof.
  intros. unfold before. apply length_map.
Qed.

Lemma cell_mul_nan : forall x, cell_mul x NaN = NaN.
Proof.
  intros [a|s|]; reflexivity.
Qed.

(** A frame times NaN has the rows of the frame, every cell NaN. *)
Lemma at_mul_nan : forall f t c,
  In t (index f) -> at_ (mul_scalar f NaN) t c = Some NaN.
Proof.
  intros [cols rs] t c. unfold at_, mul_scalar, index. cbn [rows columns].
  induction rs as [|[t' r] rs IH]; cbn [map fst row_at]; intros Hin; [easy|].
  destruct (Z.eqb_spec t t') as [->|Hne].
  - cbn [option_map snd]. f_equal. clear. revert r.
    induction cols as [|c' cols IH]; intros [|x r]; cbn [map cell_of];
      try reflexivity.
    destruct (String.eqb c c'); [apply cell_mul_nan | apply IH].
  - apply IH. destruct Hin; [congruence | assumption].
Qed.

Lemma mul_nan_placeholder : forall t, placeholder_like t (mul_scalar t NaN).
Proof.
  intros t. split; [reflexivity|]. split; [apply index_mul_scalar|].
  intros time c. apply at_mul_nan.
Qed.

Lemma NoDup_union_columns : forall a b,
  NoDup a -> NoDup b -> NoDup (union_columns a b).
Proof.
  intros a b Ha Hb. unfold union_columns. apply NoDup_app.
  - exact Ha.
  - now apply List.NoDup_filter.
  - intros c Hc Hc'. apply filter_In in Hc'. destruct Hc' as [_ Hnot].
    apply negb_true_iff in Hnot.
    assert (Hex : existsb (String.eqb c) a = true).
    { apply existsb_exists. exists c. split; [exact Hc | apply String.eqb_refl]. }
    congruence.
Qed.

Section AppendFacts.
Variable pd_nan : result cell.

(** The call, once both ['head'] frames are found and [other] covers some
    time: the two dictionaries are spliced in turn. *)
Lemma append_results_from_unfold :
  forall self other na nb ha hb start rest,
    node self = Some na -> node other = Some nb ->
    Dict.get "head" na = Some ha -> Dict.get "head" nb = Some hb ->
    index hb = start :: rest ->
    append_results_from pd_nan self (PyResults other)
    = let keep := before start (index ha) in
      match splice pd_nan keep "flowrate" (link self) (link other) with
      | Raised e l => Raised e (set_link self l)
      | Done l =>
          match splice pd_nan keep "head" (Some na) (Some nb) with
          | Raised e n => Raised e (set_node (set_link self l) n)
          | Done n => Done (set_node (set_link self l) n)
          end
      end.
Proof.
  intros self other na nb ha hb start rest Hna Hnb Hha Hhb Hidx.
  unfold append_results_from, subscript, Dict.getitem.
  rewrite Hnb, Hhb. cbn [try]. rewrite Hidx. cbn [first_value try].
  rewrite Hna, Hha. cbn [try].
  destruct (splice pd_nan (before start (index ha)) "flowrate" (link self) (link other));
    [|reflexivity].
  cbn [set_link node]. rewrite Hna. reflexivity.
Qed.

(** Without ['head'] in both node dictionaries the call raises before the
    first loop. *)
Lemma append_head_missing :
  forall (self other : SimulationResults) (na nb : Dict.t DataFrame),
    node self = Some na -> node other = Some nb ->
    Dict.get "head" na = None \/ Dict.get "head" nb = None ->
    exists e,
      append_results_from pd_nan self (PyResults other) = Raised e self
      /\ lookup_error e = true
      /\ (e = KeyError "head"
          \/ (e = IndexError
              /\ exists hb, Dict.get "head" nb = Some hb /\ index hb = [])).
Proof.
  intros self other na nb Hna Hnb Hmiss.
  unfold append_results_from, subscript, Dict.getitem. rewrite Hnb.
  destruct (Dict.get "head" nb) as [hb|] eqn:Hhb; cbn [try].
  - destruct Hmiss as [Hmiss|Hmiss]; [|discriminate].
    destruct (index hb) as [|start rest] eqn:Hidx; cbn [first_value try].
    + exists IndexError. repeat split. right. split; [reflexivity|].
      exists hb. split; [reflexivity | assumption].
    + rewrite Hna, Hmiss. cbn [try].
      exists (KeyError "head"). repeat split. now left.
  - exists (KeyError "head"). repeat split. now left.
Qed.

(** C10: the call needs ['head'] in both node dictionaries.  When either
    entry is absent the call raises a lookup error and [self] is left as it
    was.  When both are there, the cut time is the first index value of
    [other]'s ['head'] frame, the mask of kept rows is computed from the
    index of [self]'s ['head'] frame, and the two dictionaries are spliced
    with them. *)
Theorem append_requires_head :
  forall (self other : SimulationResults) (na nb : Dict.t DataFrame),
    node self = Some na -> node other = Some nb ->
    (Dict.get "head" na = None \/ Dict.get "head" nb = None ->
     exists e,
       append_results_from pd_nan self (PyResults other) = Raised e self
       /\ lookup_error e = true
       /\ (e = KeyError "head"
           \/ (e = IndexError
               /\ exists hb, Dict.get "head" nb = Some hb /\ index hb = [])))
    /\ (forall ha hb start rest,
          Dict.get "head" na = Some ha -> Dict.get "head" nb = Some hb ->
          index hb = start :: rest ->
          append_results_from pd_nan self (PyResults other)
          = let keep := before start (index ha) in
            match splice pd_nan keep "flowrate" (link self) (link other) with
            | Raised e l => Raised e (set_link self l)
            | Done l =>
                match splice pd_nan keep "head" (Some na) (Some nb) with
                | Raised e n => Raised e (set_node (set_link self l) n)
                | Done n => Done (set_node (set_link self l) n)
                end
            end).
Proof.
  intros self other na nb Hna Hnb. split.
  - now apply append_head_missing.
  - intros ha hb start rest Hha Hhb Hidx.
    now apply append_results_from_unfold with (nb := nb) (hb := hb) (rest := rest).
Qed.

(** The call runs to completion on two populated objects when ['head'] is
    in both node dictionaries, [other] covers some time, every frame of
    [self] is as long as its ['head'] frame, [other] has no key that [self]
    lacks, and, whenever [self] has a key that [other] lacks, [pd.nan] has a
    value and [other] has the template frame. *)
Lemma append_completes :
  forall self other la na lb nb ha hb start rest,
    link self = Some la -> node self = Some na ->
    link other = Some lb -> node other = Some nb ->
    NoDup (Dict.keys la) -> NoDup (Dict.keys na) ->
    Dict.get "head" na = Some ha -> Dict.get "head" nb = Some hb ->
    index hb = start :: rest ->
    rows_long (List.length (rows ha)) la -> rows_long (List.length (rows ha)) na ->
    (forall key, In key (Dict.keys lb) -> In key (Dict.keys la)) ->
    (forall key, In key (Dict.keys nb) -> In key (Dict.keys na)) ->
    (forall key, In key (Dict.keys la) -> ~ In key (Dict.keys lb) ->
       Dict.contains "flowrate" lb = true /\ exists x, pd_nan = Ok x) ->
    (forall key, In key (Dict.keys na) -> ~ In key (Dict.keys nb) ->
       exists x, pd_nan = Ok x) ->
    let keep := before start (index ha) in
    exists la' na',
      append_results_from pd_nan self (PyResults other)
      = Done (set_node (set_link self (Some la')) (Some na'))
      /\ Dict.keys la' = Dict.keys la /\ Dict.keys na' = Dict.keys na
      /\ (forall key a, Dict.get key la = Some a ->
            exists f, spliced pd_nan keep "flowrate" lb key a = Ok f
                      /\ Dict.get key la' = Some f)
      /\ (forall key a, Dict.get key na = Some a ->
            exists f, spliced pd_nan keep "head" nb key a = Ok f
                      /\ Dict.get key na' = Some f).
Proof.
  intros self other la na lb nb ha hb start rest Hla Hna Hlb Hnb Hndl Hndn
    Hha Hhb Hidx Hlenl Hlenn Hsubl Hsubn Hfilll Hfilln keep.
  assert (Hkeep : forall d key a, rows_long (List.length (rows ha)) d ->
            Dict.get key d = Some a -> loc keep a = Ok (kept_rows keep a)).
  { intros d key a Hd Ha. apply loc_ok. unfold keep.
    rewrite length_before. unfold index. rewrite length_map.
    symmetry. exact (Hd key a Ha). }
  destruct (splice_completes pd_nan keep "flowrate" la lb Hndl)
    as [la' [Hl [Hkl Hgl]]].
  { intros key a Ha. unfold spliced. rewrite (Hkeep la key a Hlenl Ha).
    destruct (Dict.get key lb) as [b|] eqn:Hb; cbn [bind]; [eauto|].
    destruct (Hfilll key) as [Hc [x Hx]].
    - apply contains_keys, contains_get. eauto.
    - apply not_contains_keys. unfold Dict.contains. now rewrite Hb.
    - apply contains_get in Hc. destruct Hc as [t Ht].
      unfold Dict.getitem. rewrite Ht, Hx. cbn [bind]. eauto. }
  { exact Hsubl. }
  destruct (splice_completes pd_nan keep "head" na nb Hndn)
    as [na' [Hn [Hkn Hgn]]].
  { intros key a Ha. unfold spliced. rewrite (Hkeep na key a Hlenn Ha).
    unfold Dict.getitem. rewrite Hhb.
    destruct (Dict.get key nb) as [b|] eqn:Hb; cbn [bind]; [eauto|].
    destruct (Hfilln key) as [x Hx].
    - apply contains_keys, contains_get. eauto.
    - apply not_contains_keys. unfold Dict.contains. now rewrite Hb.
    - rewrite Hx. cbn [bind]. eauto. }
  { exact Hsubn. }
  exists la', na'.
  rewrite (append_results_from_unfold self other na nb ha hb start rest)
    by assumption.
  cbv zeta. fold keep. rewrite Hla, Hlb, Hl, Hn.
  repeat split; assumption.
Qed.

Lemma spliced_common_key :
  forall template (o : Dict.t DataFrame) key a b f ta start rest,
    index a = ta -> increasing ta = true ->
    index b = start :: rest -> increasing (index b) = true ->
    Dict.get key o = Some b ->
    spliced pd_nan (before start ta) template o key a = Ok f ->
    cut_and_continued start a b f.
Proof.
  intros template o key a b f ta start rest Ha Hta Hb Hinc Hget Hf.
  unfold spliced in Hf. rewrite Hget, (loc_before start a ta Ha) in Hf.
  cbn [bind] in Hf. injection Hf as <-.
  apply (append_cut start rest); [now rewrite Ha | assumption | assumption].
Qed.

Lemma indexed_rows_long : forall ts d,
  indexed_by ts d -> rows_long (List.length ts) d.
Proof.
  intros ts d H key f Hf. rewrite <- (H key f Hf). unfold index.
  now rewrite length_map.
Qed.

Lemma spliced_common_labels :
  forall keep template (o : Dict.t DataFrame) key a b f,
    Dict.get key o = Some b ->
    spliced pd_nan keep template o key a = Ok f ->
    NoDup (columns a) -> NoDup (columns b) -> NoDup (columns f).
Proof.
  intros keep template o key a b f Hb Hf Ha Hb'. unfold spliced in Hf.
  rewrite Hb in Hf. unfold loc in Hf.
  destruct (Nat.eqb _ _); cbn [bind] in Hf; [|discriminate].
  injection Hf as <-. unfold append. cbn [columns].
  now apply NoDup_union_columns.
Qed.

(** C1, as amended: [A] and [B] each carry one strictly increasing time
    index, [B]'s starting at [start].  Whenever [A.append_results_from(B)]
    returns, every key that both objects have holds a frame made of [A]'s
    rows stamped strictly before [start] followed by all of [B]'s rows: no
    timestamp occurs twice, the values at times before [start] are [A]'s and
    those from [start] on are [B]'s.  The call does return when ['head'] is
    in both node dictionaries, the two objects have the same keys and no
    frame repeats a column label; the frames it leaves repeat none either.
    This holds whatever evaluating [pd.nan] does. *)
Theorem append_splices_common_keys :
  forall (self other : SimulationResults) (la na lb nb : Dict.t DataFrame)
         (ta tb : list Z) (start : Z) (rest : list Z),
    time_indexed self ta la na ->
    time_indexed other tb lb nb ->
    tb = start :: rest ->
    (forall self',
       append_results_from pd_nan self (PyResults other) = Done self' ->
       exists la' na',
         link self' = Some la' /\ node self' = Some na'
         /\ (forall key a b,
               Dict.get key la = Some a -> Dict.get key lb = Some b ->
               exists m, Dict.get key la' = Some m /\ cut_and_continued start a b m)
         /\ (forall key a b,
               Dict.get key na = Some a -> Dict.get key nb = Some b ->
               exists m, Dict.get key na' = Some m /\ cut_and_continued start a b m))
    /\ (Dict.contains "head" na = true ->
        (forall key, In key (Dict.keys la) <-> In key (Dict.keys lb)) ->
        (forall key, In key (Dict.keys na) <-> In key (Dict.keys nb)) ->
        distinct_labels la -> distinct_labels na ->
        distinct_labels lb -> distinct_labels nb ->
        exists self' la' na',
          append_results_from pd_nan self (PyResults other) = Done self'
          /\ link self' = Some la' /\ node self' = Some na'
          /\ distinct_labels la' /\ distinct_labels na').
Proof.
  intros self other la na lb nb ta tb start rest
    (Hla & Hna & Hndl & Hndn & Hil & Hin & Hta)
    (Hlb & Hnb & _ & _ & Hjl & Hjn & Htb) Hstart.
  split.
  - intros self' Hrun.
    destruct (Dict.get "head" na) as [ha|] eqn:Hha;
      [|destruct (append_head_missing self other na nb Hna Hnb (or_introl Hha))
          as [e [He _]]; congruence].
    destruct (Dict.get "head" nb) as [hb|] eqn:Hhb;
      [|destruct (append_head_missing self other na nb Hna Hnb (or_intror Hhb))
          as [e [He _]]; congruence].
    assert (Hidx : index hb = start :: rest) by (rewrite (Hjn _ _ Hhb); exact Hstart).
    rewrite (append_results_from_unfold self other na nb ha hb start rest) in Hrun
      by assumption.
    cbv zeta in Hrun. rewrite (Hin _ _ Hha), Hla in Hrun.
    destruct (splice pd_nan (before start ta) "flowrate" (Some la) (link other))
      as [l|] eqn:Hl; [|discriminate].
    destruct (splice pd_nan (before start ta) "head" (Some na) (Some nb))
      as [n|] eqn:Hn; [|discriminate].
    injection Hrun as <-.
    destruct (splice_done _ _ _ la lb _ l Hndl Hlb Hl) as [la' [-> Hgl]].
    destruct (splice_done _ _ _ na nb _ n Hndn eq_refl Hn) as [na' [-> Hgn]].
    exists la', na'. repeat split.
    + intros key a b Ha Hb. destruct (Hgl key a Ha) as [f [Hf Hget]].
      exists f. split; [assumption|].
      apply (spliced_common_key "flowrate" lb key a b f ta start rest);
        [exact (Hil _ _ Ha) | exact Hta | | | exact Hb | exact Hf].
      * rewrite (Hjl _ _ Hb). exact Hstart.
      * rewrite (Hjl _ _ Hb). exact Htb.
    + intros key a b Ha Hb. destruct (Hgn key a Ha) as [f [Hf Hget]].
      exists f. split; [assumption|].
      apply (spliced_common_key "head" nb key a b f ta start rest);
        [exact (Hin _ _ Ha) | exact Hta | | | exact Hb | exact Hf].
      * rewrite (Hjn _ _ Hb). exact Hstart.
      * rewrite (Hjn _ _ Hb). exact Htb.
  - intros Hha Hsamel Hsamen Hlabl Hlabn Hlabl' Hlabn'.
    assert (Hhb : Dict.contains "head" nb = true).
    { apply contains_keys, Hsamen, contains_keys, Hha. }
    apply contains_get in Hha. destruct Hha as [ha Hha].
    apply contains_get in Hhb. destruct Hhb as [hb Hhb].
    assert (Hlen : List.length (rows ha) = List.length ta).
    { rewrite <- (Hin _ _ Hha). unfold index. now rewrite length_map. }
    destruct (append_completes self other la na lb nb ha hb start rest)
      as [la' [na' [Hrun [Hkl [Hkn [Hgl Hgn]]]]]]; auto.
    + rewrite (Hjn _ _ Hhb). exact Hstart.
    + rewrite Hlen. now apply indexed_rows_long.
    + rewrite Hlen. now apply indexed_rows_long.
    + intros key. apply Hsamel.
    + intros key. apply Hsamen.
    + intros key Hk Hnk. exfalso. apply Hnk, Hsamel, Hk.
    + intros key Hk Hnk. exfalso. apply Hnk, Hsamen, Hk.
    + assert (Hlabels : forall template (d o d' : Dict.t DataFrame) keep,
                Dict.keys d' = Dict.keys d ->
                (forall key, In key (Dict.keys d) <-> In key (Dict.keys o)) ->
                distinct_labels d -> distinct_labels o ->
                (forall key a, Dict.get key d = Some a ->
                   exists f, spliced pd_nan keep template o key a = Ok f
                             /\ Dict.get key d' = Some f) ->
                distinct_labels d').
      { intros template d o d' keep Hkeys Hsame Hd Ho Hg key f Hf.
        assert (Hkey : In key (Dict.keys d)).
        { rewrite <- Hkeys. apply contains_keys, contains_get. eauto. }
        pose proof Hkey as Hc. apply contains_keys, contains_get in Hc.
        destruct Hc as [a Ha].
        apply Hsame, contains_keys, contains_get in Hkey.
        destruct Hkey as [b Hb].
        destruct (Hg key a Ha) as [f' [Hs Hf']].
        assert (f' = f) by congruence. subst f'.
        exact (spliced_common_labels keep template o key a b f Hb Hs
                 (Hd key a Ha) (Ho key b Hb)). }
      exists (set_node (set_link self (Some la')) (Some na')), la', na'.
      split; [exact Hrun|]. split; [reflexivity|]. split; [reflexivity|]. split.
      * exact (Hlabels "flowrate" la lb la' _ Hkl Hsamel Hlabl Hlabl' Hgl).
      * exact (Hlabels "head" na nb na' _ Hkn Hsamen Hlabn Hlabn' Hgn).
Qed.

End AppendFacts.

(** ** The operators and the splice on concrete results *)

Lemma distinct_NoDup : forall ks, distinct ks = true -> NoDup ks.
Proof.
  induction ks as [|k ks IH]; intros H; constructor;
    cbn [distinct] in H; apply andb_true_iff in H; destruct H as [Hk Hks].
  - intros Hin. apply negb_true_iff in Hk.
    assert (Hex : existsb (String.eqb k) ks = true).
    { apply existsb_exists. exists k. split; [assumption | apply String.eqb_refl]. }
    congruence.
  - now apply IH.
Qed.

Lemma same_times_eq : forall ts us, same_times ts us = true -> ts = us.
Proof.
  induction ts as [|t ts IH]; intros [|u us] H; cbn in H; try discriminate;
    [reflexivity|].
  apply andb_true_iff in H. destruct H as [Ht Hts].
  apply Z.eqb_eq in Ht. subst. f_equal. now apply IH.
Qed.

Lemma all_distinct_labels_sound : forall d,
  all_distinct_labels d = true -> distinct_labels d.
Proof.
  intros d H key f Hf. apply get_in in Hf.
  unfold all_distinct_labels in H. rewrite forallb_forall in H.
  apply distinct_NoDup. exact (H (key, f) Hf).
Qed.

Lemma all_indexed_by_sound : forall ts d,
  all_indexed_by ts d = true -> indexed_by ts d.
Proof.
  intros ts d H key f Hf. apply get_in in Hf.
  unfold all_indexed_by in H. rewrite forallb_forall in H.
  apply same_times_eq. exact (H (key, f) Hf).
Qed.

(** The spec's merge example, evaluated on pandas as it is, without an
    attribute [nan]: the frames of [results_A] cut at 50 and continued by
    those of [results_B]. *)
Example append_results_from_A_B :
  append_results_from (Raise AttributeError) results_A (PyResults results_B)
  = Done (results_of "2020-01-01 00:00:00"
      [("flowrate",
        series "p1" [(0, 1); (25, 2); (50, 30); (75, 40); (100, 50); (125, 60)]);
       ("velocity",
        series "p1" [(0, 5); (25, 6); (50, 70); (75, 80); (100, 90); (125, 100)])]
      [("head",
        series "j1" [(0, 10); (25, 11); (50, 120); (75, 130); (100, 140); (125, 150)]);
       ("pressure",
        series "j1" [(0, 20); (25, 21); (50, 220); (75, 230); (100, 240); (125, 250)])]).
Proof. reflexivity. Qed.

(** Were [pd.nan] the float NaN, the properties that only [results_A] has
    would be continued by NaN rows. *)
Example append_results_from_A_short :
  append_results_from (Ok NaN) results_A (PyResults results_short)
  = Done (results_of "2020-01-01 00:00:00"
      [("flowrate",
        series "p1" [(0, 1); (25, 2); (50, 30); (75, 40); (100, 50); (125, 60)]);
       ("velocity",
        mkFrame ["p1"]
          [(0, [Num (inject_Z 5)]); (25, [Num (inject_Z 6)]);
           (50, [NaN]); (75, [NaN]); (100, [NaN]); (125, [NaN])])]
      [("head",
        series "j1" [(0, 10); (25, 11); (50, 120); (75, 130); (100, 140); (125, 150)]);
       ("pressure",
        mkFrame ["j1"]
          [(0, [Num (inject_Z 20)]); (25, [Num (inject_Z 21)]);
           (50, [NaN]); (75, [NaN]); (100, [NaN]); (125, [NaN])])]).
Proof. reflexivity. Qed.

(** When pandas has no attribute [nan], the first property that only
    [results_A] has ends the call: the flowrate is merged already, the rest
    is not. *)
Example append_results_from_A_short_without_nan :
  append_results_from (Raise AttributeError) results_A (PyResults results_short)
  = Raised AttributeError
      (results_of "2020-01-01 00:00:00"
         [("flowrate",
           series "p1" [(0, 1); (25, 2); (50, 30); (75, 40); (100, 50); (125, 60)]);
          ("velocity", velocity_A)]
         nodes_A).
Proof. reflexivity. Qed.

(** A key that only [other] has: [self]'s ['flowrate'] frame has already
    been spliced when it is taken as the template, so the mask no longer
    fits it.  The link dictionary is left half merged and the node
    dictionary untouched. *)
Example append_key_of_other_only :
  append_results_from (Ok NaN)
    (results_of "2020-01-01 00:00:00" [("flowrate", flowrate_A)] nodes_A)
    (PyResults results_B)
  = Raised IndexError
      (results_of "2020-01-01 00:00:00"
         [("flowrate",
           series "p1" [(0, 1); (25, 2); (50, 30); (75, 40); (100, 50); (125, 60)])]
         nodes_A).
Proof. reflexivity. Qed.

Lemma append_splices_common_keys_witness :
  exists self' la' na',
    append_results_from (Raise AttributeError) results_A (PyResults results_B)
    = Done self'
    /\ link self' = Some la' /\ node self' = Some na'
    /\ distinct_labels la' /\ distinct_labels na'
    /\ (forall key a b,
          Dict.get key links_A = Some a -> Dict.get key links_B = Some b ->
          exists m, Dict.get key la' = Some m /\ cut_and_continued 50 a b m)
    /\ (forall key a b,
          Dict.get key nodes_A = Some a -> Dict.get key nodes_B = Some b ->
          exists m, Dict.get key na' = Some m /\ cut_and_continued 50 a b m).
Proof.
  assert (HA : time_indexed results_A times_A links_A nodes_A).
  { repeat split; try (apply distinct_NoDup; reflexivity);
      apply all_indexed_by_sound; reflexivity. }
  assert (HB : time_indexed results_B times_B links_B nodes_B).
  { repeat split; try (apply distinct_NoDup; reflexivity);
      apply all_indexed_by_sound; reflexivity. }
  destruct (append_splices_common_keys (Raise AttributeError) results_A results_B
              links_A nodes_A links_B nodes_B times_A times_B 50 [75; 100; 125]
              HA HB eq_refl) as [Hsplice Hreturns].
  destruct Hreturns as (self' & la' & na' & Hrun & Hl & Hn & Hlabl & Hlabn).
  - reflexivity.
  - intros key. cbn. tauto.
  - intros key. cbn. tauto.
  - apply all_distinct_labels_sound. reflexivity.
  - apply all_distinct_labels_sound. reflexivity.
  - apply all_distinct_labels_sound. reflexivity.
  - apply all_distinct_labels_sound. reflexivity.
  - destruct (Hsplice self' Hrun) as (la2 & na2 & Hl2 & Hn2 & Hlinks & Hnodes).
    assert (la2 = la') by congruence. assert (na2 = na') by congruence. subst.
    exists self', la', na'. repeat split; assumption.
Defined.

(** Against the unamended first claim: the time indices of [results_A] and
    [results_untemplated] overlap and both hold ['head'], but the first link
    key of [results_A] needs the ['flowrate'] frame of the other object as a
    template; the lookup raises and ['head'] keeps the rows of [results_A]
    alone. *)
Lemma append_raises_before_common_keys :
  In 50 times_A /\ In 50 times_B
  /\ Dict.get "head" nodes_A = Some head_A
  /\ Dict.get "head" nodes_B = Some head_B
  /\ index head_B = 50 :: [75; 100; 125]
  /\ append_results_from (Ok NaN) results_A (PyResults results_untemplated)
     = Raised (KeyError "flowrate") results_A
  /\ ~ cut_and_continued 50 head_A head_B head_A.
Proof.
  repeat split; try (cbn; tauto).
  intros [Hindex _]. discriminate Hindex.
Qed.

Lemma append_requires_head_witness :
  node results_headless = Some nodes_headless
  /\ node results_B = Some nodes_B
  /\ (Dict.get "head" nodes_headless = None \/ Dict.get "head" nodes_B = None)
  /\ exists e,
       append_results_from (Ok NaN) results_headless (PyResults results_B)
       = Raised e results_headless
       /\ lookup_error e = true
       /\ (e = KeyError "head"
           \/ (e = IndexError
               /\ exists hb, Dict.get "head" nodes_B = Some hb /\ index hb = [])).
Proof.
  split; [reflexivity|]. split; [reflexivity|]. split; [left; reflexivity|].
  apply (proj1 (append_requires_head (Ok NaN) results_headless results_B
                  nodes_headless nodes_B eq_refl eq_refl)).
  left. reflexivity.
Defined.

(** The operators on the concrete pair, cells combined exactly. *)
Lemma binary_operators_combine_common_keys_witness :
  link results_A = Some links_A /\ link results_C = Some links_C
  /\ node results_A = Some nodes_A /\ node results_C = Some nodes_C
  /\ combines (frame_op cell_add) links_A links_C nodes_A nodes_C
       (__add__ (frame_op cell_add) "now" results_A (PyResults results_C))
  /\ combines (frame_op cell_sub) links_A links_C nodes_A nodes_C
       (__sub__ (frame_op cell_sub) "now" results_A (PyResults results_C))
  /\ combines (frame_op cell_div) links_A links_C nodes_A nodes_C
       (__truediv__ (frame_op cell_div) frame_div_int "now" results_A
          (PyResults results_C)).
Proof.
  repeat (split; [reflexivity|]).
  apply (binary_operators_combine_common_keys (frame_op cell_add) (frame_op cell_sub)
           (frame_op cell_div) frame_div_int "now" results_A results_C
           links_A links_C nodes_A nodes_C); reflexivity.
Defined.

Example add_A_B :
  __add__ (frame_op cell_add) "now" results_A (PyResults results_C)
  = Ok (mkResults "now"
      (Some "net[2020-01-01 00:00:00] + net[2020-01-02 00:00:00]") 0
      (Some [("flowrate", frame_op cell_add flowrate_A flowrate_C);
             ("velocity", frame_op cell_add velocity_A velocity_C)])
      (Some [("head", frame_op cell_add head_A head_C);
             ("pressure", frame_op cell_add pressure_A pressure_C)])).
Proof. reflexivity. Qed.

(** Keys that [results_C_short] lacks are skipped. *)
Example add_A_short :
  __add__ (frame_op cell_add) "now" results_A (PyResults results_C_short)
  = Ok (mkResults "now"
      (Some "net[2020-01-01 00:00:00] + net[2020-01-02 00:00:00]") 0
      (Some [("flowrate", frame_op cell_add flowrate_A flowrate_C)])
      (Some [("head", frame_op cell_add head_A head_C)])).
Proof. reflexivity. Qed.

Example str_int_samples :
  str_int 0 = "0" /\ str_int 1203 = "1203" /\ str_int (-5) = "-5".
Proof. repeat split. Qed.

Lemma operators_reject_foreign_operands_witness :
  isinstance_results (PyFloat (5 # 2)) = false
  /\ __add__ (frame_op cell_add) "now" results_A (PyFloat (5 # 2))
     = Raise (ValueError type_message)
  /\ __sub__ (frame_op cell_sub) "now" results_A (PyFloat (5 # 2))
     = Raise (ValueError type_message)
  /\ (isinstance_int (PyFloat (5 # 2)) = false ->
      __truediv__ (frame_op cell_div) frame_div_int "now" results_A (PyFloat (5 # 2))
      = Raise (ValueError divisor_message)).
Proof.
  split; [reflexivity|].
  apply (operators_reject_foreign_operands (frame_op cell_add) (frame_op cell_sub)
           (frame_op cell_div) frame_div_int "now" results_A (PyFloat (5 # 2))).
  reflexivity.
Defined.

(** An integer divisor, a [bool] included, is accepted. *)
Example truediv_by_int :
  __truediv__ (frame_op cell_div) frame_div_int "now" results_B (PyInt 2)
  = Ok (mkResults "now" (Some "net[2020-01-02 00:00:00] / 2") 0
      (Some [("flowrate", frame_div_int flowrate_B 2);
             ("velocity", frame_div_int velocity_B 2)])
      (Some [("head", frame_div_int head_B 2);
             ("pressure", frame_div_int pressure_B 2)]))
  /\ exists new,
       __truediv__ (frame_op cell_div) frame_div_int "now" results_B (PyBool true)
       = Ok new.
Proof. split; [reflexivity | eexists; reflexivity]. Qed.

(** ** The water network model *)

Module NetworkFacts.
Import Network.

Section Lists.
Context {V : Type}.
Implicit Types (d : Dict.t V) (k name : string) (v : V) (p : V -> bool).

Lemma contains_app : forall d k name v,
  Dict.contains k d = true -> Dict.contains k (d ++ [(name, v)]) = true.
Proof.
  intros d k name v. unfold Dict.contains. rewrite get_app_new.
  now destruct (Dict.get k d).
Qed.

Lemma NoDup_keys_app : forall d name v,
  NoDup (Dict.keys d) -> Dict.contains name d = false ->
  NoDup (Dict.keys (d ++ [(name, v)])).
Proof.
  intros d name v Hnd Hnew. unfold Dict.keys. rewrite map_app. cbn [map fst].
  apply not_contains_keys in Hnew. unfold Dict.keys in *.
  induction (map fst d) as [|k ks IH]; cbn.
  - constructor; [easy | constructor].
  - inversion Hnd as [|? ? Hnot Hnd']; subst. constructor.
    + intros Hin. apply in_app_or in Hin. destruct Hin as [Hin|[->|[]]]; [tauto|].
      apply Hnew. now left.
    + apply IH; [assumption|]. intros Hin. apply Hnew. now right.
Qed.

Lemma count_app : forall p d name v,
  count p (d ++ [(name, v)]) = (count p d + (if p v then 1 else 0))%nat.
Proof.
  intros p d name v. unfold count. rewrite filter_app, length_app. cbn [filter snd].
  now destruct (p v).
Qed.

Lemma count_remove : forall p d name v,
  Dict.get name d = Some v ->
  count p d = (count p (Dict.remove name d) + (if p v then 1 else 0))%nat.
Proof.
  intros p. induction d as [|[k w] d IH]; intros name v Hget; cbn in Hget;
    [discriminate|].
  cbn [Dict.remove]. destruct (String.eqb name k).
  - injection Hget as ->. unfold count. cbn [filter snd].
    destruct (p v); cbn [List.length]; lia.
  - specialize (IH name v Hget). unfold count in *. cbn [filter snd].
    destruct (p w); cbn [List.length]; lia.
Qed.

Lemma filter_absent : forall d name,
  ~ In name (Dict.keys d) ->
  filter (fun entry => negb (String.eqb (fst entry) name)) d = d.
Proof.
  induction d as [|[k w] d IH]; intros name Hout; cbn; [reflexivity|].
  destruct (String.eqb_spec k name) as [->|Hne]; cbn.
  - exfalso. apply Hout. now left.
  - f_equal. apply IH. intros Hin. apply Hout. now right.
Qed.

Lemma remove_as_filter : forall d name,
  NoDup (Dict.keys d) ->
  Dict.remove name d = filter (fun entry => negb (String.eqb (fst entry) name)) d.
Proof.
  induction d as [|[k w] d IH]; intros name Hnd; cbn; [reflexivity|].
  inversion Hnd as [|? ? Hnot Hnd']; subst.
  rewrite (String.eqb_sym name k).
  destruct (String.eqb_spec k name) as [->|Hne]; cbn.
  - symmetry. now apply filter_absent.
  - f_equal. now apply IH.
Qed.

Lemma NoDup_keys_filter : forall (q : string * V -> bool) d,
  NoDup (Dict.keys d) -> NoDup (Dict.keys (filter q d)).
Proof.
  intros q. induction d as [|[k w] d IH]; intros Hnd; cbn; [constructor|].
  inversion Hnd as [|? ? Hnot Hnd']; subst.
  destruct (q (k, w)); cbn; [constructor|]; auto.
  intros Hin. apply Hnot. unfold Dict.keys in *.
  apply in_map_iff in Hin. destruct Hin as [entry [Hfst Hin]].
  apply filter_In in Hin. apply in_map_iff. exists entry. tauto.
Qed.

End Lists.

(** *** The views stay consistent *)

Ltac project :=
  cbn [nodes links curves num_junctions num_tanks num_reservoirs num_pipes
       num_pumps num_valves check_valves graph_nodes graph_edges].

Lemma consistent_empty : consistent empty.
Proof.
  constructor; try reflexivity; try apply NoDup_nil.
  intros name l [].
Qed.

Lemma add_node_success : forall wn name n wn',
  add_node wn name n = Success wn' ->
  Dict.contains name (nodes wn) = false
  /\ nodes wn' = nodes wn ++ [(name, n)]
  /\ links wn' = links wn
  /\ check_valves wn' = check_valves wn
  /\ graph_nodes wn' = graph_nodes wn ++ [name]
  /\ graph_edges wn' = graph_edges wn.
Proof.
  intros wn name n wn'. unfold add_node.
  destruct (Dict.contains name (nodes wn)) eqn:Hc; [discriminate|].
  intros [= <-]. cbn. rewrite (set_new _ _ _ Hc). repeat split.
Qed.

Lemma add_node_consistent : forall wn name n wn',
  consistent wn -> add_node wn name n = Success wn' -> consistent wn'.
Proof.
  intros wn name n wn' 
    [Hnu Hlu Hgn Hge Hcv Hep Hnj Hnt Hnr Hnp Hnm Hnv] Hadd. unfold add_node in Hadd.
  destruct (Dict.contains name (nodes wn)) eqn:Hc; [discriminate|].
  injection Hadd as <-. constructor; project; rewrite ?(set_new _ _ _ Hc);
    try assumption.
  - now apply NoDup_keys_app.
  - unfold Dict.keys. rewrite map_app. cbn. now f_equal.
  - intros k l Hin. destruct (Hep k l Hin). split; now apply contains_app.
  - rewrite count_app. now f_equal.
  - rewrite count_app. now f_equal.
  - rewrite count_app. now f_equal.
Qed.

Lemma add_curve_consistent : forall wn name kind pts wn',
  consistent wn -> add_curve wn name kind pts = Success wn' -> consistent wn'.
Proof.
  intros wn name kind pts wn' 
    [Hnu Hlu Hgn Hge Hcv Hep Hnj Hnt Hnr Hnp Hnm Hnv] Hadd. unfold add_curve in Hadd.
  destruct (Dict.contains name (curves wn)); [discriminate|].
  injection Hadd as <-. constructor; assumption.
Qed.

Lemma add_link_success : forall wn name l wn',
  add_link wn name l = Success wn' ->
  Dict.contains name (links wn) = false
  /\ Dict.contains (start_of l) (nodes wn) = true
  /\ Dict.contains (end_of l) (nodes wn) = true
  /\ nodes wn' = nodes wn
  /\ links wn' = links wn ++ [(name, l)]
  /\ check_valves wn'
     = (if is_cv l then check_valves wn ++ [name] else check_valves wn).
Proof.
  intros wn name l wn'. unfold add_link.
  destruct (Dict.contains name (links wn)) eqn:Hc; [discriminate|].
  destruct (Dict.contains (start_of l) (nodes wn)); [|discriminate].
  destruct (Dict.contains (end_of l) (nodes wn)); [|discriminate].
  cbn [andb negb]. intros [= <-]. cbn. rewrite (set_new _ _ _ Hc). repeat split.
Qed.

Lemma add_link_consistent : forall wn name l wn',
  consistent wn -> add_link wn name l = Success wn' -> consistent wn'.
Proof.
  intros wn name l wn' 
    [Hnu Hlu Hgn Hge Hcv Hep Hnj Hnt Hnr Hnp Hnm Hnv] Hadd.
  destruct (add_link_success wn name l wn' Hadd) as (Hc & Hs & He & _).
  unfold add_link in Hadd. rewrite Hc, Hs, He in Hadd. cbn [andb negb] in Hadd.
  injection Hadd as <-. constructor; project; rewrite ?(set_new _ _ _ Hc);
    try assumption.
  - now apply NoDup_keys_app.
  - rewrite map_app. cbn. now f_equal.
  - rewrite filter_app. unfold Dict.keys. rewrite map_app. cbn [filter snd].
    destruct (is_cv l); cbn [map fst].
    + now f_equal.
    + now rewrite app_nil_r.
  - intros k l' Hin. apply in_app_or in Hin. destruct Hin as [Hin|[[= <- <-]|[]]].
    + exact (Hep k l' Hin).
    + now split.
  - rewrite count_app. now f_equal.
  - rewrite count_app. now f_equal.
  - rewrite count_app. now f_equal.
Qed.

Lemma remove_pipe_success : forall wn name wn',
  remove_pipe wn name = Success wn' ->
  (exists l, Dict.get name (links wn) = Some l /\ is_pipe l = true)
  /\ links wn' = Dict.remove name (links wn)
  /\ check_valves wn'
     = filter (fun n => negb (String.eqb n name)) (check_valves wn).
Proof.
  intros wn name wn'. unfold remove_pipe.
  destruct (Dict.get name (links wn)) as [[n s e len d r m st| |]|]; try discriminate.
  intros [= <-]. cbn. repeat split. eexists. split; reflexivity.
Qed.

Lemma keys_filter_names : forall (q : link -> bool) (d : Dict.t link) name,
  Dict.keys
    (filter (fun entry => q (snd entry))
       (filter (fun entry => negb (String.eqb (fst entry) name)) d))
  = filter (fun n => negb (String.eqb n name))
      (Dict.keys (filter (fun entry => q (snd entry)) d)).
Proof.
  intros q d name. unfold Dict.keys.
  induction d as [|[k w] d IH]; [reflexivity|].
  cbn [filter fst snd].
  destruct (String.eqb k name) eqn:Hk; destruct (q w) eqn:Hq;
    repeat (cbn [negb filter map fst snd]; rewrite ?Hk, ?Hq);
    rewrite IH; reflexivity.
Qed.

Lemma edges_filter_names : forall (d : Dict.t link) name,
  map edge_of (filter (fun entry => negb (String.eqb (fst entry) name)) d)
  = filter (fun e => negb (String.eqb (edge_name e) name)) (map edge_of d).
Proof.
  intros d name. induction d as [|[k w] d IH]; [reflexivity|].
  cbn [filter map fst]. unfold edge_name at 1, edge_of at 2. cbn [snd fst].
  destruct (String.eqb k name); cbn [negb map]; rewrite IH; reflexivity.
Qed.

Lemma remove_pipe_consistent : forall wn name wn',
  consistent wn -> remove_pipe wn name = Success wn' -> consistent wn'.
Proof.
  intros wn name wn' 
    [Hnu Hlu Hgn Hge Hcv Hep Hnj Hnt Hnr Hnp Hnm Hnv] Hrem. unfold remove_pipe in Hrem.
  destruct (Dict.get name (links wn)) as [[n s e len d r m st| |]|] eqn:Hget;
    try discriminate.
  injection Hrem as <-.
  pose proof (remove_as_filter (links wn) name Hlu) as Hfilter.
  constructor; project; try assumption.
  - rewrite Hfilter. now apply NoDup_keys_filter.
  - rewrite Hfilter, edges_filter_names. now f_equal.
  - rewrite Hfilter, keys_filter_names. now f_equal.
  - intros k l Hin. rewrite Hfilter in Hin. apply filter_In in Hin.
    destruct Hin as [Hin _]. exact (Hep k l Hin).
  - rewrite Hnp, (count_remove is_pipe _ _ _ Hget). cbn. lia.
  - rewrite Hnm, (count_remove is_pump _ _ _ Hget). cbn. lia.
  - rewrite Hnv, (count_remove is_valve _ _ _ Hget). cbn. lia.
Qed.

Section RunFacts.
Variable solve_three_points : Q * Q -> Q * Q -> Q * Q -> res (Q * Q * Q).

Lemma perform_consistent : forall wn c wn',
  consistent wn -> perform solve_three_points wn c = Success wn' -> consistent wn'.
Proof.
  intros wn c wn' Hwn. destruct c; cbn [perform].
  - apply add_node_consistent; assumption.
  - apply add_node_consistent; assumption.
  - apply add_node_consistent; assumption.
  - apply add_curve_consistent; assumption.
  - unfold add_pipe. destruct (normalize_status status_word); [|discriminate].
    apply add_link_consistent; assumption.
  - unfold add_pump. destruct arg as [c|p].
    + destruct (head_curve_coefficients solve_three_points c); [|discriminate].
      apply add_link_consistent; assumption.
    + apply add_link_consistent; assumption.
  - apply add_link_consistent; assumption.
  - apply remove_pipe_consistent; assumption.
Qed.

Lemma after_consistent : forall wn c,
  consistent wn -> consistent (after solve_three_points wn c).
Proof.
  intros wn c Hwn. unfold after.
  destruct (perform solve_three_points wn c) as [wn'|] eqn:Hp; [|assumption].
  now apply (perform_consistent wn c).
Qed.

(** Every model reached from the empty one through the facade is
    consistent. *)
Lemma run_calls_consistent : forall cs, consistent (run_calls solve_three_points cs).
Proof.
  intros cs. unfold run_calls.
  assert (H : forall wn, consistent wn ->
            consistent (fold_left (after solve_three_points) cs wn)).
  { induction cs as [|c cs IH]; intros wn Hwn; cbn; [assumption|].
    apply IH. now apply after_consistent. }
  apply H, consistent_empty.
Qed.

End RunFacts.

(** *** Check valves *)

Lemma normalize_cv : forall word, upper word = "CV" -> normalize_status word = Success CV.
Proof.
  intros word H. unfold normalize_status. rewrite H. reflexivity.
Qed.

Lemma in_filtered_keys : forall (q : link -> bool) (d : Dict.t link) name,
  NoDup (Dict.keys d) ->
  (In name (Dict.keys (filter (fun entry => q (snd entry)) d))
   <-> exists l, Dict.get name d = Some l /\ q l = true).
Proof.
  intros q d name Hnd. unfold Dict.keys. rewrite in_map_iff. split.
  - intros [[k l] [Hk Hin]]. cbn in Hk. subst k. apply filter_In in Hin.
    destruct Hin as [Hin Hq]. exists l. split; [now apply in_get | exact Hq].
  - intros [l [Hget Hq]]. exists (name, l). split; [reflexivity|].
    apply filter_In. split; [now apply get_in | exact Hq].
Qed.

Lemma not_in_filtered : forall (names : list string) name,
  ~ In name (filter (fun n => negb (String.eqb n name)) names).
Proof.
  intros names name Hin. apply filter_In in Hin. destruct Hin as [_ H].
  now rewrite String.eqb_refl in H.
Qed.

Section ClaimFacts.
Variable solve_three_points : Q * Q -> Q * Q -> Q * Q -> res (Q * Q * Q).

(** C7: in every model built through the facade, the check-valve set is
    exactly the set of registered pipe names whose status is CV.  A
    successful [add_pipe] with the status word "cv", in any letter case, puts
    the pipe's name in the set, and a successful [remove_pipe] of a name
    leaves the set without it. *)
Theorem check_valves_are_the_cv_pipes :
  forall (cs : list call),
    let wn := run_calls solve_three_points cs in
    (forall name, In name (check_valves wn)
                  <-> exists l, Dict.get name (links wn) = Some l /\ is_cv l = true)
    /\ NoDup (check_valves wn)
    /\ (forall name s e len d r m word wn',
          upper word = "CV" ->
          add_pipe wn name s e len d r m word = Success wn' ->
          In name (check_valves wn')
          /\ exists wn'', remove_pipe wn' name = Success wn''
                          /\ ~ In name (check_valves wn''))
    /\ (forall name wn',
          remove_pipe wn name = Success wn' -> ~ In name (check_valves wn')).
Proof.
  intros cs wn.
  pose proof (run_calls_consistent solve_three_points cs) as Hwn. fold wn in Hwn.
  split; [|split; [|split]].
  - intros name. rewrite (check_valves_ok wn Hwn).
    apply in_filtered_keys, (links_unique wn Hwn).
  - rewrite (check_valves_ok wn Hwn).
    apply NoDup_keys_filter, (links_unique wn Hwn).
  - intros name s e len d r m word wn' Hword Hadd.
    unfold add_pipe in Hadd. rewrite (normalize_cv word Hword) in Hadd.
    destruct (add_link_success _ _ _ _ Hadd) as (Hc & _ & _ & _ & Hlinks & Hcv).
    cbn [is_cv] in Hcv. split.
    + rewrite Hcv. apply in_or_app. right. now left.
    + unfold remove_pipe. rewrite Hlinks, get_app_new.
      unfold Dict.contains in Hc.
      destruct (Dict.get name (links wn)); [discriminate|].
      rewrite String.eqb_refl. eexists. split; [reflexivity|].
      project. apply not_in_filtered.
  - intros name wn' Hrem.
    destruct (remove_pipe_success _ _ _ Hrem) as (_ & _ & Hcv).
    rewrite Hcv. apply not_in_filtered.
Qed.

(** C8: a successful [add_junction(name, demand, pattern, elevation)] on a
    model built through the facade stores a junction of that name whose
    pattern is the one given and whose base demand and elevation are the
    given numbers as floats; the topology graph has the vertex [name] and no
    edge that leaves or enters it. *)
Theorem add_junction_registers_isolated_vertex :
  forall (cs : list call) (name : string) (demand : number)
         (pattern : option string) (elevation : number) (wn' : WaterNetworkModel),
    add_junction (run_calls solve_three_points cs) name demand pattern elevation
    = Success wn' ->
    get_node wn' name
    = Success (Junction name (to_float elevation) (to_float demand) pattern)
    /\ In name (graph_nodes wn')
    /\ (forall e, In e (graph_edges wn') -> edge_start e <> name /\ edge_end e <> name)
    /\ get_links_for_node wn' name = [].
Proof.
  intros cs name demand pattern elevation wn' Hadd.
  pose proof (run_calls_consistent solve_three_points cs) as Hwn.
  set (wn := run_calls solve_three_points cs) in *.
  unfold add_junction in Hadd.
  destruct (add_node_success _ _ _ _ Hadd) as (Hc & Hnodes & Hlinks & _ & Hgn & Hge).
  assert (Hedges : forall e, In e (graph_edges wn') ->
            edge_start e <> name /\ edge_end e <> name).
  { intros e He. rewrite Hge, (graph_edges_ok wn Hwn) in He.
    apply in_map_iff in He. destruct He as [[k l] [<- Hin]].
    destruct (endpoints_ok wn Hwn k l Hin) as [Hs He].
    unfold edge_start, edge_end, edge_of. cbn [fst snd].
    split; intros Heq; rewrite Heq in *; congruence. }
  split; [|split; [|split]].
  - unfold get_node, lookup. rewrite Hnodes, get_app_new.
    unfold Dict.contains in Hc. destruct (Dict.get name (nodes wn)); [discriminate|].
    now rewrite String.eqb_refl.
  - rewrite Hgn. apply in_or_app. right. now left.
  - exact Hedges.
  - unfold get_links_for_node.
    assert (Hnone : forall es, (forall e, In e es ->
              edge_start e <> name /\ edge_end e <> name) ->
              filter (fun e => String.eqb (edge_start e) name
                               || String.eqb (edge_end e) name) es = []).
    { induction es as [|e es IH]; intros Hes; [reflexivity|]. cbn [filter].
      destruct (Hes e (or_introl eq_refl)) as [Hs He].
      apply String.eqb_neq in Hs, He. rewrite Hs, He. cbn [orb].
      apply IH. intros e' He'. apply Hes. now right. }
    now rewrite (Hnone _ Hedges).
Qed.

(** C9: in every model built through the facade, [get_links_for_node(name)]
    lists exactly the names of the links that have [name] as start node or
    as end node, whatever the direction of the stored edge, each name once. *)
Theorem get_links_for_node_incident_links :
  forall (cs : list call) (name : string),
    let wn := run_calls solve_three_points cs in
    (forall l, In l (get_links_for_node wn name)
               <-> exists lk, Dict.get l (links wn) = Some lk
                              /\ (start_of lk = name \/ end_of lk = name))
    /\ NoDup (get_links_for_node wn name).
Proof.
  intros cs name wn.
  pose proof (run_calls_consistent solve_three_points cs) as Hwn. fold wn in Hwn.
  assert (Hlist : get_links_for_node wn name
            = Dict.keys (filter (fun entry =>
                  String.eqb (start_of (snd entry)) name
                  || String.eqb (end_of (snd entry)) name) (links wn))).
  { unfold get_links_for_node. rewrite (graph_edges_ok wn Hwn). unfold Dict.keys.
    clear. induction (links wn) as [|[k l] d IH]; [reflexivity|].
    cbn [map filter]. unfold edge_start at 1, edge_end at 1, edge_of at 1 2.
    cbn [fst snd].
    destruct (String.eqb (start_of l) name || String.eqb (end_of l) name);
      cbn [map]; rewrite IH; reflexivity. }
  split.
  - intros l. rewrite Hlist.
    rewrite (in_filtered_keys
               (fun lk => String.eqb (start_of lk) name || String.eqb (end_of lk) name)
               (links wn) l (links_unique wn Hwn)).
    split; intros [lk [Hget H]]; exists lk; (split; [exact Hget|]).
    + apply orb_true_iff in H. destruct H as [H|H]; apply String.eqb_eq in H; auto.
    + apply orb_true_iff. destruct H as [H|H]; apply String.eqb_eq in H; auto.
  - rewrite Hlist. apply NoDup_keys_filter, (links_unique wn Hwn).
Qed.

(** C5: a pump added with a HEAD curve of one point [(q2, h2)], [q2 > 0]
    and [h2 > 0], carries coefficients [(a, b, c)] for which the three
    residuals [h_i - a + b * q_i ^ c] at the synthesized points
    [(0, 4/3 h2)], [(q2, h2)], [(2 q2, 0)] vanish, hence lie within the
    tolerance of the test. *)
Theorem one_point_head_curve_residuals :
  forall (wn : WaterNetworkModel) (name s e : string) (c : Curve) (q2 h2 : Q)
         (wn' : WaterNetworkModel),
    points c = [(q2, h2)] ->
    (0 < q2)%Q -> (0 < h2)%Q ->
    add_pump solve_three_points wn name s e (HeadArgument c) = Success wn' ->
    exists l abc r1 r2 r3,
      get_link wn' name = Success l
      /\ get_head_curve_coefficients l = Success abc
      /\ curve_fun (synthesized_points q2 h2) abc = Some (r1, r2, r3)
      /\ (r1 == 0 /\ r2 == 0 /\ r3 == 0)%Q
      /\ (Qabs r1 <= tolerance /\ Qabs r2 <= tolerance /\ Qabs r3 <= tolerance)%Q.
Proof.
  intros wn name s e c q2 h2 wn' Hpts Hq Hh Hadd.
  unfold add_pump, head_curve_coefficients in Hadd. rewrite Hpts in Hadd.
  destruct (add_link_success _ _ _ _ Hadd) as (Hc & _ & _ & _ & Hlinks & _).
  assert (Hq0 : ~ (q2 == 0)%Q) by (intros H0; rewrite H0 in Hq; discriminate Hq).
  assert (R1 : ((4 # 3) * h2 - (4 # 3) * h2
                + ((4 # 3) * h2 - h2) / (q2 ^ 2) * 0 ^ 2 == 0)%Q).
  { simpl. field. exact Hq0. }
  assert (R2 : (h2 - (4 # 3) * h2
                + ((4 # 3) * h2 - h2) / (q2 ^ 2) * q2 ^ 2 == 0)%Q).
  { simpl. field. exact Hq0. }
  assert (R3 : (0 - (4 # 3) * h2
                + ((4 # 3) * h2 - h2) / (q2 ^ 2) * (2 * q2) ^ 2 == 0)%Q).
  { simpl. field. exact Hq0. }
  eexists _, _, _, _, _. split; [|split; [|split; [|split]]].
  - unfold get_link, lookup. rewrite Hlinks, get_app_new.
    unfold Dict.contains in Hc. destruct (Dict.get name (links wn)); [discriminate|].
    rewrite String.eqb_refl. reflexivity.
  - reflexivity.
  - cbv [curve_fun synthesized_points solve_one_point float_pow
         Qden Qnum Pos.eqb negb Z.ltb Z.compare].
    rewrite !andb_false_r. reflexivity.
  - split; [exact R1 | split; [exact R2 | exact R3]].
  - rewrite R1, R2, R3. repeat split; discriminate.
Qed.

End ClaimFacts.

(** *** The scenarios of the tests *)

(** test_add_junction *)
Example test_add_junction :
  exists wn,
    add_junction empty "j1" (Int 150) (Some "pattern1") (Int 15) = Success wn
    /\ get_node wn "j1"
       = Success (Junction "j1" (inject_Z 15) (inject_Z 150) (Some "pattern1"))
    /\ graph_nodes wn = ["j1"] /\ graph_edges wn = [].
Proof. eexists. repeat split. Qed.

(** test_add_pipe_with_cv *)
Example test_add_pipe_with_cv :
  check_valves
    (run_calls no_solver (junctions ["j1"; "j2"] ++ [plain_pipe "p1" "j1" "j2" "cv"]))
  = ["p1"].
Proof. reflexivity. Qed.

(** test_remove_pipe *)
Example test_remove_pipe :
  let wn := run_calls no_solver
              (junctions ["j1"; "j2"; "j3"]
               ++ [plain_pipe "p2" "j1" "j3" "OPEN"; plain_pipe "p1" "j1" "j2" "cv";
                   RemovePipe "p1"]) in
  Dict.keys (links wn) = ["p2"]
  /\ check_valves wn = []
  /\ num_pipes wn = 1%nat
  /\ graph_edges wn = [("j1", "j3", "p2")].
Proof. repeat split. Qed.

(** test_get_links_for_node *)
Example test_get_links_for_node :
  let wn := run_calls no_solver
              (junctions ["j1"; "j2"; "j3"; "j4"; "j5"]
               ++ [plain_pipe "p1" "j1" "j2" "OPEN"; plain_pipe "p2" "j1" "j4" "OPEN";
                   plain_pipe "p3" "j1" "j5" "OPEN"; plain_pipe "p4" "j3" "j2" "OPEN"]) in
  get_links_for_node wn "j1" = ["p1"; "p2"; "p3"]
  /\ get_links_for_node wn "j2" = ["p1"; "p4"]
  /\ get_links_for_node wn "j3" = ["p4"]
  /\ get_links_for_node wn "j4" = ["p2"]
  /\ get_links_for_node wn "j5" = ["p3"].
Proof. repeat split. Qed.

(** test_1_pt_head_curve: the coefficients for [(10, 20)] are
    [(80/3, 1/15, 2)], and the three residuals are zero. *)
Example test_1_pt_head_curve :
  (let '(a, b, c) := solve_one_point 10 20 in
   a == 80 # 3 /\ b == 1 # 15 /\ c == 2)%Q
  /\ exists r1 r2 r3,
       curve_fun (synthesized_points 10 20) (solve_one_point 10 20) = Some (r1, r2, r3)
       /\ (r1 == 0 /\ r2 == 0 /\ r3 == 0)%Q.
Proof.
  split; [repeat split|].
  eexists _, _, _. split; [reflexivity|]. repeat split.
Qed.

Lemma check_valves_are_the_cv_pipes_witness :
  exists wn',
    upper "Cv" = "CV"
    /\ add_pipe (run_calls no_solver (junctions ["j1"; "j2"])) "p1" "j1" "j2"
         (Int 1000) (Int 1) (Int 100) (Int 0) "Cv" = Success wn'
    /\ In "p1" (check_valves wn')
    /\ exists wn'', remove_pipe wn' "p1" = Success wn''
                    /\ ~ In "p1" (check_valves wn'').
Proof.
  eexists. split; [reflexivity|]. split; [reflexivity|].
  pose proof (check_valves_are_the_cv_pipes no_solver (junctions ["j1"; "j2"])) as H.
  cbv zeta in H. destruct H as (_ & _ & H & _).
  apply (H "p1" "j1" "j2" (Int 1000) (Int 1) (Int 100) (Int 0) "Cv");
    reflexivity.
Defined.

Lemma add_junction_registers_isolated_vertex_witness :
  exists wn',
    add_junction
      (run_calls no_solver (junctions ["j1"; "j2"] ++ [plain_pipe "p1" "j1" "j2" "OPEN"]))
      "j3" (Int 150) (Some "pattern1") (Int 15) = Success wn'
    /\ get_node wn' "j3"
       = Success (Junction "j3" (to_float (Int 15)) (to_float (Int 150)) (Some "pattern1"))
    /\ In "j3" (graph_nodes wn')
    /\ (forall e, In e (graph_edges wn') -> edge_start e <> "j3" /\ edge_end e <> "j3")
    /\ get_links_for_node wn' "j3" = [].
Proof.
  eexists. split; [reflexivity|].
  apply (add_junction_registers_isolated_vertex no_solver
           (junctions ["j1"; "j2"] ++ [plain_pipe "p1" "j1" "j2" "OPEN"])
           "j3" (Int 150) (Some "pattern1") (Int 15)).
  reflexivity.
Defined.

Lemma one_point_head_curve_residuals_witness :
  let curve := mkCurve "curve1" HEAD [(10, 20)%Q] in
  exists wn',
    points curve = [(10, 20)%Q]
    /\ (0 < 10)%Q /\ (0 < 20)%Q
    /\ add_pump no_solver (run_calls no_solver (junctions ["j1"; "j2"]))
         "p1" "j1" "j2" (HeadArgument curve) = Success wn'
    /\ exists l abc r1 r2 r3,
         get_link wn' "p1" = Success l
         /\ get_head_curve_coefficients l = Success abc
         /\ curve_fun (synthesized_points 10 20) abc = Some (r1, r2, r3)
         /\ (r1 == 0 /\ r2 == 0 /\ r3 == 0)%Q
         /\ (Qabs r1 <= tolerance /\ Qabs r2 <= tolerance /\ Qabs r3 <= tolerance)%Q.
Proof.
  intros curve. eexists.
  split; [reflexivity|]. split; [reflexivity|]. split; [reflexivity|].
  split; [reflexivity|].
  apply (one_point_head_curve_residuals no_solver
           (run_calls no_solver (junctions ["j1"; "j2"]))
           "p1" "j1" "j2" curve 10 20); reflexivity.
Defined.

End NetworkFacts.

(** * Further properties of results.py *)

(** ** Loops that build a dictionary *)

Lemma contains_app_new : forall (d : Dict.t DataFrame) key k v,
  key <> k -> Dict.contains key d = false ->
  Dict.contains key (d ++ [(k, v)]) = false.
Proof.
  intros d key k v Hne Hc. unfold Dict.contains in *. rewrite get_app_new.
  destruct (Dict.get key d); [discriminate|].
  apply String.eqb_neq in Hne. now rewrite Hne.
Qed.

(** A loop over the keys of [d] whose iteration for a key sets the key in the
    dictionary under construction, skips it or raises, as [g] says, builds
    the dictionary that [collect g] describes. *)
Lemma collect_loop :
  forall (g : string -> DataFrame -> result (option DataFrame))
         (body : string -> Dict.t DataFrame -> outcome (Dict.t DataFrame))
         (d : Dict.t DataFrame),
    NoDup (Dict.keys d) ->
    (forall key a new,
       Dict.get key d = Some a ->
       body key new
       = match g key a with
         | Ok (Some b) => Done (Dict.set key b new)
         | Ok None => Done new
         | Raise e => Raised e new
         end) ->
    run (for_each (Dict.keys d) body Dict.empty) = collect g d.
Proof.
  intros g body d Hnd Hbody.
  assert (H : forall suf new,
            (forall k a, In (k, a) suf -> Dict.get k d = Some a) ->
            NoDup (Dict.keys suf) ->
            (forall k, In k (Dict.keys suf) -> Dict.contains k new = false) ->
            run (for_each (Dict.keys suf) body new)
            = match collect g suf with
              | Ok rest => Ok (new ++ rest)
              | Raise e => Raise e
              end).
  { induction suf as [|[k a] suf IH]; intros new Hin Hsuf Hnew.
    - cbn. now rewrite app_nil_r.
    - inversion Hsuf as [|? ? Hnot Hsuf']; subst.
      cbn [Dict.keys map fst for_each collect].
      rewrite (Hbody k a new) by (apply Hin; now left).
      assert (Hin' : forall k' a', In (k', a') suf -> Dict.get k' d = Some a')
        by (intros k' a' H'; apply Hin; now right).
      destruct (g k a) as [[b|]|e]; [| |reflexivity].
      + rewrite (set_new new k b) by (apply Hnew; now left).
        fold (Dict.keys suf). rewrite (IH (new ++ [(k, b)]) Hin' Hsuf').
        * destruct (collect g suf) as [rest|e]; [|reflexivity].
          now rewrite <- app_assoc.
        * intros k' Hk'. apply contains_app_new.
          -- intros ->. exact (Hnot Hk').
          -- apply Hnew. now right.
      + fold (Dict.keys suf). rewrite (IH new Hin' Hsuf').
        * now destruct (collect g suf).
        * intros k' Hk'. apply Hnew. now right. }
  rewrite (H d Dict.empty).
  - now destruct (collect g d).
  - intros k a. now apply in_get.
  - exact Hnd.
  - reflexivity.
Qed.

Lemma collect_total : forall (h : DataFrame -> DataFrame) (d : Dict.t DataFrame),
  collect (fun _ a => Ok (Some (h a))) d = Ok (map_values h d).
Proof.
  intros h. induction d as [|[k a] d IH]; cbn; [reflexivity|].
  now rewrite IH.
Qed.

Lemma collect_common : forall op (la lb : Dict.t DataFrame),
  collect (fun key a => Ok (option_map (op a) (Dict.get key lb))) la
  = Ok (common op la lb).
Proof.
  intros op la lb. induction la as [|[k a] la IH]; cbn; [reflexivity|].
  unfold common in IH. rewrite IH.
  now destruct (Dict.get k lb).
Qed.

(** The error of the first frame that raises ends the collection. *)
Lemma collect_first_raise :
  forall (f : DataFrame -> result DataFrame) (pre post : Dict.t DataFrame) k a e,
    (forall k' a', In (k', a') pre -> exists b, f a' = Ok b) ->
    f a = Raise e ->
    collect (fun _ a => match f a with Ok b => Ok (Some b) | Raise e => Raise e end)
      (pre ++ (k, a) :: post) = Raise e.
Proof.
  intros f pre post k a e. induction pre as [|[k' a'] pre IH]; intros Hpre Hf; cbn.
  - now rewrite Hf.
  - destruct (Hpre k' a' (or_introl eq_refl)) as [b Hb]. rewrite Hb.
    rewrite IH; [reflexivity | | assumption].
    intros k'' a'' H. apply (Hpre k'' a''). now right.
Qed.

Lemma collect_all_ok :
  forall (f : DataFrame -> result DataFrame) (p : DataFrame -> DataFrame)
         (d : Dict.t DataFrame),
    (forall k a, In (k, a) d -> f a = Ok (p a)) ->
    collect (fun _ a => match f a with Ok b => Ok (Some b) | Raise e => Raise e end) d
    = Ok (map_values p d).
Proof.
  intros f p. induction d as [|[k a] d IH]; intros Hd; cbn; [reflexivity|].
  rewrite (Hd k a (or_introl eq_refl)), IH; [reflexivity|].
  intros k' a' H. apply (Hd k' a'). now right.
Qed.

Lemma elementwise_common : forall op (la lb : Dict.t DataFrame),
  NoDup (Dict.keys la) ->
  elementwise op (Some la) (Some lb) = Ok (common op la lb).
Proof.
  intros op la lb Hnd. unfold elementwise. cbn [keys_of bind].
  rewrite (collect_loop (fun key a => Ok (option_map (op a) (Dict.get key lb))) _ la Hnd).
  - apply collect_common.
  - intros key a new Ha. cbn [in_ try subscript]. unfold Dict.contains, Dict.getitem.
    rewrite Ha. destruct (Dict.get key lb); reflexivity.
Qed.

Lemma mapwise_collect : forall (f : DataFrame -> result DataFrame) (d : Dict.t DataFrame),
  NoDup (Dict.keys d) ->
  mapwise f (Some d)
  = collect (fun _ a => match f a with Ok b => Ok (Some b) | Raise e => Raise e end) d.
Proof.
  intros f d Hnd. unfold mapwise. cbn [keys_of bind].
  apply collect_loop; [exact Hnd|].
  intros key a new Ha. cbn [subscript]. unfold Dict.getitem. rewrite Ha. cbn [try].
  destruct (f a); reflexivity.
Qed.

Lemma mapwise_total : forall (h : DataFrame -> DataFrame) (d : Dict.t DataFrame),
  NoDup (Dict.keys d) ->
  mapwise (fun a => Ok (h a)) (Some d) = Ok (map_values h d).
Proof.
  intros h d Hnd. rewrite (mapwise_collect _ d Hnd). apply collect_total.
Qed.

Lemma scalarwise_total : forall df_div_int n (d : Dict.t DataFrame),
  NoDup (Dict.keys d) ->
  scalarwise df_div_int n (Some d) = Ok (map_values (fun a => df_div_int a n) d).
Proof.
  intros df_div_int n d Hnd.
  exact (mapwise_total (fun a => df_div_int a n) d Hnd).
Qed.

Lemma keys_map_values : forall g (d : Dict.t DataFrame),
  Dict.keys (map_values g d) = Dict.keys d.
Proof.
  intros g d. unfold Dict.keys, map_values. rewrite map_map. reflexivity.
Qed.

Lemma get_map_values : forall g (d : Dict.t DataFrame) key,
  Dict.get key (map_values g d) = option_map g (Dict.get key d).
Proof.
  intros g. induction d as [|[k a] d IH]; intros key; cbn; [reflexivity|].
  destruct (String.eqb key k); [reflexivity | apply IH].
Qed.

Lemma keys_common : forall op (la lb : Dict.t DataFrame),
  Dict.keys (common op la lb)
  = filter (fun key => Dict.contains key lb) (Dict.keys la).
Proof.
  intros op la lb. unfold common, Dict.keys.
  induction la as [|[k a] la IH]; [reflexivity|].
  cbn [flat_map map filter fst snd]. rewrite map_app, IH.
  unfold Dict.contains. destruct (Dict.get k lb); reflexivity.
Qed.

Lemma NoDup_filter_keys : forall (q : string -> bool) (ks : list string),
  NoDup ks -> NoDup (filter q ks).
Proof.
  intros q. induction ks as [|k ks IH]; intros H; cbn; [constructor|].
  inversion H as [|? ? Hnot Hnd]; subst.
  destruct (q k); [constructor|]; auto.
  intros Hin. apply filter_In in Hin. tauto.
Qed.

Lemma get_common : forall op (la lb : Dict.t DataFrame) key,
  NoDup (Dict.keys la) ->
  Dict.get key (common op la lb) = pairwise op la lb key.
Proof.
  intros op la lb key. unfold pairwise.
  induction la as [|[k a] la IH]; intros Hnd; [reflexivity|].
  inversion Hnd as [|? ? Hnot Hnd']; subst.
  cbn [common flat_map fst snd Dict.get].
  destruct (String.eqb_spec key k) as [->|Hne].
  - destruct (Dict.get k lb) as [b|] eqn:Hb; cbn [app Dict.get].
    + now rewrite String.eqb_refl.
    + fold (common op la lb). rewrite (IH Hnd').
      apply not_contains_keys in Hnot. unfold Dict.contains in Hnot.
      now destruct (Dict.get k la).
  - destruct (Dict.get k lb) as [b|]; cbn [app Dict.get].
    + apply String.eqb_neq in Hne. rewrite Hne. exact (IH Hnd').
    + exact (IH Hnd').
Qed.

(** ** The operators: what they return, key by key and in which order *)

Section OperatorResults.
Variables df_add df_sub df_div : DataFrame -> DataFrame -> DataFrame.
Variable df_div_int : DataFrame -> Z -> DataFrame.
Variables df_abs df_neg df_pos : DataFrame -> DataFrame.
Variables exponent modulus : Type.
Variable str_exponent : exponent -> string.
Variable df_pow : DataFrame -> exponent -> option modulus -> result DataFrame.
Variable now : string.

Lemma binary_common (op : DataFrame -> DataFrame -> DataFrame) (name : string)
    (self other : SimulationResults) (la lb na nb : Dict.t DataFrame) :
  link self = Some la -> link other = Some lb ->
  node self = Some na -> node other = Some nb ->
  NoDup (Dict.keys la) -> NoDup (Dict.keys na) ->
  (new_link <- elementwise op (link self) (link other) ;;
   new_node <- elementwise op (node self) (node other) ;;
   Ok (with_dicts (__init__ now) name new_link new_node))
  = Ok (mkResults now (Some name) 0
          (Some (common op la lb)) (Some (common op na nb))).
Proof.
  intros Hla Hlb Hna Hnb Hndl Hndn. rewrite Hla, Hlb, Hna, Hnb.
  rewrite (elementwise_common op la lb Hndl), (elementwise_common op na nb Hndn).
  reflexivity.
Qed.

(** X1: [A + B], [A - B] and [A / B] return a fresh object, stamped with the
    time of its construction and with simulation time 0, whose name is made
    of the names and timestamps of the operands around the operator sign,
    and whose dictionaries list the keys common to both operands in the
    order of the left operand. *)
Theorem binary_operators_return_common_in_order :
  forall (self other : SimulationResults) (la lb na nb : Dict.t DataFrame),
    link self = Some la -> link other = Some lb ->
    node self = Some na -> node other = Some nb ->
    NoDup (Dict.keys la) -> NoDup (Dict.keys na) ->
    __add__ df_add now self (PyResults other)
    = Ok (mkResults now (Some (binary_name " + " self other)) 0
            (Some (common df_add la lb)) (Some (common df_add na nb)))
    /\ __sub__ df_sub now self (PyResults other)
       = Ok (mkResults now (Some (binary_name " - " self other)) 0
               (Some (common df_sub la lb)) (Some (common df_sub na nb)))
    /\ __truediv__ df_div df_div_int now self (PyResults other)
       = Ok (mkResults now (Some (binary_name " / " self other)) 0
               (Some (common df_div la lb)) (Some (common df_div na nb)))
    /\ (forall op, Dict.keys (common op la lb)
                   = filter (fun key => Dict.contains key lb) (Dict.keys la)).
Proof.
  intros self other la lb na nb Hla Hlb Hna Hnb Hndl Hndn.
  repeat split; cbn [__add__ __sub__ __truediv__];
    try (eapply binary_common; eassumption).
  intros op. apply keys_common.
Qed.

Lemma unary_total (h : DataFrame -> DataFrame) (name : string)
    (self : SimulationResults) (la na : Dict.t DataFrame) :
  link self = Some la -> node self = Some na ->
  NoDup (Dict.keys la) -> NoDup (Dict.keys na) ->
  (new_link <- mapwise (fun a => Ok (h a)) (link self) ;;
   new_node <- mapwise (fun a => Ok (h a)) (node self) ;;
   Ok (with_dicts (__init__ now) name new_link new_node))
  = Ok (mkResults now (Some name) 0
          (Some (map_values h la)) (Some (map_values h na))).
Proof.
  intros Hla Hna Hndl Hndn. rewrite Hla, Hna.
  rewrite (mapwise_total h la Hndl), (mapwise_total h na Hndn). reflexivity.
Qed.

(** X2: dividing by an integer that fits in 64 bits, [A / n], does not
    raise on a populated object, zero included (the division is pandas');
    the result has the keys of [A] in the same order, every frame divided
    by [n], and a [bool] divisor counts as 1 or 0.  (An integer too large
    for a float makes pandas raise; the bound keeps clear of that.) *)
Theorem scalar_division_maps_every_frame :
  forall (self : SimulationResults) (la na : Dict.t DataFrame) (n : Z) (b : bool),
    link self = Some la -> node self = Some na ->
    NoDup (Dict.keys la) -> NoDup (Dict.keys na) ->
    int64 n ->
    __truediv__ df_div df_div_int now self (PyInt n)
    = Ok (mkResults now
            (Some (str_name (network_name self) ++ "[" ++ timestamp self
                   ++ "] / " ++ str_int n)%string) 0
            (Some (map_values (fun a => df_div_int a n) la))
            (Some (map_values (fun a => df_div_int a n) na)))
    /\ exists new,
         __truediv__ df_div df_div_int now self (PyBool b) = Ok new
         /\ link new = Some (map_values (fun a => df_div_int a (if b then 1 else 0)) la)
         /\ node new = Some (map_values (fun a => df_div_int a (if b then 1 else 0)) na).
Proof.
  intros self la na n b Hla Hna Hndl Hndn _. split.
  - cbn [__truediv__ int_value]. rewrite Hla, Hna.
    rewrite (scalarwise_total df_div_int n la Hndl),
      (scalarwise_total df_div_int n na Hndn). reflexivity.
  - destruct b; cbn [__truediv__ int_value]; rewrite Hla, Hna.
    + rewrite (scalarwise_total df_div_int 1 la Hndl),
        (scalarwise_total df_div_int 1 na Hndn).
      eexists. repeat split.
    + rewrite (scalarwise_total df_div_int 0 la Hndl),
        (scalarwise_total df_div_int 0 na Hndn).
      eexists. repeat split.
Qed.

(** X3: [abs(A)], [-A] and [+A] return a fresh object with the keys of [A]
    in the same order and every frame replaced by its absolute value, its
    negative or its positive; the name wraps the name and timestamp of [A]
    in the operator's signs. *)
Theorem unary_operators_map_every_frame :
  forall (self : SimulationResults) (la na : Dict.t DataFrame),
    link self = Some la -> node self = Some na ->
    NoDup (Dict.keys la) -> NoDup (Dict.keys na) ->
    __abs__ df_abs now self
    = Ok (mkResults now (Some (unary_name "|" "|" self)) 0
            (Some (map_values df_abs la)) (Some (map_values df_abs na)))
    /\ __neg__ df_neg now self
       = Ok (mkResults now (Some (unary_name "-" "" self)) 0
               (Some (map_values df_neg la)) (Some (map_values df_neg na)))
    /\ __pos__ df_pos now self
       = Ok (mkResults now (Some (unary_name "+" "" self)) 0
               (Some (map_values df_pos la)) (Some (map_values df_pos na))).
Proof.
  intros self la na Hla Hna Hndl Hndn.
  repeat split; cbn [__abs__ __neg__ __pos__]; now apply unary_total.
Qed.

(** X4: [A ** p] (or [pow(A, p, m)]) raises what pandas raises for the first
    frame it cannot raise to the power, link frames in dictionary order
    before node frames; when pandas accepts every frame the result has the
    keys of [A] in the same order, every frame raised to the power. *)
Theorem pow_maps_or_raises_first :
  forall (self : SimulationResults) (la na : Dict.t DataFrame)
         (exp : exponent) (m : option modulus),
    link self = Some la -> node self = Some na ->
    NoDup (Dict.keys la) -> NoDup (Dict.keys na) ->
    (forall p : DataFrame -> DataFrame,
       (forall k a, In (k, a) (la ++ na) -> df_pow a exp m = Ok (p a)) ->
       __pow__ exponent modulus str_exponent df_pow now self exp m
       = Ok (mkResults now
               (Some (unary_name "" (" ** " ++ str_exponent exp) self)) 0
               (Some (map_values p la)) (Some (map_values p na))))
    /\ (forall pre post k a e,
          la = pre ++ (k, a) :: post ->
          (forall k' a', In (k', a') pre -> exists b, df_pow a' exp m = Ok b) ->
          df_pow a exp m = Raise e ->
          __pow__ exponent modulus str_exponent df_pow now self exp m = Raise e)
    /\ (forall pre post k a e,
          na = pre ++ (k, a) :: post ->
          (forall k' a', In (k', a') (la ++ pre) -> exists b, df_pow a' exp m = Ok b) ->
          df_pow a exp m = Raise e ->
          __pow__ exponent modulus str_exponent df_pow now self exp m = Raise e).
Proof.
  intros self la na exp m Hla Hna Hndl Hndn.
  unfold __pow__. rewrite Hla, Hna.
  rewrite (mapwise_collect _ la Hndl), (mapwise_collect _ na Hndn).
  split; [|split].
  - intros p Hp.
    rewrite (collect_all_ok _ p la), (collect_all_ok _ p na); [reflexivity| |].
    + intros k a H. apply (Hp k a), in_or_app. now right.
    + intros k a H. apply (Hp k a), in_or_app. now left.
  - intros pre post k a e -> Hpre Ha.
    now rewrite (collect_first_raise _ pre post k a e Hpre Ha).
  - intros pre post k a e -> Hpre Ha.
    assert (Hall : forall k' a', In (k', a') la -> exists b, df_pow a' exp m = Ok b).
    { intros k' a' H. apply (Hpre k' a'), in_or_app. now left. }
    assert (Hlinks : exists r,
              collect (fun _ a => match df_pow a exp m with
                                  | Ok b => Ok (Some b)
                                  | Raise e => Raise e
                                  end) la = Ok r).
    { clear - Hall. induction la as [|[k' a'] l IH]; cbn; [eauto|].
      destruct (Hall k' a' (or_introl eq_refl)) as [b ->].
      destruct IH as [r ->]; [|eauto].
      intros k'' a'' H. apply (Hall k'' a''). now right. }
    destruct Hlinks as [r ->]. cbn [bind].
    rewrite (collect_first_raise _ pre post k a e); [reflexivity| |exact Ha].
    intros k' a' H. apply (Hpre k' a'), in_or_app. now right.
Qed.

(** X5: the relative difference of the class docstring, [abs(A - B) / A],
    has exactly the keys common to [A] and [B], each holding
    [abs(a - b) / a] for the frames [a] of [A] and [b] of [B]. *)
Theorem relative_difference_key_by_key :
  forall (A B : SimulationResults) (la lb na nb : Dict.t DataFrame),
    link A = Some la -> link B = Some lb ->
    node A = Some na -> node B = Some nb ->
    NoDup (Dict.keys la) -> NoDup (Dict.keys na) ->
    exists D M R l n,
      __sub__ df_sub now A (PyResults B) = Ok D
      /\ __abs__ df_abs now D = Ok M
      /\ __truediv__ df_div df_div_int now M (PyResults A) = Ok R
      /\ link R = Some l /\ node R = Some n
      /\ (forall key,
            Dict.get key l
            = match Dict.get key la, Dict.get key lb with
              | Some a, Some b => Some (df_div (df_abs (df_sub a b)) a)
              | _, _ => None
              end)
      /\ (forall key,
            Dict.get key n
            = match Dict.get key na, Dict.get key nb with
              | Some a, Some b => Some (df_div (df_abs (df_sub a b)) a)
              | _, _ => None
              end).
Proof.
  intros A B la lb na nb Hla Hlb Hna Hnb Hndl Hndn.
  assert (Hcommon : forall (d e : Dict.t DataFrame),
            NoDup (Dict.keys d) -> NoDup (Dict.keys (common df_sub d e))).
  { intros d e Hd. rewrite keys_common. now apply NoDup_filter_keys. }
  assert (Hlook : forall (d e : Dict.t DataFrame) key,
            NoDup (Dict.keys d) ->
            Dict.get key (common df_div (map_values df_abs (common df_sub d e)) d)
            = match Dict.get key d, Dict.get key e with
              | Some a, Some b => Some (df_div (df_abs (df_sub a b)) a)
              | _, _ => None
              end).
  { intros d e key Hd. rewrite get_common.
    - unfold pairwise. rewrite get_map_values, (get_common df_sub d e key Hd).
      unfold pairwise.
      destruct (Dict.get key d), (Dict.get key e); reflexivity.
    - rewrite keys_map_values. now apply Hcommon. }
  eexists _, _, _, _, _. split; [|split; [|split; [|split; [|split; [|split]]]]].
  - cbn [__sub__]. exact (binary_common df_sub _ A B la lb na nb Hla Hlb Hna Hnb Hndl Hndn).
  - cbn [__abs__]. apply unary_total; cbn [link node]; try reflexivity;
      now apply Hcommon.
  - cbn [__truediv__].
    eapply binary_common; cbn [link node];
      try reflexivity; try eassumption;
      rewrite keys_map_values; now apply Hcommon.
  - reflexivity.
  - reflexivity.
  - intros key. now apply Hlook.
  - intros key. now apply Hlook.
Qed.

(** X6: an object that has not been populated cannot be operated on.  With
    [link] still [None] every operator raises [AttributeError]; with a
    non-empty link dictionary and an operand whose [link] is [None] the
    binary operators raise [TypeError]; and on empty dictionaries the binary
    operators return an empty result without looking at the operand's
    dictionaries at all. *)
Theorem operators_on_unpopulated_objects :
  forall (self other : SimulationResults),
    (link self = None ->
     forall (n : Z) (exp : exponent) (m : option modulus),
       __add__ df_add now self (PyResults other) = Raise AttributeError
       /\ __sub__ df_sub now self (PyResults other) = Raise AttributeError
       /\ __truediv__ df_div df_div_int now self (PyResults other) = Raise AttributeError
       /\ __truediv__ df_div df_div_int now self (PyInt n) = Raise AttributeError
       /\ __abs__ df_abs now self = Raise AttributeError
       /\ __neg__ df_neg now self = Raise AttributeError
       /\ __pos__ df_pos now self = Raise AttributeError
       /\ __pow__ exponent modulus str_exponent df_pow now self exp m
          = Raise AttributeError)
    /\ (forall k a la,
          link self = Some ((k, a) :: la) -> link other = None ->
          __add__ df_add now self (PyResults other) = Raise TypeError
          /\ __sub__ df_sub now self (PyResults other) = Raise TypeError
          /\ __truediv__ df_div df_div_int now self (PyResults other) = Raise TypeError)
    /\ (link self = Some [] -> node self = Some [] ->
        __add__ df_add now self (PyResults other)
        = Ok (mkResults now (Some (binary_name " + " self other)) 0 (Some []) (Some []))
        /\ __sub__ df_sub now self (PyResults other)
           = Ok (mkResults now (Some (binary_name " - " self other)) 0 (Some []) (Some []))
        /\ __truediv__ df_div df_div_int now self (PyResults other)
           = Ok (mkResults now (Some (binary_name " / " self other)) 0 (Some []) (Some []))).
Proof.
  intros self other. split; [|split].
  - intros Hl n exp m.
    unfold __add__, __sub__, __truediv__, __abs__, __neg__, __pos__, __pow__,
      elementwise, scalarwise, mapwise.
    cbn [int_value]. rewrite Hl. repeat split.
  - intros k a la Hl Ho.
    unfold __add__, __sub__, __truediv__, elementwise. rewrite Hl, Ho.
    repeat split.
  - intros Hl Hn.
    unfold __add__, __sub__, __truediv__, elementwise. rewrite Hl, Hn.
    repeat split.
Qed.

End OperatorResults.

Lemma binary_operators_return_common_in_order_witness :
  __add__ (frame_op cell_add) "now" results_A (PyResults results_C_short)
  = Ok (mkResults "now" (Some (binary_name " + " results_A results_C_short)) 0
          (Some (common (frame_op cell_add) links_A links_C_short))
          (Some (common (frame_op cell_add) nodes_A nodes_C_short)))
  /\ Dict.keys (common (frame_op cell_add) links_A links_C_short) = ["flowrate"].
Proof.
  destruct (binary_operators_return_common_in_order
              (frame_op cell_add) (frame_op cell_sub) (frame_op cell_div)
              frame_div_int "now" results_A results_C_short
              links_A links_C_short nodes_A nodes_C_short
              eq_refl eq_refl eq_refl eq_refl
              (distinct_NoDup (Dict.keys links_A) eq_refl)
              (distinct_NoDup (Dict.keys nodes_A) eq_refl))
    as [Hadd [_ [_ Hkeys]]].
  split; [exact Hadd | exact (Hkeys (frame_op cell_add))].
Defined.

Lemma scalar_division_maps_every_frame_witness :
  __truediv__ (frame_op cell_div) frame_div_int "now" results_A (PyInt 0)
  = Ok (mkResults "now" (Some "net[2020-01-01 00:00:00] / 0") 0
          (Some (map_values (fun a => frame_div_int a 0) links_A))
          (Some (map_values (fun a => frame_div_int a 0) nodes_A))).
Proof.
  assert (H64 : int64 0) by (unfold int64; lia).
  exact (proj1 (scalar_division_maps_every_frame
                  (frame_op cell_div) frame_div_int "now" results_A
                  links_A nodes_A 0 true eq_refl eq_refl
                  (distinct_NoDup (Dict.keys links_A) eq_refl)
                  (distinct_NoDup (Dict.keys nodes_A) eq_refl) H64)).
Defined.

Lemma unary_operators_map_every_frame_witness :
  __neg__ (frame_map cell_neg) "now" results_A
  = Ok (mkResults "now" (Some "-net[2020-01-01 00:00:00]") 0
          (Some (map_values (frame_map cell_neg) links_A))
          (Some (map_values (frame_map cell_neg) nodes_A))).
Proof.
  exact (proj1 (proj2 (unary_operators_map_every_frame
                  (frame_map cell_abs) (frame_map cell_neg)
                  (frame_map (fun x => x)) "now" results_A
                  links_A nodes_A eq_refl eq_refl
                  (distinct_NoDup (Dict.keys links_A) eq_refl)
                  (distinct_NoDup (Dict.keys nodes_A) eq_refl)))).
Defined.

Lemma pow_maps_or_raises_first_witness :
  __pow__ Z Z str_int frame_pow "now" results_A 2 None
  = Ok (mkResults "now" (Some "net[2020-01-01 00:00:00] ** 2") 0
          (Some (map_values (frame_map (cell_pow 2)) links_A))
          (Some (map_values (frame_map (cell_pow 2)) nodes_A)))
  /\ __pow__ Z Z str_int frame_pow "now" results_A 2 (Some 3) = Raise TypeError.
Proof.
  split.
  - apply (proj1 (pow_maps_or_raises_first Z Z str_int frame_pow "now" results_A
                    links_A nodes_A 2 None eq_refl eq_refl
                    (distinct_NoDup (Dict.keys links_A) eq_refl)
                    (distinct_NoDup (Dict.keys nodes_A) eq_refl))
             (frame_map (cell_pow 2))).
    intros k a _. reflexivity.
  - apply (proj1 (proj2 (pow_maps_or_raises_first Z Z str_int frame_pow "now"
                    results_A links_A nodes_A 2 (Some 3) eq_refl eq_refl
                    (distinct_NoDup (Dict.keys links_A) eq_refl)
                    (distinct_NoDup (Dict.keys nodes_A) eq_refl)))
             [] [("velocity", velocity_A)] "flowrate" flowrate_A TypeError).
    + reflexivity.
    + intros k' a' [].
    + reflexivity.
Defined.

Lemma relative_difference_key_by_key_witness :
  exists D M R l n,
    __sub__ (frame_op cell_sub) "now" results_C (PyResults results_flow_only) = Ok D
    /\ __abs__ (frame_map cell_abs) "now" D = Ok M
    /\ __truediv__ (frame_op cell_div) frame_div_int "now" M (PyResults results_C) = Ok R
    /\ link R = Some l /\ node R = Some n
    /\ (forall key,
          Dict.get key l
          = match Dict.get key links_C, Dict.get key links_flow with
            | Some a, Some b =>
                Some (frame_op cell_div (frame_map cell_abs (frame_op cell_sub a b)) a)
            | _, _ => None
            end)
    /\ (forall key,
          Dict.get key n
          = match Dict.get key nodes_C, Dict.get key nodes_head with
            | Some a, Some b =>
                Some (frame_op cell_div (frame_map cell_abs (frame_op cell_sub a b)) a)
            | _, _ => None
            end).
Proof.
  exact (relative_difference_key_by_key
           (frame_op cell_sub) (frame_op cell_div) frame_div_int
           (frame_map cell_abs) "now" results_C results_flow_only
           links_C links_flow nodes_C nodes_head
           eq_refl eq_refl eq_refl eq_refl
           (distinct_NoDup (Dict.keys links_C) eq_refl)
           (distinct_NoDup (Dict.keys nodes_C) eq_refl)).
Defined.

Lemma operators_on_unpopulated_objects_witness :
  __add__ (frame_op cell_add) "now" (__init__ "t0") (PyResults results_A)
  = Raise AttributeError
  /\ __add__ (frame_op cell_add) "now" results_A (PyResults (__init__ "t0"))
     = Raise TypeError
  /\ __add__ (frame_op cell_add) "now" (results_of "t1" [] [])
       (PyResults (__init__ "t0"))
     = Ok (mkResults "now" (Some "net[t1] + None[t0]") 0 (Some []) (Some [])).
Proof.
  split; [|split].
  - exact (proj1 (proj1 (operators_on_unpopulated_objects
             (frame_op cell_add) (frame_op cell_sub) (frame_op cell_div)
             frame_div_int (frame_map cell_abs) (frame_map cell_neg)
             (frame_map (fun x => x)) Z Z str_int frame_pow "now"
             (__init__ "t0") results_A) eq_refl 2 2 None)).
  - exact (proj1 (proj1 (proj2 (operators_on_unpopulated_objects
             (frame_op cell_add) (frame_op cell_sub) (frame_op cell_div)
             frame_div_int (frame_map cell_abs) (frame_map cell_neg)
             (frame_map (fun x => x)) Z Z str_int frame_pow "now"
             results_A (__init__ "t0")))
             "flowrate" flowrate_A [("velocity", velocity_A)] eq_refl eq_refl)).
  - exact (proj1 (proj2 (proj2 (operators_on_unpopulated_objects
             (frame_op cell_add) (frame_op cell_sub) (frame_op cell_div)
             frame_div_int (frame_map cell_abs) (frame_map cell_neg)
             (frame_map (fun x => x)) Z Z str_int frame_pow "now"
             (results_of "t1" [] []) (__init__ "t0"))) eq_refl eq_refl)).
Defined.

(** ** Loops that update a dictionary in place *)

Lemma get_app_fresh : forall (pre d : Dict.t DataFrame) k,
  ~ In k (Dict.keys pre) -> Dict.get k (pre ++ d) = Dict.get k d.
Proof.
  induction pre as [|[k' w] pre IH]; intros d k Hk; cbn; [reflexivity|].
  destruct (String.eqb_spec k k') as [->|Hne].
  - exfalso. apply Hk. now left.
  - apply IH. intros H. apply Hk. now right.
Qed.

Lemma set_app_fresh : forall (pre suf : Dict.t DataFrame) k a v,
  ~ In k (Dict.keys pre) ->
  Dict.set k v (pre ++ (k, a) :: suf) = pre ++ (k, v) :: suf.
Proof.
  induction pre as [|[k' w] pre IH]; intros suf k a v Hk; cbn.
  - now rewrite String.eqb_refl.
  - destruct (String.eqb_spec k k') as [->|Hne].
    + exfalso. apply Hk. now left.
    + f_equal. apply IH. intros H. apply Hk. now right.
Qed.

Lemma keys_app : forall (d e : Dict.t DataFrame),
  Dict.keys (d ++ e) = Dict.keys d ++ Dict.keys e.
Proof.
  intros. unfold Dict.keys. apply map_app.
Qed.

(** A loop over the keys of a dictionary that replaces the frame of each
    key by [g] of it leaves what [update_all] says, also when it raises. *)
Lemma update_loop (g : string -> DataFrame -> result DataFrame)
    (body : string -> Dict.t DataFrame -> outcome (Dict.t DataFrame)) :
  (forall mine k a, Dict.get k mine = Some a ->
     body k mine = match g k a with
                   | Ok f => Done (Dict.set k f mine)
                   | Raise e => Raised e mine
                   end) ->
  forall suf pre,
    NoDup (Dict.keys (pre ++ suf)) ->
    for_each (Dict.keys suf) body (pre ++ suf)
    = outcome_map (app pre) (update_all g suf).
Proof.
  intros Hbody. induction suf as [|[k a] suf IH]; intros pre Hnd.
  - cbn. reflexivity.
  - assert (Hk : ~ In k (Dict.keys pre)).
    { rewrite keys_app in Hnd. cbn in Hnd.
      apply NoDup_remove_2 in Hnd. intros H. apply Hnd, in_or_app. now left. }
    cbn [Dict.keys map fst for_each update_all].
    rewrite (Hbody _ k a) by (rewrite get_app_fresh by exact Hk; cbn;
                               now rewrite String.eqb_refl).
    destruct (g k a) as [f|e]; [|reflexivity].
    rewrite set_app_fresh by exact Hk.
    change (pre ++ (k, f) :: suf) with (pre ++ [(k, f)] ++ suf).
    rewrite app_assoc. fold (Dict.keys suf). rewrite IH.
    + destruct (update_all g suf) as [r|e r]; cbn [outcome_map];
        now rewrite <- app_assoc.
    + rewrite <- app_assoc. rewrite !keys_app in *. exact Hnd.
Qed.

Lemma update_all_total : forall (h : DataFrame -> DataFrame) d,
  update_all (fun _ a => Ok (h a)) d = Done (map_values h d).
Proof.
  intros h. induction d as [|[k a] d IH]; cbn; [reflexivity|].
  now rewrite IH.
Qed.

Lemma update_all_fixed : forall g (d : Dict.t DataFrame),
  (forall k a, In (k, a) d -> g k a = Ok a) -> update_all g d = Done d.
Proof.
  intros g. induction d as [|[k a] d IH]; intros H; cbn; [reflexivity|].
  rewrite (H k a) by now left.
  rewrite IH; [reflexivity|]. intros k' a' Hin. apply H. now right.
Qed.

(** ** _adjust_time *)

Lemma shift_zero : forall f, shift 0 f = f.
Proof.
  intros [cols rs]. unfold shift. cbn [columns rows]. f_equal.
  induction rs as [|[t r] rs IH]; cbn [map fst snd]; [reflexivity|].
  now rewrite Z.add_0_r, IH.
Qed.

Lemma shift_shift : forall a b f, shift b (shift a f) = shift (a + b) f.
Proof.
  intros a b [cols rs]. unfold shift. cbn [columns rows]. f_equal.
  rewrite map_map. apply map_ext. intros [t r]. cbn [fst snd].
  now rewrite Z.add_assoc.
Qed.

Lemma index_shift : forall n f, index (shift n f) = map (fun t => t + n) (index f).
Proof.
  intros n [cols rs]. unfold index, shift. cbn [rows].
  rewrite !map_map. reflexivity.
Qed.

Lemma increasing_shift : forall n ts,
  increasing (map (fun t => t + n) ts) = increasing ts.
Proof.
  intros n. induction ts as [|t [|t' ts] IH]; [reflexivity | reflexivity |].
  change (increasing (map (fun t => t + n) (t :: t' :: ts)))
    with ((t + n <? t' + n) && increasing (map (fun t => t + n) (t' :: ts))).
  rewrite IH. change (increasing (t :: t' :: ts))
    with ((t <? t') && increasing (t' :: ts)).
  f_equal. destruct (Z.ltb_spec (t + n) (t' + n)), (Z.ltb_spec t t'); auto; lia.
Qed.

Lemma map_values_id : forall (h : DataFrame -> DataFrame) (d : Dict.t DataFrame),
  (forall f, h f = f) -> map_values h d = d.
Proof.
  intros h d H. unfold map_values.
  induction d as [|[k a] d IH]; cbn [map fst snd]; [reflexivity|].
  now rewrite H, IH.
Qed.

Lemma map_values_compose : forall (g h : DataFrame -> DataFrame) (d : Dict.t DataFrame),
  map_values g (map_values h d) = map_values (fun f => g (h f)) d.
Proof.
  intros g h d. unfold map_values. rewrite map_map. reflexivity.
Qed.

Lemma map_values_ext : forall (g h : DataFrame -> DataFrame) (d : Dict.t DataFrame),
  (forall f, g f = h f) -> map_values g d = map_values h d.
Proof.
  intros g h d H. unfold map_values. apply map_ext. intros [k a].
  cbn [fst snd]. now rewrite H.
Qed.

Lemma wrap64_small : forall z, int64 z -> wrap64 z = z.
Proof.
  intros z Hz. unfold wrap64, int64 in *. rewrite Z.mod_small; lia.
Qed.

Lemma wrap64_add : forall a b, wrap64 (wrap64 a + b) = wrap64 (a + b).
Proof.
  intros a b. unfold wrap64.
  replace ((a + 2 ^ 63) mod 2 ^ 64 - 2 ^ 63 + b + 2 ^ 63)
    with ((a + 2 ^ 63) mod 2 ^ 64 + b) by lia.
  rewrite Zplus_mod_idemp_l. do 2 f_equal. lia.
Qed.

Lemma index_iadd_iadd : forall a b f,
  index_iadd b (index_iadd a f) = index_iadd (a + b) f.
Proof.
  intros a b [cols rs]. unfold index_iadd. cbn [columns rows]. f_equal.
  rewrite map_map. apply map_ext. intros [t r]. cbn [fst snd].
  now rewrite wrap64_add, Z.add_assoc.
Qed.

Lemma index_iadd_fits : forall n f, fits n f -> index_iadd n f = shift n f.
Proof.
  intros n [cols rs] Hfit. unfold index_iadd, shift, fits, index in *.
  cbn [columns rows] in *. f_equal. apply map_ext_in. intros [t r] Hin.
  cbn [fst snd]. f_equal. apply wrap64_small, Hfit.
  now apply (in_map fst) in Hin.
Qed.

Lemma index_iadd_zero : forall f,
  (forall t, In t (index f) -> int64 t) -> index_iadd 0 f = f.
Proof.
  intros f Hf. rewrite index_iadd_fits; [apply shift_zero|].
  intros t Ht. rewrite Z.add_0_r. now apply Hf.
Qed.

Lemma index_index_iadd : forall n f,
  index (index_iadd n f) = map (fun t => wrap64 (t + n)) (index f).
Proof.
  intros n [cols rs]. unfold index, index_iadd. cbn [rows].
  rewrite !map_map. reflexivity.
Qed.

Lemma iter_commute : forall (A : Type) (f g : A -> A) k x,
  (forall y, f (g y) = g (f y)) ->
  Nat.iter k f (g x) = g (Nat.iter k f x).
Proof.
  intros A f g k x H. induction k as [|k IH]; [reflexivity|].
  now rewrite !Nat.iter_succ, IH, H.
Qed.

Lemma iter_compose : forall (A : Type) (f g h : A -> A) k x,
  (forall y, f (g y) = h y) -> (forall y, f (g y) = g (f y)) ->
  Nat.iter k f (Nat.iter k g x) = Nat.iter k h x.
Proof.
  intros A f g h k x Hh Hc. induction k as [|k IH]; [reflexivity|].
  rewrite !Nat.iter_succ, iter_commute by exact Hc. now rewrite IH, Hh.
Qed.

Lemma iter_fixed : forall (A : Type) (f : A -> A) k x,
  f x = x -> Nat.iter k f x = x.
Proof.
  intros A f k x H. induction k as [|k IH]; [reflexivity|].
  now rewrite Nat.iter_succ, IH.
Qed.

Lemma iter_wrap64 : forall n k t,
  int64 t ->
  Nat.iter k (fun u => wrap64 (u + n)) t = wrap64 (t + n * Z.of_nat k).
Proof.
  intros n k t Ht. induction k as [|k IH].
  - cbn [Nat.iter nat_rect Z.of_nat]. rewrite Z.mul_0_r, Z.add_0_r. symmetry.
    now apply wrap64_small.
  - rewrite Nat.iter_succ, IH, wrap64_add. f_equal. lia.
Qed.

Lemma index_iter_iadd : forall n k f,
  index (Nat.iter k (index_iadd n) f)
  = map (Nat.iter k (fun u => wrap64 (u + n))) (index f).
Proof.
  intros n k f. induction k as [|k IH].
  - cbn. now rewrite map_id.
  - rewrite Nat.iter_succ, index_index_iadd, IH, map_map. apply map_ext.
    intros t. now rewrite Nat.iter_succ.
Qed.

(** *** The store *)

Lemma deref_update : forall (g : DataFrame -> DataFrame) fs r i,
  g (mkFrame [] []) = mkFrame [] [] ->
  Shared.deref (Shared.update r g fs) i
  = if Nat.eqb i r then g (Shared.deref fs i) else Shared.deref fs i.
Proof.
  intros g. unfold Shared.deref.
  induction fs as [|f fs IH]; intros r i Hg.
  - destruct r, i; cbn [Shared.update nth Nat.eqb]; try reflexivity;
      try (symmetry; exact Hg).
    destruct (Nat.eqb i r); [symmetry; exact Hg | reflexivity].
  - destruct r as [|r], i as [|i]; cbn [Shared.update nth Nat.eqb]; try reflexivity.
    now apply IH.
Qed.

Lemma length_update : forall (g : DataFrame -> DataFrame) fs r,
  List.length (Shared.update r g fs) = List.length fs.
Proof.
  intros g. induction fs as [|f fs IH]; intros [|r]; cbn [Shared.update List.length];
    try reflexivity.
  now rewrite IH.
Qed.

Lemma store_ext : forall (fs gs : Shared.store),
  List.length fs = List.length gs ->
  (forall i, Shared.deref fs i = Shared.deref gs i) -> fs = gs.
Proof.
  intros fs gs Hlen H. apply (nth_ext fs gs (mkFrame [] []) (mkFrame [] []) Hlen).
  intros i _. apply H.
Qed.

(** The loop over one dictionary of references: every frame object is
    moved once for each key that refers to it. *)
Lemma adjust_refs_deref : forall n (d : Dict.t nat),
  NoDup (Dict.keys d) ->
  forall fs,
    exists fs',
      Shared.adjust_refs n (Some d) fs = Done fs'
      /\ List.length fs' = List.length fs
      /\ forall i,
           Shared.deref fs' i
           = Nat.iter (count_occ Nat.eq_dec (map snd d) i) (index_iadd n)
               (Shared.deref fs i).
Proof.
  intros n d Hnd. unfold Shared.adjust_refs.
  assert (Hsuf : forall suf pre fs,
            d = pre ++ suf ->
            exists fs',
              for_each (Dict.keys suf)
                (fun key fs =>
                   try (Dict.getitem key d) fs (fun r =>
                   Done (Shared.update r (index_iadd n) fs))) fs
              = Done fs'
              /\ List.length fs' = List.length fs
              /\ forall i,
                   Shared.deref fs' i
                   = Nat.iter (count_occ Nat.eq_dec (map snd suf) i) (index_iadd n)
                       (Shared.deref fs i)).
  { induction suf as [|[k r] suf IH]; intros pre fs Hd.
    - exists fs. repeat split.
    - assert (Hget : Dict.get k d = Some r).
      { apply in_get; [exact Hnd|]. rewrite Hd. apply in_or_app. right. now left. }
      cbn [Dict.keys map fst for_each]. unfold Dict.getitem at 1. rewrite Hget.
      cbn [try]. fold (Dict.keys suf).
      destruct (IH (pre ++ [(k, r)]) (Shared.update r (index_iadd n) fs))
        as [fs' [Hrun [Hlen Hderef]]]; [now rewrite <- app_assoc|].
      exists fs'. split; [exact Hrun|]. split; [now rewrite Hlen, length_update|].
      intros i. rewrite Hderef, deref_update by reflexivity.
      cbn [map snd count_occ].
      destruct (Nat.eq_dec r i) as [->|Hne].
      + rewrite Nat.eqb_refl. symmetry. apply Nat.iter_succ_r.
      + apply Nat.eqb_neq in Hne. rewrite Nat.eqb_sym in Hne. now rewrite Hne. }
  intros fs. exact (Hsuf d [] fs eq_refl).
Qed.

(** Both loops, on an object whose two dictionaries are present. *)
Lemma adjust_time_deref : forall n self l nd fs,
  Shared.link_refs self = Some l -> Shared.node_refs self = Some nd ->
  NoDup (Dict.keys l) -> NoDup (Dict.keys nd) ->
  exists fs',
    Shared._adjust_time (Ok n) self fs = Done fs'
    /\ List.length fs' = List.length fs
    /\ forall i,
         Shared.deref fs' i
         = Nat.iter (count_occ Nat.eq_dec (Shared.all_refs self) i) (index_iadd n)
             (Shared.deref fs i).
Proof.
  intros n self l nd fs Hl Hn Hndl Hndn.
  unfold Shared._adjust_time, Shared.all_refs. cbn [try]. rewrite Hl, Hn.
  destruct (adjust_refs_deref n l Hndl fs) as [fs1 [Hrun1 [Hlen1 Hderef1]]].
  destruct (adjust_refs_deref n nd Hndn fs1) as [fs2 [Hrun2 [Hlen2 Hderef2]]].
  rewrite Hrun1, Hrun2. exists fs2. split; [reflexivity|].
  split; [congruence|].
  intros i. rewrite Hderef2, Hderef1. cbn [Shared.refs_of].
  rewrite count_occ_app, Nat.add_comm. symmetry. apply Nat.iter_add.
Qed.

Lemma keys_view : forall fs (refs : Dict.t nat),
  Dict.keys (Shared.view fs refs) = Dict.keys refs.
Proof.
  intros fs refs. unfold Dict.keys, Shared.view. rewrite map_map. reflexivity.
Qed.

(** Seen through keys whose frame objects no other key holds, every frame
    has been moved once. *)
Lemma view_moved_once : forall n (all : list nat) fs fs' (refs : Dict.t nat),
  (forall i,
     Shared.deref fs' i
     = Nat.iter (count_occ Nat.eq_dec all i) (index_iadd n) (Shared.deref fs i)) ->
  NoDup all ->
  (forall entry, In entry refs -> In (snd entry) all) ->
  Shared.view fs' refs = map_values (index_iadd n) (Shared.view fs refs).
Proof.
  intros n all fs fs' refs Hderef Hnd Hin.
  unfold Shared.view, map_values. rewrite map_map.
  apply map_ext_in. intros [k r] Hk. cbn [fst snd]. f_equal.
  rewrite Hderef.
  now rewrite (proj1 (NoDup_count_occ' Nat.eq_dec all) Hnd r (Hin (k, r) Hk)).
Qed.

Lemma map_values_ext_in : forall (g h : DataFrame -> DataFrame) (d : Dict.t DataFrame),
  (forall k f, In (k, f) d -> g f = h f) -> map_values g d = map_values h d.
Proof.
  intros g h d H. unfold map_values. apply map_ext_in. intros [k a] Hin.
  cbn [fst snd]. now rewrite (H k a Hin).
Qed.

(** An object that shares no frame and whose index values stay within
    int64: the value afterwards is the value before, moved. *)
Lemma adjust_time_unshared : forall n self l nd fs,
  Shared.link_refs self = Some l -> Shared.node_refs self = Some nd ->
  NoDup (Dict.keys l) -> NoDup (Dict.keys nd) ->
  NoDup (Shared.all_refs self) ->
  (forall r, In r (Shared.all_refs self) -> fits n (Shared.deref fs r)) ->
  exists fs',
    Shared._adjust_time (Ok n) self fs = Done fs'
    /\ Shared.view fs' l = map_values (index_iadd n) (Shared.view fs l)
    /\ Shared.view fs' nd = map_values (index_iadd n) (Shared.view fs nd)
    /\ Shared.value fs' self = shifted n (Shared.value fs self).
Proof.
  intros n self l nd fs Hl Hn Hndl Hndn Hnd Hfit.
  destruct (adjust_time_deref n self l nd fs Hl Hn Hndl Hndn)
    as [fs' [Hrun [_ Hderef]]].
  assert (Hinl : forall entry, In entry l -> In (snd entry) (Shared.all_refs self)).
  { intros entry H. unfold Shared.all_refs. rewrite Hl. apply in_or_app. left.
    now apply in_map. }
  assert (Hinn : forall entry, In entry nd -> In (snd entry) (Shared.all_refs self)).
  { intros entry H. unfold Shared.all_refs. rewrite Hn. apply in_or_app. right.
    now apply in_map. }
  pose proof (view_moved_once n _ fs fs' l Hderef Hnd Hinl) as Hvl.
  pose proof (view_moved_once n _ fs fs' nd Hderef Hnd Hinn) as Hvn.
  exists fs'. split; [exact Hrun|]. split; [exact Hvl|]. split; [exact Hvn|].
  assert (Hshift : forall refs : Dict.t nat,
            (forall entry, In entry refs -> In (snd entry) (Shared.all_refs self)) ->
            map_values (index_iadd n) (Shared.view fs refs)
            = map_values (shift n) (Shared.view fs refs)).
  { intros refs Hin. apply map_values_ext_in. intros k f Hf.
    unfold Shared.view in Hf. apply in_map_iff in Hf.
    destruct Hf as [[k' r] [[= <- <-] Hr]]. cbn [snd].
    apply index_iadd_fits, Hfit. exact (Hin (k', r) Hr). }
  unfold Shared.value, shifted. cbn [timestamp network_name sim_time link node].
  rewrite Hl, Hn. cbn [option_map].
  now rewrite Hvl, Hvn, (Hshift l Hinl), (Hshift nd Hinn).
Qed.

(** X7: on frames with int64 indices, [_adjust_time(ts)] adds [int(ts)] to
    every index value of every link and node frame when no frame object
    sits under two keys and [int(ts)] fits in 64 bits: keys, key order,
    columns and cells stay, and every index value becomes the int64 sum,
    which wraps around past the ends of the range and is the exact sum when
    that fits.  When [int(ts)] raises, nothing has been modified. *)
Theorem adjust_time_shifts_every_frame :
  forall (self : Shared.results) (fs : Shared.store) (l nd : Dict.t nat)
         (int_ts : result Z),
    Shared.link_refs self = Some l -> Shared.node_refs self = Some nd ->
    NoDup (Dict.keys l) -> NoDup (Dict.keys nd) ->
    NoDup (Shared.all_refs self) ->
    match int_ts with
    | Ok n =>
        int64 n -> Shared.int64_indexed fs ->
        exists fs',
          Shared._adjust_time int_ts self fs = Done fs'
          /\ link (Shared.value fs' self)
             = Some (map_values (index_iadd n) (Shared.view fs l))
          /\ node (Shared.value fs' self)
             = Some (map_values (index_iadd n) (Shared.view fs nd))
          /\ (forall f,
                index (index_iadd n f) = map (fun t => wrap64 (t + n)) (index f)
                /\ columns (index_iadd n f) = columns f
                /\ map snd (rows (index_iadd n f)) = map snd (rows f))
          /\ ((forall r, In r (Shared.all_refs self) -> fits n (Shared.deref fs r)) ->
              Shared.value fs' self = shifted n (Shared.value fs self))
    | Raise e => Shared._adjust_time int_ts self fs = Raised e fs
    end.
Proof.
  intros self fs l nd [n|e] Hl Hn Hndl Hndn Hnd; [|reflexivity].
  intros _ _.
  destruct (adjust_time_deref n self l nd fs Hl Hn Hndl Hndn)
    as [fs' [Hrun [_ Hderef]]].
  assert (Hinl : forall entry, In entry l -> In (snd entry) (Shared.all_refs self)).
  { intros entry H. unfold Shared.all_refs. rewrite Hl. apply in_or_app. left.
    now apply in_map. }
  assert (Hinn : forall entry, In entry nd -> In (snd entry) (Shared.all_refs self)).
  { intros entry H. unfold Shared.all_refs. rewrite Hn. apply in_or_app. right.
    now apply in_map. }
  exists fs'. split; [exact Hrun|]. split; [|split; [|split]].
  - unfold Shared.value. cbn [link]. rewrite Hl. cbn [option_map]. f_equal.
    exact (view_moved_once n _ fs fs' l Hderef Hnd Hinl).
  - unfold Shared.value. cbn [node]. rewrite Hn. cbn [option_map]. f_equal.
    exact (view_moved_once n _ fs fs' nd Hderef Hnd Hinn).
  - intros f. split; [apply index_index_iadd|]. split; [reflexivity|].
    unfold index_iadd. cbn [rows]. rewrite map_map. reflexivity.
  - intros Hfit.
    destruct (adjust_time_unshared n self l nd fs Hl Hn Hndl Hndn Hnd Hfit)
      as [fs'' [Hrun' [_ [_ Hvalue]]]].
    rewrite Hrun in Hrun'. injection Hrun' as <-. exact Hvalue.
Qed.

(** X8: [_adjust_time] on a half-populated object with int64 indices, for
    an [int(ts)] that fits in 64 bits.  With [link] still [None] it raises [AttributeError]
    and changes nothing; with the link dictionary present, no link frame
    shared, and [node] still [None] it raises [AttributeError] after every
    link frame has been moved, and the move stays. *)
Theorem adjust_time_half_populated :
  forall (self : Shared.results) (fs : Shared.store) (n : Z),
    int64 n -> Shared.int64_indexed fs ->
    (Shared.link_refs self = None ->
     Shared._adjust_time (Ok n) self fs = Raised AttributeError fs)
    /\ (forall l,
          Shared.link_refs self = Some l -> Shared.node_refs self = None ->
          NoDup (Dict.keys l) -> NoDup (map snd l) ->
          exists fs',
            Shared._adjust_time (Ok n) self fs = Raised AttributeError fs'
            /\ List.length fs' = List.length fs
            /\ Shared.view fs' l = map_values (index_iadd n) (Shared.view fs l)).
Proof.
  intros self fs n _ _. split.
  - intros Hl. unfold Shared._adjust_time. cbn [try]. now rewrite Hl.
  - intros l Hl Hn Hndl Hrefs.
    destruct (adjust_refs_deref n l Hndl fs) as [fs' [Hrun [Hlen Hderef]]].
    exists fs'. split; [|split; [exact Hlen|]].
    + unfold Shared._adjust_time. cbn [try]. now rewrite Hl, Hrun, Hn.
    + apply (view_moved_once n (map snd l) fs fs' l Hderef Hrefs).
      intros entry H. now apply in_map.
Qed.

(** X9: on int64 indices [_adjust_time] composes additively, shared frames
    or not: adjusting by [a] and then by [b] leaves the store that
    adjusting by [a + b] leaves, when [a], [b] and [a + b] fit in 64 bits.
    Adjusting by 0 changes nothing, and adjusting by [a] and then by [-a]
    restores the store, also when the index wrapped around in between. *)
Theorem adjust_time_composes :
  forall (self : Shared.results) (fs : Shared.store) (l nd : Dict.t nat) (a b : Z),
    Shared.link_refs self = Some l -> Shared.node_refs self = Some nd ->
    NoDup (Dict.keys l) -> NoDup (Dict.keys nd) ->
    int64 a -> int64 b -> int64 (a + b) ->
    Shared.int64_indexed fs ->
    exists fs1,
      Shared._adjust_time (Ok a) self fs = Done fs1
      /\ Shared._adjust_time (Ok b) self fs1
         = Shared._adjust_time (Ok (a + b)) self fs
      /\ Shared._adjust_time (Ok 0) self fs = Done fs
      /\ (int64 (- a) -> Shared._adjust_time (Ok (- a)) self fs1 = Done fs).
Proof.
  intros self fs l nd a b Hl Hn Hndl Hndn _ _ _ Hfs.
  destruct (adjust_time_deref a self l nd fs Hl Hn Hndl Hndn)
    as [fs1 [Hrun1 [Hlen1 Hderef1]]].
  assert (Hthen : forall c,
            exists fs2,
              Shared._adjust_time (Ok c) self fs1 = Done fs2
              /\ List.length fs2 = List.length fs
              /\ forall i,
                   Shared.deref fs2 i
                   = Nat.iter (count_occ Nat.eq_dec (Shared.all_refs self) i)
                       (index_iadd (a + c)) (Shared.deref fs i)).
  { intros c.
    destruct (adjust_time_deref c self l nd fs1 Hl Hn Hndl Hndn)
      as [fs2 [Hrun2 [Hlen2 Hderef2]]].
    exists fs2. split; [exact Hrun2|]. split; [congruence|].
    intros i. rewrite Hderef2, Hderef1. apply iter_compose.
    - intros f. apply index_iadd_iadd.
    - intros f. rewrite !index_iadd_iadd. f_equal. lia. }
  assert (Hvalid : Shared.int64_indexed fs ->
            forall i f, f = Shared.deref fs i -> index_iadd 0 f = f).
  { intros Hint i f ->. apply index_iadd_zero. intros t Ht.
    unfold Shared.deref in Ht.
    destruct (Nat.lt_ge_cases i (List.length fs)) as [Hi|Hi].
    - apply (Hint (nth i fs (mkFrame [] [])) t); [now apply nth_In | exact Ht].
    - rewrite nth_overflow in Ht by exact Hi. destruct Ht. }
  exists fs1. split; [exact Hrun1|]. split; [|split].
  - destruct (Hthen b) as [fs2 [Hrun2 [Hlen2 Hderef2]]].
    destruct (adjust_time_deref (a + b) self l nd fs Hl Hn Hndl Hndn)
      as [fs3 [Hrun3 [Hlen3 Hderef3]]].
    rewrite Hrun2, Hrun3. f_equal. apply store_ext; [congruence|].
    intros i. now rewrite Hderef2, Hderef3.
  - destruct (adjust_time_deref 0 self l nd fs Hl Hn Hndl Hndn)
      as [fs0 [Hrun0 [Hlen0 Hderef0]]].
    rewrite Hrun0. f_equal. apply store_ext; [exact Hlen0|].
    intros i. rewrite Hderef0. apply iter_fixed.
    now apply (Hvalid Hfs i).
  - intros _. destruct (Hthen (- a)) as [fs2 [Hrun2 [Hlen2 Hderef2]]].
    rewrite Hrun2. f_equal. apply store_ext; [exact Hlen2|].
    intros i. rewrite Hderef2. replace (a + - a) with 0 by lia.
    apply iter_fixed. now apply (Hvalid Hfs i).
Qed.

Lemma value_time_indexed : forall fs self ta la na,
  time_indexed (Shared.value fs self) ta la na ->
  exists l nd,
    Shared.link_refs self = Some l /\ Shared.node_refs self = Some nd
    /\ la = Shared.view fs l /\ na = Shared.view fs nd
    /\ NoDup (Dict.keys l) /\ NoDup (Dict.keys nd)
    /\ forall r, In r (Shared.all_refs self) -> index (Shared.deref fs r) = ta.
Proof.
  intros fs self ta la na (Hla & Hna & Hndl & Hndn & Hil & Hin & _).
  unfold Shared.value in Hla, Hna. cbn [link node] in Hla, Hna.
  destruct (Shared.link_refs self) as [l|] eqn:Hl; [|discriminate].
  destruct (Shared.node_refs self) as [nd|] eqn:Hn; [|discriminate].
  cbn [option_map] in Hla, Hna. injection Hla as <-. injection Hna as <-.
  rewrite keys_view in Hndl, Hndn.
  exists l, nd. repeat split; try assumption.
  assert (Hrefs : forall (refs : Dict.t nat) r,
            NoDup (Dict.keys refs) -> indexed_by ta (Shared.view fs refs) ->
            In r (map snd refs) -> index (Shared.deref fs r) = ta).
  { intros refs r Hnd Hidx Hr. apply in_map_iff in Hr.
    destruct Hr as [[k r'] [<- Hk]]. cbn [snd].
    apply (Hidx k). apply in_get; [now rewrite keys_view|].
    unfold Shared.view. apply in_map_iff. exists (k, r'). now split. }
  intros r Hr. unfold Shared.all_refs in Hr. rewrite Hl, Hn in Hr.
  cbn [Shared.refs_of] in Hr. apply in_app_or in Hr. destruct Hr as [Hr|Hr].
  - now apply (Hrefs l).
  - now apply (Hrefs nd).
Qed.

Lemma shifted_time_indexed : forall self ta la na n,
  time_indexed self ta la na ->
  time_indexed (shifted n self) (map (fun t => t + n) ta)
    (map_values (shift n) la) (map_values (shift n) na).
Proof.
  intros self ta la na n (Hla & Hna & Hndl & Hndn & Hil & Hin & Hta).
  assert (Hidx : forall d, indexed_by ta d ->
            indexed_by (map (fun t => t + n) ta) (map_values (shift n) d)).
  { intros d Hd key f Hf. rewrite get_map_values in Hf.
    destruct (Dict.get key d) as [a|] eqn:Ha; [|discriminate].
    injection Hf as <-. rewrite index_shift. now rewrite (Hd key a Ha). }
  repeat split.
  - unfold shifted. cbn [link]. now rewrite Hla.
  - unfold shifted. cbn [node]. now rewrite Hna.
  - now rewrite keys_map_values.
  - now rewrite keys_map_values.
  - now apply Hidx.
  - now apply Hidx.
  - now rewrite increasing_shift.
Qed.

(** A time-indexed object that shares no frame, moved by an [n] that keeps
    its times within int64. *)
Lemma adjust_time_indexed : forall n self fs ta la na,
  time_indexed (Shared.value fs self) ta la na ->
  NoDup (Shared.all_refs self) ->
  (forall t, In t ta -> int64 (t + n)) ->
  exists fs',
    Shared._adjust_time (Ok n) self fs = Done fs'
    /\ Shared.value fs' self = shifted n (Shared.value fs self).
Proof.
  intros n self fs ta la na HA Hnd Hfit.
  destruct (value_time_indexed fs self ta la na HA)
    as (l & nd & Hl & Hn & _ & _ & Hndl & Hndn & Hidx).
  destruct (adjust_time_unshared n self l nd fs Hl Hn Hndl Hndn Hnd)
    as [fs' [Hrun [_ [_ Hvalue]]]].
  - intros r Hr t Ht. rewrite (Hidx r Hr) in Ht. now apply Hfit.
  - exists fs'. now split.
Qed.

(** X10: an object all of whose frames carry one strictly increasing int64
    time index, none of them shared, still does after [_adjust_time(n)] when
    [n] and the moved times fit in 64 bits: the common index is the old one
    moved by [n], and no key is gained or lost. *)
Theorem adjust_time_keeps_time_index :
  forall (self : Shared.results) (fs : Shared.store) (ta : list Z)
         (la na : Dict.t DataFrame) (n : Z),
    time_indexed (Shared.value fs self) ta la na ->
    NoDup (Shared.all_refs self) ->
    int64 n -> Shared.int64_indexed fs -> (forall t, In t ta -> int64 (t + n)) ->
    exists fs',
      Shared._adjust_time (Ok n) self fs = Done fs'
      /\ time_indexed (Shared.value fs' self) (map (fun t => t + n) ta)
           (map_values (shift n) la) (map_values (shift n) na)
      /\ Dict.keys (map_values (shift n) la) = Dict.keys la
      /\ Dict.keys (map_values (shift n) na) = Dict.keys na.
Proof.
  intros self fs ta la na n HA Hnd _ _ Hfit.
  destruct (adjust_time_indexed n self fs ta la na HA Hnd Hfit)
    as [fs' [Hrun Hvalue]].
  exists fs'. split; [exact Hrun|]. rewrite Hvalue.
  split; [now apply shifted_time_indexed|].
  split; apply keys_map_values.
Qed.

(** X11: [_adjust_time] changes the frame objects, not the dictionaries.
    On int64 indices and for an [int(ts)] that fits in 64 bits, a frame
    object that sits under several keys is moved once for each of them, and
    a frame that no key refers to is not moved; the store keeps its size.
    That makes the index values [t + ts * k] wrapped around, [k] being the
    number of link and node keys that hold the frame. *)
Theorem adjust_time_shifts_once_per_reference :
  forall (self : Shared.results) (fs : Shared.store) (l nd : Dict.t nat) (n : Z),
    Shared.link_refs self = Some l -> Shared.node_refs self = Some nd ->
    NoDup (Dict.keys l) -> NoDup (Dict.keys nd) ->
    int64 n -> Shared.int64_indexed fs ->
    exists fs',
      Shared._adjust_time (Ok n) self fs = Done fs'
      /\ List.length fs' = List.length fs
      /\ (forall i,
            Shared.deref fs' i
            = Nat.iter (count_occ Nat.eq_dec (Shared.all_refs self) i) (index_iadd n)
                (Shared.deref fs i))
      /\ (forall i,
            index (Shared.deref fs' i)
            = map (fun t =>
                     wrap64 (t + n * Z.of_nat
                                       (count_occ Nat.eq_dec (Shared.all_refs self) i)))
                (index (Shared.deref fs i))).
Proof.
  intros self fs l nd n Hl Hn Hndl Hndn _ Hfs.
  destruct (adjust_time_deref n self l nd fs Hl Hn Hndl Hndn)
    as [fs' [Hrun [Hlen Hderef]]].
  exists fs'. split; [exact Hrun|]. split; [exact Hlen|]. split; [exact Hderef|].
  intros i. rewrite Hderef, index_iter_iadd.
  apply map_ext_in. intros t Ht. apply iter_wrap64.
  unfold Shared.deref in Ht.
  destruct (Nat.lt_ge_cases i (List.length fs)) as [Hi|Hi].
  - apply (Hfs (nth i fs (mkFrame [] [])) t); [now apply nth_In | exact Ht].
  - rewrite nth_overflow in Ht by exact Hi. destruct Ht.
Qed.

(** ** append_results_from under a change of the time origin *)

Lemma before_shift : forall n start ts,
  before (start + n) (map (fun t => t + n) ts) = before start ts.
Proof.
  intros n start ts. unfold before. rewrite map_map. apply map_ext. intros t.
  destruct (Z.ltb_spec (t + n) (start + n)), (Z.ltb_spec t start); auto; lia.
Qed.

Lemma select_map : forall (A B : Type) (h : A -> B) keep rs,
  select keep (map h rs) = map h (select keep rs).
Proof.
  intros A B h. induction keep as [|k keep IH]; intros [|r rs]; cbn [select map];
    try reflexivity.
  destruct k; cbn [map]; now rewrite IH.
Qed.

Lemma loc_shift : forall n keep a,
  loc keep (shift n a)
  = match loc keep a with
    | Ok kept => Ok (shift n kept)
    | Raise e => Raise e
    end.
Proof.
  intros n keep [cols rs]. unfold loc, shift. cbn [rows columns].
  rewrite length_map. destruct (Nat.eqb _ _); [|reflexivity].
  cbn [rows columns]. now rewrite select_map.
Qed.

Lemma append_shift : forall n a b,
  append (shift n a) (shift n b) = shift n (append a b).
Proof.
  intros n [ca ra] [cb rb]. unfold append, shift. cbn [rows columns]. f_equal.
  rewrite map_app, !map_map. f_equal; apply map_ext; intros [t r]; reflexivity.
Qed.

Lemma mul_scalar_shift : forall n t x,
  mul_scalar (shift n t) x = shift n (mul_scalar t x).
Proof.
  intros n [c r] x. unfold mul_scalar, shift. cbn [rows columns]. f_equal.
  rewrite !map_map. apply map_ext. intros [t' r']. reflexivity.
Qed.

Lemma set_map_values : forall (h : DataFrame -> DataFrame) d k f,
  Dict.set k (h f) (map_values h d) = map_values h (Dict.set k f d).
Proof.
  intros h. induction d as [|[k' a] d IH]; intros k f; cbn; [reflexivity|].
  destruct (String.eqb k k'); cbn; [reflexivity|]. f_equal. apply IH.
Qed.

Lemma contains_map_values : forall (h : DataFrame -> DataFrame) d key,
  Dict.contains key (map_values h d) = Dict.contains key d.
Proof.
  intros h d key. unfold Dict.contains. rewrite get_map_values.
  now destruct (Dict.get key d).
Qed.

Lemma getitem_map_values : forall (h : DataFrame -> DataFrame) d key,
  Dict.getitem key (map_values h d)
  = match Dict.getitem key d with
    | Ok a => Ok (h a)
    | Raise e => Raise e
    end.
Proof.
  intros h d key. unfold Dict.getitem. rewrite get_map_values.
  now destruct (Dict.get key d).
Qed.

Lemma for_each_simulation :
  forall (K S T : Type) (h : S -> T)
         (body : K -> S -> outcome S) (body' : K -> T -> outcome T),
    (forall k s, body' k (h s) = outcome_map h (body k s)) ->
    forall ks s, for_each ks body' (h s) = outcome_map h (for_each ks body s).
Proof.
  intros K S T h body body' Hstep.
  induction ks as [|k ks IH]; intros s; cbn [for_each]; [reflexivity|].
  rewrite Hstep. destruct (body k s) as [s'|e s']; cbn [outcome_map]; [apply IH|].
  reflexivity.
Qed.

Section ShiftFacts.
Variable pd_nan : result cell.
Variable n : Z.

Lemma splice_known_shift : forall keep template theirs key mine,
  splice_known pd_nan keep template (option_map (map_values (shift n)) theirs) key (map_values (shift n) mine)
  = outcome_map (map_values (shift n)) (splice_known pd_nan keep template theirs key mine).
Proof.
  intros keep template theirs key mine. unfold splice_known.
  destruct theirs as [o|]; cbn [option_map in_ subscript try]; [|reflexivity].
  rewrite contains_map_values. destruct (Dict.contains key o).
  - rewrite !getitem_map_values.
    destruct (Dict.getitem key mine) as [a|e]; cbn [try outcome_map]; [|reflexivity].
    rewrite loc_shift.
    destruct (loc keep a) as [kept|e]; cbn [try outcome_map]; [|reflexivity].
    destruct (Dict.getitem key o) as [b|e]; cbn [try outcome_map]; [|reflexivity].
    now rewrite append_shift, set_map_values.
  - rewrite !getitem_map_values.
    destruct (Dict.getitem template o) as [t|e]; cbn [try outcome_map]; [|reflexivity].
    destruct pd_nan as [nan|e]; cbn [try outcome_map]; [|reflexivity].
    destruct (Dict.getitem key mine) as [a|e]; cbn [try outcome_map]; [|reflexivity].
    rewrite loc_shift.
    destruct (loc keep a) as [kept|e]; cbn [try outcome_map]; [|reflexivity].
    now rewrite mul_scalar_shift, append_shift, set_map_values.
Qed.

Lemma splice_new_shift : forall keep template o key mine,
  splice_new pd_nan keep template (map_values (shift n) o) key (map_values (shift n) mine)
  = outcome_map (map_values (shift n)) (splice_new pd_nan keep template o key mine).
Proof.
  intros keep template o key mine. unfold splice_new.
  rewrite contains_map_values. destruct (Dict.contains key mine); cbn [negb];
    [reflexivity|].
  rewrite !getitem_map_values.
  destruct (Dict.getitem template mine) as [t|e]; cbn [try outcome_map]; [|reflexivity].
  destruct pd_nan as [nan|e]; cbn [try outcome_map]; [|reflexivity].
  rewrite mul_scalar_shift, loc_shift.
  destruct (loc keep (mul_scalar t nan)) as [kept|e]; cbn [try outcome_map];
    [|reflexivity].
  destruct (Dict.getitem key o) as [b|e]; cbn [try outcome_map]; [|reflexivity].
  now rewrite append_shift, set_map_values.
Qed.

Lemma splice_shift : forall keep template mine theirs,
  splice pd_nan keep template (option_map (map_values (shift n)) mine) (option_map (map_values (shift n)) theirs)
  = outcome_map (option_map (map_values (shift n))) (splice pd_nan keep template mine theirs).
Proof.
  intros keep template mine theirs. unfold splice.
  destruct mine as [d|]; cbn [option_map outcome_map]; [|reflexivity].
  rewrite keys_map_values.
  rewrite (for_each_simulation _ _ _ (map_values (shift n))
             (splice_known pd_nan keep template theirs)
             (splice_known pd_nan keep template (option_map (map_values (shift n)) theirs)))
    by (intros; apply splice_known_shift).
  destruct (for_each (Dict.keys d) _ d) as [d'|e d']; cbn [outcome_map option_map];
    [|reflexivity].
  destruct theirs as [o|]; cbn [option_map outcome_map]; [|reflexivity].
  rewrite keys_map_values.
  rewrite (for_each_simulation _ _ _ (map_values (shift n))
             (splice_new pd_nan keep template o)
             (splice_new pd_nan keep template (map_values (shift n) o)))
    by (intros; apply splice_new_shift).
  destruct (for_each (Dict.keys o) _ d') as [d''|e d'']; reflexivity.
Qed.

(** X12: only relative time matters to [append_results_from].  With every
    index value of both objects moved by [n], the call ends the same way,
    returning or raising the same exception, and leaves [self] as the
    unmoved call leaves it, moved by [n].  This holds for every pair of
    objects, populated or not. *)
Theorem append_commutes_with_time_shift :
  forall (self other : SimulationResults),
    append_results_from pd_nan (shifted n self) (PyResults (shifted n other))
    = outcome_map (shifted n) (append_results_from pd_nan self (PyResults other)).
Proof.
  intros [stamp name time l nd] [stamp' name' time' l' nd'].
  unfold append_results_from, shifted.
  cbn [timestamp network_name sim_time link node].
  assert (Hsub : forall d key,
            subscript (option_map (map_values (shift n)) d) key
            = match subscript d key with
              | Ok a => Ok (shift n a)
              | Raise e => Raise e
              end).
  { intros [d|] key; cbn [option_map subscript]; [|reflexivity].
    apply getitem_map_values. }
  rewrite !Hsub.
  destruct (subscript nd' "head") as [hb|e]; cbn [try outcome_map]; [|reflexivity].
  rewrite index_shift.
  destruct (index hb) as [|start rest]; cbn [map first_value try outcome_map];
    [reflexivity|].
  destruct (subscript nd "head") as [ha|e]; cbn [try outcome_map]; [|reflexivity].
  rewrite index_shift, before_shift, splice_shift.
  destruct (splice pd_nan (before start (index ha)) "flowrate" l l') as [l1|e l1];
    cbn [outcome_map set_link timestamp network_name sim_time link node];
    [|reflexivity].
  rewrite splice_shift.
  destruct (splice pd_nan (before start (index ha)) "head" nd nd') as [n1|e n1];
    reflexivity.
Qed.

End ShiftFacts.

(** ** append_results_from: both loops, exactly *)

Lemma contains_same_keys : forall (d d' : Dict.t DataFrame) key,
  Dict.keys d = Dict.keys d' -> Dict.contains key d = Dict.contains key d'.
Proof.
  intros d d' key H.
  destruct (Dict.contains key d) eqn:E.
  - symmetry. apply contains_keys. rewrite <- H. now apply contains_keys.
  - symmetry. apply not_contains_keys. rewrite <- H. now apply not_contains_keys.
Qed.

Lemma keys_only_theirs : forall (mine o : Dict.t DataFrame),
  Dict.keys (only_theirs mine o)
  = filter (fun key => negb (Dict.contains key mine)) (Dict.keys o).
Proof.
  intros mine. unfold only_theirs, Dict.keys.
  induction o as [|[k b] o IH]; cbn [filter map fst]; [reflexivity|].
  destruct (Dict.contains k mine); cbn [negb map fst]; now rewrite IH.
Qed.

Lemma only_theirs_same_keys : forall (d d' o : Dict.t DataFrame),
  Dict.keys d = Dict.keys d' -> only_theirs d o = only_theirs d' o.
Proof.
  intros d d' o H. unfold only_theirs. apply filter_ext. intros entry.
  now rewrite (contains_same_keys d d' _ H).
Qed.

Lemma only_theirs_set_new : forall (mine suf : Dict.t DataFrame) k v,
  ~ In k (Dict.keys suf) ->
  only_theirs (mine ++ [(k, v)]) suf = only_theirs mine suf.
Proof.
  intros mine suf k v Hk. unfold only_theirs. apply filter_ext_in.
  intros [k' b] Hin. cbn [fst]. f_equal. unfold Dict.contains.
  rewrite get_app_new. destruct (Dict.get k' mine); [reflexivity|].
  destruct (String.eqb_spec k' k) as [->|Hne]; [|reflexivity].
  exfalso. apply Hk. unfold Dict.keys. now apply (in_map fst) in Hin.
Qed.

Section SpliceLoops.
Variable pd_nan : result cell.
Variable keep : list bool.
Variable template : string.

Lemma splice_known_all : forall (o mine : Dict.t DataFrame),
  NoDup (Dict.keys mine) ->
  for_each (Dict.keys mine) (splice_known pd_nan keep template (Some o)) mine
  = update_all (spliced pd_nan keep template o) mine.
Proof.
  intros o mine Hnd.
  pose proof (update_loop (spliced pd_nan keep template o)
                (splice_known pd_nan keep template (Some o))
                (fun mine k a Ha => splice_known_step pd_nan keep template o mine k a Ha)
                mine [] Hnd) as H.
  cbn [app] in H. rewrite H.
  now destruct (update_all (spliced pd_nan keep template o) mine).
Qed.

Lemma masked_template_set_new : forall (mine : Dict.t DataFrame) k v kept,
  masked_template pd_nan keep template mine = Ok kept ->
  masked_template pd_nan keep template (mine ++ [(k, v)]) = Ok kept.
Proof.
  intros mine k v kept. unfold masked_template, Dict.getitem.
  rewrite get_app_new. destruct (Dict.get template mine); [tauto | discriminate].
Qed.

Lemma splice_new_step : forall (o mine : Dict.t DataFrame) k b,
  Dict.contains k mine = false -> Dict.get k o = Some b ->
  splice_new pd_nan keep template o k mine
  = match masked_template pd_nan keep template mine with
    | Ok kept => Done (mine ++ [(k, append kept b)])
    | Raise e => Raised e mine
    end.
Proof.
  intros o mine k b Hk Hb. unfold splice_new, masked_template, Dict.getitem.
  rewrite Hk, Hb. cbn [negb].
  destruct (Dict.get template mine) as [t|]; cbn [try bind]; [|reflexivity].
  destruct pd_nan as [nan|e]; cbn [try bind]; [|reflexivity].
  destruct (loc keep (mul_scalar t nan)) as [kept|e]; cbn [try]; [|reflexivity].
  now rewrite set_new.
Qed.

(** Second loop: without a key to adopt nothing happens; otherwise one
    masked placeholder goes before every adopted frame, or the first key to
    adopt raises and nothing is adopted. *)
Lemma splice_new_all : forall (o : Dict.t DataFrame),
  NoDup (Dict.keys o) ->
  forall mine,
    for_each (Dict.keys o) (splice_new pd_nan keep template o) mine
    = match only_theirs mine o with
      | [] => Done mine
      | _ :: _ =>
          match masked_template pd_nan keep template mine with
          | Ok kept => Done (mine ++ map_values (append kept) (only_theirs mine o))
          | Raise e => Raised e mine
          end
      end.
Proof.
  intros o Hnd.
  assert (Hok : forall suf pre mine kept,
            o = pre ++ suf ->
            masked_template pd_nan keep template mine = Ok kept ->
            for_each (Dict.keys suf) (splice_new pd_nan keep template o) mine
            = Done (mine ++ map_values (append kept) (only_theirs mine suf))).
  { induction suf as [|[k b] suf IH]; intros pre mine kept Ho Hm.
    - cbn. now rewrite app_nil_r.
    - assert (Hb : Dict.get k o = Some b).
      { apply in_get; [exact Hnd|]. rewrite Ho. apply in_or_app. right. now left. }
      assert (Hfresh : ~ In k (Dict.keys suf)).
      { rewrite Ho, keys_app in Hnd. apply NoDup_app_remove_l in Hnd.
        now inversion Hnd. }
      cbn [Dict.keys map fst for_each]. fold (Dict.keys suf).
      unfold only_theirs. cbn [filter fst]. fold (only_theirs mine suf).
      destruct (Dict.contains k mine) eqn:Hk; cbn [negb].
      + unfold splice_new at 1. rewrite Hk. cbn [negb].
        apply (IH (pre ++ [(k, b)])); [now rewrite <- app_assoc | exact Hm].
      + rewrite (splice_new_step o mine k b Hk Hb), Hm.
        rewrite (IH (pre ++ [(k, b)]) _ kept);
          [|now rewrite <- app_assoc | now apply masked_template_set_new].
        rewrite only_theirs_set_new by exact Hfresh.
        cbn [map_values map fst snd]. now rewrite <- app_assoc. }
  assert (Hraise : forall suf pre mine e,
            o = pre ++ suf ->
            masked_template pd_nan keep template mine = Raise e ->
            for_each (Dict.keys suf) (splice_new pd_nan keep template o) mine
            = match only_theirs mine suf with
              | [] => Done mine
              | _ :: _ => Raised e mine
              end).
  { induction suf as [|[k b] suf IH]; intros pre mine e Ho Hm.
    - reflexivity.
    - assert (Hb : Dict.get k o = Some b).
      { apply in_get; [exact Hnd|]. rewrite Ho. apply in_or_app. right. now left. }
      cbn [Dict.keys map fst for_each]. fold (Dict.keys suf).
      unfold only_theirs. cbn [filter fst]. fold (only_theirs mine suf).
      destruct (Dict.contains k mine) eqn:Hk; cbn [negb].
      + unfold splice_new at 1. rewrite Hk. cbn [negb].
        apply (IH (pre ++ [(k, b)])); [now rewrite <- app_assoc | exact Hm].
      + now rewrite (splice_new_step o mine k b Hk Hb), Hm. }
  intros mine.
  destruct (masked_template pd_nan keep template mine) as [kept|e] eqn:Hm.
  - rewrite (Hok o [] mine kept eq_refl Hm).
    destruct (only_theirs mine o); [|reflexivity].
    cbn. now rewrite app_nil_r.
  - now rewrite (Hraise o [] mine e eq_refl Hm).
Qed.

(** Both loops over one dictionary. *)
Lemma splice_all : forall (mine o : Dict.t DataFrame),
  NoDup (Dict.keys mine) -> NoDup (Dict.keys o) ->
  splice pd_nan keep template (Some mine) (Some o)
  = outcome_map Some (merged pd_nan keep template mine o).
Proof.
  intros mine o Hndm Hndo. unfold splice, merged.
  pose proof (splice_known_loop pd_nan keep template o (Dict.keys mine) mine Hndm
                (fun k H => H)) as Hkeys.
  rewrite (splice_known_all o mine Hndm) in *.
  destruct (update_all (spliced pd_nan keep template o) mine) as [d|e d];
    [|reflexivity].
  destruct Hkeys as [Hkeys _].
  rewrite (splice_new_all o Hndo d).
  rewrite (only_theirs_same_keys d mine o Hkeys).
  destruct (only_theirs mine o); [reflexivity|].
  now destruct (masked_template pd_nan keep template d).
Qed.

Lemma update_all_done : forall g (d0 d : Dict.t DataFrame),
  update_all g d0 = Done d ->
  Dict.keys d = Dict.keys d0
  /\ (forall k f, In (k, f) d -> exists a, In (k, a) d0 /\ g k a = Ok f)
  /\ (forall k a, In (k, a) d0 -> exists f, In (k, f) d /\ g k a = Ok f).
Proof.
  intros g. induction d0 as [|[k a] d0 IH]; intros d H; cbn [update_all] in H.
  - injection H as <-. repeat split; intros ? ? [].
  - destruct (g k a) as [f|e] eqn:Hg; [|discriminate].
    destruct (update_all g d0) as [r|e r]; [|discriminate].
    injection H as <-. destruct (IH r eq_refl) as [Hk [Hin Hout]].
    split; [unfold Dict.keys in *; cbn [map fst]; now rewrite Hk|]. split.
    + intros k' f' [[= <- <-]|Hin'].
      * exists a. split; [now left | exact Hg].
      * destruct (Hin k' f' Hin') as [a' [Ha' Hg']].
        exists a'. split; [now right | exact Hg'].
    + intros k' a' [[= <- <-]|Hin'].
      * exists f. split; [now left | exact Hg].
      * destruct (Hout k' a' Hin') as [f' [Hf' Hg']].
        exists f'. split; [now right | exact Hg'].
Qed.

Lemma merged_done : forall (mine o r : Dict.t DataFrame),
  merged pd_nan keep template mine o = Done r ->
  exists d,
    update_all (spliced pd_nan keep template o) mine = Done d
    /\ ((only_theirs mine o = [] /\ r = d)
        \/ (only_theirs mine o <> []
            /\ exists kept,
                 masked_template pd_nan keep template d = Ok kept
                 /\ r = d ++ map_values (append kept) (only_theirs mine o))).
Proof.
  intros mine o r H. unfold merged in H.
  destruct (update_all (spliced pd_nan keep template o) mine) as [d|e d];
    [|discriminate].
  exists d. split; [reflexivity|].
  destruct (only_theirs mine o) as [|entry rest] eqn:Hnew.
  - left. split; [reflexivity | congruence].
  - right. split; [discriminate|].
    destruct (masked_template pd_nan keep template d) as [kept|e]; [|discriminate].
    exists kept. split; [reflexivity | congruence].
Qed.

Lemma spliced_ok : forall (o : Dict.t DataFrame) key a f,
  spliced pd_nan keep template o key a = Ok f <->
  exists kept y,
    loc keep a = Ok kept
    /\ continuation pd_nan template o key = Ok y
    /\ f = append kept y.
Proof.
  intros o key a f. unfold spliced, continuation.
  destruct (Dict.get key o) as [b|].
  - destruct (loc keep a) as [kept|e]; cbn [bind]; split.
    + intros [= <-]. eauto.
    + intros [kept' [y [[= <-] [[= <-] ->]]]]. reflexivity.
    + discriminate.
    + intros [kept' [y [H _]]]. discriminate.
  - destruct (Dict.getitem template o) as [t|e]; cbn [bind].
    + destruct pd_nan as [nan|e]; cbn [bind].
      * destruct (loc keep a) as [kept|e]; cbn [bind]; split.
        -- intros [= <-]. eauto.
        -- intros [kept' [y [[= <-] [[= <-] ->]]]]. reflexivity.
        -- discriminate.
        -- intros [kept' [y [H _]]]. discriminate.
      * split; [discriminate|]. intros [kept' [y [_ [H _]]]]. discriminate.
    + split; [discriminate|]. intros [kept' [y [_ [H _]]]]. discriminate.
Qed.

End SpliceLoops.

Lemma merged_keys : forall pd_nan keep template (mine o r : Dict.t DataFrame),
  merged pd_nan keep template mine o = Done r ->
  Dict.keys r
  = Dict.keys mine ++ filter (fun key => negb (Dict.contains key mine)) (Dict.keys o).
Proof.
  intros pd_nan keep template mine o r H.
  destruct (merged_done pd_nan keep template mine o r H)
    as [d [Hd [[Hnew ->]|[_ [kept [_ ->]]]]]];
    destruct (update_all_done _ mine d Hd) as [Hkeys _];
    rewrite <- keys_only_theirs.
  - rewrite Hnew. cbn. now rewrite app_nil_r.
  - now rewrite keys_app, keys_map_values, Hkeys.
Qed.

Section AppendExact.
Variable pd_nan : result cell.

(** The call on two populated objects with both ['head'] frames, in terms
    of the two merged dictionaries. *)
Lemma append_exact :
  forall self other la na lb nb ha hb start rest,
    link self = Some la -> node self = Some na ->
    link other = Some lb -> node other = Some nb ->
    NoDup (Dict.keys la) -> NoDup (Dict.keys na) ->
    NoDup (Dict.keys lb) -> NoDup (Dict.keys nb) ->
    Dict.get "head" na = Some ha -> Dict.get "head" nb = Some hb ->
    index hb = start :: rest ->
    append_results_from pd_nan self (PyResults other)
    = match merged pd_nan (before start (index ha)) "flowrate" la lb with
      | Raised e l => Raised e (set_link self (Some l))
      | Done l =>
          match merged pd_nan (before start (index ha)) "head" na nb with
          | Raised e n => Raised e (set_node (set_link self (Some l)) (Some n))
          | Done n => Done (set_node (set_link self (Some l)) (Some n))
          end
      end.
Proof.
  intros self other la na lb nb ha hb start rest Hla Hna Hlb Hnb
    Hndl Hndn Hndlb Hndnb Hha Hhb Hidx.
  rewrite (append_results_from_unfold pd_nan self other na nb ha hb start rest)
    by assumption.
  cbv zeta. rewrite Hla, Hlb.
  rewrite (splice_all pd_nan _ "flowrate" la lb Hndl Hndlb).
  rewrite (splice_all pd_nan _ "head" na nb Hndn Hndnb).
  destruct (merged pd_nan (before start (index ha)) "flowrate" la lb) as [l|e l];
    cbn [outcome_map]; [|reflexivity].
  now destruct (merged pd_nan (before start (index ha)) "head" na nb).
Qed.

(** A call that returns has found both ['head'] frames and merged both
    dictionaries. *)
Lemma append_done :
  forall self other la na lb nb self',
    link self = Some la -> node self = Some na ->
    link other = Some lb -> node other = Some nb ->
    NoDup (Dict.keys la) -> NoDup (Dict.keys na) ->
    NoDup (Dict.keys lb) -> NoDup (Dict.keys nb) ->
    append_results_from pd_nan self (PyResults other) = Done self' ->
    exists ha hb start rest la' na',
      Dict.get "head" na = Some ha /\ Dict.get "head" nb = Some hb
      /\ index hb = start :: rest
      /\ merged pd_nan (before start (index ha)) "flowrate" la lb = Done la'
      /\ merged pd_nan (before start (index ha)) "head" na nb = Done na'
      /\ self' = set_node (set_link self (Some la')) (Some na').
Proof.
  intros self other la na lb nb self' Hla Hna Hlb Hnb Hndl Hndn Hndlb Hndnb Hrun.
  destruct (Dict.get "head" na) as [ha|] eqn:Hha;
    [|destruct (append_head_missing pd_nan self other na nb Hna Hnb (or_introl Hha))
        as [e [He _]]; congruence].
  destruct (Dict.get "head" nb) as [hb|] eqn:Hhb;
    [|destruct (append_head_missing pd_nan self other na nb Hna Hnb (or_intror Hhb))
        as [e [He _]]; congruence].
  destruct (index hb) as [|start rest] eqn:Hidx.
  - exfalso. unfold append_results_from, subscript, Dict.getitem in Hrun.
    rewrite Hnb, Hhb in Hrun. cbn [try] in Hrun. rewrite Hidx in Hrun.
    discriminate Hrun.
  - rewrite (append_exact self other la na lb nb ha hb start rest) in Hrun
      by assumption.
    destruct (merged pd_nan (before start (index ha)) "flowrate" la lb) as [l|e l]
      eqn:Hl; [|discriminate].
    destruct (merged pd_nan (before start (index ha)) "head" na nb) as [n|e n]
      eqn:Hn; [|discriminate].
    injection Hrun as <-.
    exists ha, hb, start, rest, l, n. repeat split; try reflexivity; assumption.
Qed.

(** X13: whenever [A.append_results_from(B)] returns, the dictionaries of
    [A] list the keys [A] had, in their old order, followed by the keys that
    only [B] had, in [B]'s order; the timestamp, the network name and the
    simulation time of [A] are as before. *)
Theorem append_keeps_keys_and_adds_new_last :
  forall (self other self' : SimulationResults) (la na lb nb : Dict.t DataFrame),
    link self = Some la -> node self = Some na ->
    link other = Some lb -> node other = Some nb ->
    NoDup (Dict.keys la) -> NoDup (Dict.keys na) ->
    NoDup (Dict.keys lb) -> NoDup (Dict.keys nb) ->
    append_results_from pd_nan self (PyResults other) = Done self' ->
    exists la' na',
      self' = mkResults (timestamp self) (network_name self) (sim_time self)
                (Some la') (Some na')
      /\ Dict.keys la'
         = Dict.keys la
           ++ filter (fun key => negb (Dict.contains key la)) (Dict.keys lb)
      /\ Dict.keys na'
         = Dict.keys na
           ++ filter (fun key => negb (Dict.contains key na)) (Dict.keys nb)
      /\ NoDup (Dict.keys la') /\ NoDup (Dict.keys na').
Proof.
  intros self other self' la na lb nb Hla Hna Hlb Hnb Hndl Hndn Hndlb Hndnb Hrun.
  destruct (append_done self other la na lb nb self')
    as (ha & hb & start & rest & la' & na' & _ & _ & _ & Hl & Hn & ->);
    try assumption.
  assert (Hnd : forall (d o : Dict.t DataFrame),
            NoDup (Dict.keys d) -> NoDup (Dict.keys o) ->
            NoDup (Dict.keys d
                   ++ filter (fun key => negb (Dict.contains key d)) (Dict.keys o))).
  { intros d o Hd Ho. apply NoDup_app; [exact Hd | |].
    - clear - Ho. induction (Dict.keys o) as [|k ks IH]; cbn [filter];
        [constructor|].
      inversion Ho as [|? ? Hk Hks]; subst.
      destruct (negb (Dict.contains k d)); [|now apply IH].
      constructor; [|now apply IH].
      intros H. apply filter_In in H. tauto.
    - intros key Hin Hin'. apply filter_In in Hin'. destruct Hin' as [_ Hc].
      apply contains_keys in Hin. rewrite Hin in Hc. discriminate. }
  exists la', na'. split; [reflexivity|].
  rewrite (merged_keys _ _ _ _ _ _ Hl), (merged_keys _ _ _ _ _ _ Hn).
  repeat split; now apply Hnd.
Qed.

End AppendExact.

(** ** append_results_from: the shape of the frames it leaves *)

Lemma increasing_cons : forall t ts,
  increasing (t :: ts) = true
  <-> (forall u, In u ts -> t < u) /\ increasing ts = true.
Proof.
  intros t ts. split.
  - intros H. split.
    + intros u Hu. now apply (increasing_head t ts u).
    + now apply (increasing_tail t ts).
  - intros [Hlt Hinc]. destruct ts as [|t' ts]; [reflexivity|].
    change (increasing (t :: t' :: ts)) with ((t <? t') && increasing (t' :: ts)).
    rewrite Hinc, andb_true_r. apply Z.ltb_lt. apply Hlt. now left.
Qed.

Lemma increasing_filter : forall (p : Z -> bool) ts,
  increasing ts = true -> increasing (filter p ts) = true.
Proof.
  intros p. induction ts as [|t ts IH]; intros H; [reflexivity|].
  apply increasing_cons in H. destruct H as [Hlt Hinc]. cbn [filter].
  destruct (p t); [|now apply IH].
  apply increasing_cons. split; [|now apply IH].
  intros u Hu. apply filter_In in Hu. apply Hlt. tauto.
Qed.

Lemma increasing_app : forall xs ys,
  increasing xs = true -> increasing ys = true ->
  (forall x y, In x xs -> In y ys -> x < y) ->
  increasing (xs ++ ys) = true.
Proof.
  induction xs as [|t xs IH]; intros ys Hx Hy Hlt; [exact Hy|].
  apply increasing_cons in Hx. destruct Hx as [Hhead Hinc].
  cbn [app]. apply increasing_cons. split.
  - intros u Hu. apply in_app_or in Hu. destruct Hu as [Hu|Hu].
    + now apply Hhead.
    + apply Hlt; [now left | assumption].
  - apply IH; [assumption | assumption |].
    intros x y Hx' Hy'. apply Hlt; [now right | assumption].
Qed.

Lemma starts_at : forall start rest t,
  increasing (start :: rest) = true -> In t (start :: rest) -> start <= t.
Proof.
  intros start rest t Hinc [<-|Hin]; [lia|].
  pose proof (increasing_head start rest t Hinc Hin). lia.
Qed.

Lemma cut_index_increasing : forall ta start rest,
  increasing ta = true -> increasing (start :: rest) = true ->
  increasing (filter (fun t => t <? start) ta ++ start :: rest) = true.
Proof.
  intros ta start rest Hta Htb. apply increasing_app.
  - now apply increasing_filter.
  - exact Htb.
  - intros x y Hx Hy. apply filter_In in Hx. destruct Hx as [_ Hx].
    apply Z.ltb_lt in Hx. pose proof (starts_at start rest y Htb Hy). lia.
Qed.

Lemma filter_all : forall (A : Type) (p : A -> bool) l,
  (forall x, In x l -> p x = true) -> filter p l = l.
Proof.
  intros A p. induction l as [|x l IH]; intros H; cbn [filter]; [reflexivity|].
  rewrite (H x) by now left. f_equal. apply IH. intros y Hy. apply H. now right.
Qed.

Lemma filter_none : forall (A : Type) (p : A -> bool) l,
  (forall x, In x l -> p x = false) -> filter p l = [].
Proof.
  intros A p. induction l as [|x l IH]; intros H; cbn [filter]; [reflexivity|].
  rewrite (H x) by now left. apply IH. intros y Hy. apply H. now right.
Qed.

Lemma select_none_before : forall (A : Type) start ts (rs : list A),
  (forall u, In u ts -> start <= u) -> select (before start ts) rs = [].
Proof.
  intros A start. induction ts as [|t ts IH]; intros rs H; [reflexivity|].
  destruct rs as [|r rs]; [reflexivity|]. cbn [before map select].
  destruct (Z.ltb_spec t start) as [Hlt|_].
  - specialize (H t (or_introl eq_refl)). lia.
  - apply IH. intros u Hu. apply H. now right.
Qed.

(** Under the mask of an increasing index, a list that starts with as many
    rows as the index has values before [start] keeps exactly those. *)
Lemma select_before_prefix : forall (A : Type) start ts (r1 r2 : list A),
  increasing ts = true ->
  List.length r1 = List.length (filter (fun t => t <? start) ts) ->
  select (before start ts) (r1 ++ r2) = r1.
Proof.
  intros A start. induction ts as [|t ts IH]; intros r1 r2 Hinc Hlen.
  - destruct r1; [reflexivity | discriminate].
  - apply increasing_cons in Hinc. destruct Hinc as [Hhead Hinc].
    cbn [filter] in Hlen. cbn [before map].
    destruct (Z.ltb_spec t start) as [Hlt|Hge].
    + destruct r1 as [|r r1]; [discriminate|]. cbn [app select]. f_equal.
      apply IH; [assumption|]. now injection Hlen.
    + assert (Hnone : filter (fun u => u <? start) ts = []).
      { apply filter_none. intros u Hu. apply Z.ltb_ge.
        specialize (Hhead u Hu). lia. }
      rewrite Hnone in Hlen. destruct r1; [|discriminate]. cbn [app].
      destruct r2 as [|r r2]; [reflexivity|]. cbn [select].
      apply (select_none_before A start ts r2).
      intros u Hu. specialize (Hhead u Hu). lia.
Qed.

Lemma union_columns_absorb : forall a b,
  union_columns (union_columns a b) b = union_columns a b.
Proof.
  intros a b. unfold union_columns at 1.
  rewrite (filter_none _ _ b); [apply app_nil_r|].
  intros c Hc. apply negb_false_iff, existsb_exists.
  exists c. split; [now apply union_columns_right | apply String.eqb_refl].
Qed.

Lemma reindex_again : forall cols new r,
  reindex new new (reindex cols new r) = reindex cols new r.
Proof.
  intros cols new [t r]. unfold reindex. cbn [fst snd]. f_equal.
  apply map_ext_in. intros c Hc. now apply cell_of_reindex.
Qed.

(** A frame made of rows before [start] followed by a frame that starts at
    [start] is left as it is by another splice with the same continuation. *)
Lemma resplice : forall start rest x y,
  (forall t, In t (index x) -> t < start) ->
  index y = start :: rest -> increasing (start :: rest) = true ->
  exists kept,
    loc (before start (index x ++ start :: rest)) (append x y) = Ok kept
    /\ append kept y = append x y.
Proof.
  intros start rest x y Hx Hy Hinc.
  assert (Hidx : index (append x y) = index x ++ start :: rest).
  { now rewrite index_append, Hy. }
  rewrite (loc_before start (append x y) _ Hidx).
  eexists. split; [reflexivity|].
  unfold append at 2 3. cbn [rows columns].
  rewrite filter_app.
  rewrite (filter_all _ _ (map (reindex (columns x) _) (rows x))).
  2:{ intros r Hr. apply in_map_iff in Hr. destruct Hr as [r' [<- Hr']].
      apply Z.ltb_lt. unfold reindex. cbn [fst]. apply Hx.
      unfold index. now apply in_map. }
  rewrite (filter_none _ _ (map (reindex (columns y) _) (rows y))).
  2:{ intros r Hr. apply in_map_iff in Hr. destruct Hr as [r' [<- Hr']].
      apply Z.ltb_ge. unfold reindex. cbn [fst].
      apply (starts_at start rest); [exact Hinc|].
      rewrite <- Hy. unfold index. now apply in_map. }
  rewrite app_nil_r. unfold append. cbn [rows columns].
  rewrite union_columns_absorb. f_equal. f_equal.
  rewrite map_map. apply map_ext. intros r. apply reindex_again.
Qed.

Lemma get_only_theirs : forall (mine o : Dict.t DataFrame) key,
  Dict.contains key mine = false ->
  Dict.get key (only_theirs mine o) = Dict.get key o.
Proof.
  intros mine o key Hkey. unfold only_theirs.
  induction o as [|[k b] o IH]; cbn [filter fst]; [reflexivity|].
  destruct (String.eqb_spec key k) as [->|Hne].
  - rewrite Hkey. cbn [negb Dict.get]. now rewrite String.eqb_refl.
  - apply String.eqb_neq in Hne.
    destruct (negb (Dict.contains k mine)); cbn [Dict.get]; now rewrite Hne, IH.
Qed.

Lemma in_only_theirs : forall (mine o : Dict.t DataFrame) k b,
  In (k, b) (only_theirs mine o) -> In (k, b) o /\ Dict.contains k mine = false.
Proof.
  intros mine o k b H. unfold only_theirs in H. apply filter_In in H.
  cbn [fst] in H. destruct H as [H Hc]. split; [exact H|].
  now apply negb_true_iff.
Qed.

Section MergedFacts.
Variable pd_nan : result cell.
Variable template : string.
Variables (ta : list Z) (start : Z) (rest : list Z).
Hypothesis ta_increasing : increasing ta = true.
Hypothesis tb_increasing : increasing (start :: rest) = true.

Lemma continuation_index : forall (o : Dict.t DataFrame) key y,
  indexed_by (start :: rest) o ->
  continuation pd_nan template o key = Ok y -> index y = start :: rest.
Proof.
  intros o key y Ho. unfold continuation, Dict.getitem.
  destruct (Dict.get key o) as [b|] eqn:Hb.
  - intros [= <-]. exact (Ho key b Hb).
  - destruct (Dict.get template o) as [t|] eqn:Ht; cbn [bind]; [|discriminate].
    destruct pd_nan as [nan|]; cbn [bind]; [|discriminate].
    intros [= <-]. rewrite index_mul_scalar. exact (Ho template t Ht).
Qed.

(** A spliced frame: rows before [start], then the continuation. *)
Lemma spliced_shape : forall (o : Dict.t DataFrame) key a f,
  index a = ta -> indexed_by (start :: rest) o ->
  spliced pd_nan (before start ta) template o key a = Ok f ->
  exists x y,
    f = append x y
    /\ index x = filter (fun t => t <? start) ta
    /\ index y = start :: rest
    /\ continuation pd_nan template o key = Ok y.
Proof.
  intros o key a f Ha Ho Hf.
  apply spliced_ok in Hf. destruct Hf as [kept [y [Hkept [Hy ->]]]].
  rewrite (loc_before start a ta Ha) in Hkept. injection Hkept as <-.
  exists (mkFrame (columns a) (filter (fun r => fst r <? start) (rows a))), y.
  split; [reflexivity|]. split; [|split].
  - unfold index. cbn [rows]. rewrite index_filter. fold (index a). now rewrite Ha.
  - exact (continuation_index o key y Ho Hy).
  - exact Hy.
Qed.

(** The masked placeholder, cut from a frame of that shape. *)
Lemma masked_shape : forall (d : Dict.t DataFrame) x y kept,
  Dict.get template d = Some (append x y) ->
  index x = filter (fun t => t <? start) ta ->
  masked_template pd_nan (before start ta) template d = Ok kept ->
  index kept = filter (fun t => t <? start) ta
  /\ List.length ta = List.length (rows (append x y))
  /\ exists nan,
       pd_nan = Ok nan
       /\ kept = mkFrame (columns (append x y))
                   (map (fun r => (fst r, map (fun c => cell_mul c nan) (snd r)))
                      (map (reindex (columns x) (columns (append x y))) (rows x))).
Proof.
  intros d x y kept Ht Hx Hm. unfold masked_template, Dict.getitem in Hm.
  rewrite Ht in Hm. cbn [bind] in Hm.
  destruct pd_nan as [nan|]; cbn [bind] in Hm; [|discriminate].
  unfold loc in Hm.
  destruct (Nat.eqb_spec (List.length (before start ta))
              (List.length (rows (mul_scalar (append x y) nan)))) as [Hlen|];
    [|discriminate].
  assert (Hrows : select (before start ta) (rows (mul_scalar (append x y) nan))
                  = map (fun r => (fst r, map (fun c => cell_mul c nan) (snd r)))
                      (map (reindex (columns x) (columns (append x y))) (rows x))).
  { unfold mul_scalar. cbn [rows]. rewrite select_map. f_equal.
    unfold append. cbn [rows columns].
    apply select_before_prefix; [exact ta_increasing|].
    rewrite length_map, <- Hx. unfold index. now rewrite length_map. }
  rewrite Hrows in Hm. injection Hm as <-.
  split; [|split].
  - unfold index at 1. cbn [rows]. rewrite !map_map. rewrite <- Hx.
    unfold index. apply map_ext. intros [t r]. reflexivity.
  - rewrite length_before in Hlen. rewrite Hlen. unfold mul_scalar. cbn [rows].
    now rewrite length_map.
  - exists nan. split; reflexivity.
Qed.

(** Every frame of a merged dictionary is made of rows before [start]
    followed by what a second splice would continue it with. *)
Lemma merged_frames : forall (mine o r : Dict.t DataFrame),
  NoDup (Dict.keys mine) -> NoDup (Dict.keys o) ->
  indexed_by ta mine -> indexed_by (start :: rest) o ->
  merged pd_nan (before start ta) template mine o = Done r ->
  forall k f, In (k, f) r ->
    exists x y,
      f = append x y
      /\ index x = filter (fun t => t <? start) ta
      /\ index y = start :: rest
      /\ continuation pd_nan template o k = Ok y.
Proof.
  intros mine o r Hndm Hndo Hmine Ho Hr.
  destruct (merged_done pd_nan _ template mine o r Hr) as [d [Hd Hcases]].
  destruct (update_all_done _ mine d Hd) as [Hkeys [Hin _]].
  assert (Hd_frames : forall k f, In (k, f) d ->
            exists x y,
              f = append x y
              /\ index x = filter (fun t => t <? start) ta
              /\ index y = start :: rest
              /\ continuation pd_nan template o k = Ok y).
  { intros k f Hf. destruct (Hin k f Hf) as [a [Ha Hs]].
    apply (spliced_shape o k a f); [|exact Ho | exact Hs].
    apply (Hmine k a). now apply in_get. }
  destruct Hcases as [[_ ->]|[_ [kept [Hm ->]]]]; [exact Hd_frames|].
  intros k f Hf. apply in_app_or in Hf. destruct Hf as [Hf|Hf];
    [now apply Hd_frames|].
  unfold map_values in Hf. apply in_map_iff in Hf.
  destruct Hf as [[k' b] [[= <- <-] Hb]]. cbn [fst snd].
  apply in_only_theirs in Hb. destruct Hb as [Hb _].
  assert (Hget : Dict.get k' o = Some b) by now apply in_get.
  assert (Ht : exists t, Dict.get template d = Some t).
  { unfold masked_template, Dict.getitem in Hm.
    destruct (Dict.get template d) as [t|]; [eauto | discriminate]. }
  destruct Ht as [t Ht].
  destruct (Hd_frames template t (get_in _ _ _ Ht)) as [x [y [-> [Hx _]]]].
  destruct (masked_shape d x y kept Ht Hx Hm) as [Hkept _].
  exists kept, b. split; [reflexivity|]. split; [exact Hkept|]. split.
  - exact (Ho k' b Hget).
  - unfold continuation. now rewrite Hget.
Qed.


End MergedFacts.

Lemma NoDup_keys_merged : forall pd_nan keep template (mine o r : Dict.t DataFrame),
  NoDup (Dict.keys mine) -> NoDup (Dict.keys o) ->
  merged pd_nan keep template mine o = Done r ->
  NoDup (Dict.keys r).
Proof.
  intros pd_nan keep template mine o r Hd Ho Hr.
  rewrite (merged_keys _ _ _ _ _ _ Hr).
  apply NoDup_app; [exact Hd | |].
  - clear - Ho. induction (Dict.keys o) as [|k ks IH]; cbn [filter];
      [constructor|].
    inversion Ho as [|? ? Hk Hks]; subst.
    destruct (negb (Dict.contains k mine)); [|now apply IH].
    constructor; [|now apply IH].
    intros H. apply filter_In in H. tauto.
  - intros key Hin Hin'. apply filter_In in Hin'. destruct Hin' as [_ Hc].
    apply contains_keys in Hin. rewrite Hin in Hc. discriminate.
Qed.

Lemma merged_covers : forall pd_nan keep template (mine o r : Dict.t DataFrame),
  merged pd_nan keep template mine o = Done r ->
  (forall key, In key (Dict.keys mine) -> In key (Dict.keys r))
  /\ (forall key, In key (Dict.keys o) -> In key (Dict.keys r)).
Proof.
  intros pd_nan keep template mine o r Hr.
  rewrite (merged_keys _ _ _ _ _ _ Hr). split; intros key Hkey; apply in_or_app.
  - now left.
  - destruct (Dict.contains key mine) eqn:Hc.
    + left. now apply contains_keys.
    + right. apply filter_In. split; [exact Hkey|]. now rewrite Hc.
Qed.

Section AppendShape.
Variable pd_nan : result cell.

(** A returning call on two objects that each carry one increasing time
    index: the two merges it has made. *)
Lemma append_done_indexed :
  forall self other self' ta tb la na lb nb,
    time_indexed self ta la na -> time_indexed other tb lb nb ->
    append_results_from pd_nan self (PyResults other) = Done self' ->
    exists start rest la' na',
      tb = start :: rest
      /\ merged pd_nan (before start ta) "flowrate" la lb = Done la'
      /\ merged pd_nan (before start ta) "head" na nb = Done na'
      /\ self' = set_node (set_link self (Some la')) (Some na')
      /\ Dict.contains "head" na = true /\ Dict.contains "head" nb = true.
Proof.
  intros self other self' ta tb la na lb nb
    (Hla & Hna & Hndl & Hndn & Hil & Hin & Hta)
    (Hlb & Hnb & Hndlb & Hndnb & Hjl & Hjn & Htb) Hrun.
  destruct (append_done pd_nan self other la na lb nb self')
    as (ha & hb & start & rest & la' & na' & Hha & Hhb & Hidx & Hl & Hn & ->);
    try assumption.
  rewrite (Hin _ _ Hha) in Hl, Hn. rewrite (Hjn _ _ Hhb) in Hidx.
  exists start, rest, la', na'. repeat split; try assumption.
  - apply contains_get. eauto.
  - apply contains_get. eauto.
Qed.

Lemma merged_indexed : forall template ta start rest (mine o r : Dict.t DataFrame),
  increasing ta = true ->
  NoDup (Dict.keys mine) -> NoDup (Dict.keys o) ->
  indexed_by ta mine -> indexed_by (start :: rest) o ->
  merged pd_nan (before start ta) template mine o = Done r ->
  indexed_by (filter (fun t => t <? start) ta ++ start :: rest) r.
Proof.
  intros template ta start rest mine o r Hta Hndm Hndo Hmine Ho Hr key f Hf.
  destruct (merged_frames pd_nan template ta start rest Hta mine o r
              Hndm Hndo Hmine Ho Hr key f (get_in _ _ _ Hf))
    as [x [y [-> [Hx [Hy _]]]]].
  now rewrite index_append, Hx, Hy.
Qed.

Lemma append_done_time_indexed :
  forall self other self' ta tb la na lb nb,
    time_indexed self ta la na -> time_indexed other tb lb nb ->
    append_results_from pd_nan self (PyResults other) = Done self' ->
    exists start rest la' na',
      tb = start :: rest
      /\ time_indexed self' (filter (fun t => t <? start) ta ++ tb) la' na'.
Proof.
  intros self other self' ta tb la na lb nb HA HB Hrun.
  destruct (append_done_indexed self other self' ta tb la na lb nb HA HB Hrun)
    as (start & rest & la' & na' & -> & Hl & Hn & -> & _).
  destruct HA as (Hla & Hna & Hndl & Hndn & Hil & Hin & Hta).
  destruct HB as (Hlb & Hnb & Hndlb & Hndnb & Hjl & Hjn & Htb).
  exists start, rest, la', na'. split; [reflexivity|].
  repeat split.
  - exact (NoDup_keys_merged _ _ _ _ _ _ Hndl Hndlb Hl).
  - exact (NoDup_keys_merged _ _ _ _ _ _ Hndn Hndnb Hn).
  - exact (merged_indexed _ _ _ _ _ _ _ Hta Hndl Hndlb Hil Hjl Hl).
  - exact (merged_indexed _ _ _ _ _ _ _ Hta Hndn Hndnb Hin Hjn Hn).
  - now apply cut_index_increasing.
Qed.

(** X14: a returning call keeps [A] fit for the next one.  When [A] and [B]
    each carry one strictly increasing time index, every frame of [A]
    afterwards, under old keys and new ones alike, carries the index made of
    [A]'s times before the start of [B] followed by [B]'s times, which is
    again strictly increasing.  If [B] starts after the last time of [A]
    nothing is dropped; if [B] starts no later than [A] does, only [B]'s
    times remain. *)
Theorem append_keeps_one_time_index :
  forall (self other self' : SimulationResults) (ta tb : list Z)
         (la na lb nb : Dict.t DataFrame),
    time_indexed self ta la na -> time_indexed other tb lb nb ->
    append_results_from pd_nan self (PyResults other) = Done self' ->
    exists start rest la' na',
      tb = start :: rest
      /\ time_indexed self' (filter (fun t => t <? start) ta ++ tb) la' na'
      /\ ((forall t, In t ta -> t < start) -> time_indexed self' (ta ++ tb) la' na')
      /\ ((forall t, In t ta -> start <= t) -> time_indexed self' tb la' na').
Proof.
  intros self other self' ta tb la na lb nb HA HB Hrun.
  destruct (append_done_time_indexed self other self' ta tb la na lb nb HA HB Hrun)
    as (start & rest & la' & na' & Htb & H).
  exists start, rest, la', na'. split; [exact Htb|]. split; [exact H|]. split.
  - intros Hall. rewrite filter_all in H; [exact H|].
    intros t Ht. apply Z.ltb_lt. now apply Hall.
  - intros Hall. rewrite filter_none in H; [exact H|].
    intros t Ht. apply Z.ltb_ge. now apply Hall.
Qed.


Lemma merged_again : forall template ta start rest (mine o r : Dict.t DataFrame),
  increasing ta = true -> increasing (start :: rest) = true ->
  NoDup (Dict.keys mine) -> NoDup (Dict.keys o) ->
  indexed_by ta mine -> indexed_by (start :: rest) o ->
  merged pd_nan (before start ta) template mine o = Done r ->
  merged pd_nan (before start (filter (fun t => t <? start) ta ++ start :: rest))
    template r o = Done r.
Proof.
  intros template ta start rest mine o r Hta Htb Hndm Hndo Hmine Ho Hr.
  unfold merged.
  rewrite update_all_fixed.
  - unfold only_theirs. rewrite (filter_none _ _ o); [reflexivity|].
    intros [k b] Hin. cbn [fst]. apply negb_false_iff, contains_keys.
    apply (proj2 (merged_covers _ _ _ _ _ _ Hr)).
    unfold Dict.keys. now apply (in_map fst) in Hin.
  - intros k f Hf.
    destruct (merged_frames pd_nan template ta start rest Hta mine o r
                Hndm Hndo Hmine Ho Hr k f Hf)
      as [x [y [-> [Hx [Hy Hc]]]]].
    destruct (resplice start rest x y) as [kept [Hkept Happ]];
      [|exact Hy | exact Htb |].
    + intros t Ht. rewrite Hx in Ht. apply filter_In in Ht.
      now apply Z.ltb_lt.
    + apply spliced_ok. exists kept, y. rewrite <- Hx.
      repeat split; [exact Hkept | exact Hc | now symmetry].
Qed.

(** X16: appending the same results a second time changes nothing.  When
    [A] and [B] each carry one strictly increasing time index and
    [A.append_results_from(B)] returns, the same call made again returns
    too and leaves [A] exactly as the first call left it. *)
Theorem append_twice_is_append_once :
  forall (self other self' : SimulationResults) (ta tb : list Z)
         (la na lb nb : Dict.t DataFrame),
    time_indexed self ta la na -> time_indexed other tb lb nb ->
    append_results_from pd_nan self (PyResults other) = Done self' ->
    append_results_from pd_nan self' (PyResults other) = Done self'.
Proof.
  intros self other self' ta tb la na lb nb HA HB Hrun.
  destruct (append_done_time_indexed self other self' ta tb la na lb nb HA HB Hrun)
    as (start0 & rest0 & la0 & na0 & Htb0 & HA').
  destruct (append_done_indexed self other self' ta tb la na lb nb HA HB Hrun)
    as (start & rest & la' & na' & -> & Hl & Hn & -> & Hhead & Hhead').
  injection Htb0 as <- <-.
  destruct HA' as (Hla0 & Hna0 & Hndl' & Hndn' & Hil' & Hin' & Hinc').
  cbn [set_node set_link link node] in Hla0, Hna0.
  injection Hla0 as <-. injection Hna0 as <-.
  destruct HA as (Hla & Hna & Hndl & Hndn & Hil & Hin & Hta).
  destruct HB as (Hlb & Hnb & Hndlb & Hndnb & Hjl & Hjn & Htb).
  assert (Hha : exists ha, Dict.get "head" na' = Some ha).
  { apply contains_get, contains_keys.
    apply (proj1 (merged_covers _ _ _ _ _ _ Hn)). now apply contains_keys. }
  destruct Hha as [ha Hha].
  apply contains_get in Hhead'. destruct Hhead' as [hb Hhb].
  rewrite (append_exact pd_nan _ other la' na' lb nb ha hb start rest);
    try assumption; try reflexivity.
  - rewrite (Hin' _ _ Hha).
    rewrite (merged_again "flowrate" ta start rest la lb la') by assumption.
    rewrite (merged_again "head" ta start rest na nb na') by assumption.
    reflexivity.
  - exact (Hjn _ _ Hhb).
Qed.

End AppendShape.

(** ** append_results_from on concrete objects *)



Lemma A_time_indexed : time_indexed results_A times_A links_A nodes_A.
Proof.
  repeat split; try (apply distinct_NoDup; reflexivity);
    apply all_indexed_by_sound; reflexivity.
Qed.

Lemma B_time_indexed : time_indexed results_B times_B links_B nodes_B.
Proof.
  repeat split; try (apply distinct_NoDup; reflexivity);
    apply all_indexed_by_sound; reflexivity.
Qed.

Lemma append_keeps_keys_and_adds_new_last_witness :
  exists self' la' na',
    append_results_from (Ok NaN) results_flow_only (PyResults results_tail)
    = Done self'
    /\ self' = mkResults "2020-01-01 00:00:00" (Some "net") 0 (Some la') (Some na')
    /\ Dict.keys la' = ["flowrate"; "velocity"]
    /\ Dict.keys na' = ["head"; "pressure"].
Proof.
  eexists. 
  destruct (append_keeps_keys_and_adds_new_last (Ok NaN)
              results_flow_only results_tail _ links_flow nodes_head
              links_tail nodes_tail eq_refl eq_refl eq_refl eq_refl
              (distinct_NoDup (Dict.keys links_flow) eq_refl)
              (distinct_NoDup (Dict.keys nodes_head) eq_refl)
              (distinct_NoDup (Dict.keys links_tail) eq_refl)
              (distinct_NoDup (Dict.keys nodes_tail) eq_refl)
              eq_refl)
    as (la' & na' & Hself & Hl & Hn & _).
  exists la', na'. split; [reflexivity|]. split; [exact Hself|].
  split; [exact Hl | exact Hn].
Defined.

Lemma append_keeps_one_time_index_witness :
  exists self' la' na',
    append_results_from (Ok NaN) results_A (PyResults results_B) = Done self'
    /\ time_indexed self' [0; 25; 50; 75; 100; 125] la' na'.
Proof.
  eexists.
  destruct (append_keeps_one_time_index (Ok NaN) results_A results_B _
              times_A times_B links_A nodes_A links_B nodes_B
              A_time_indexed B_time_indexed eq_refl)
    as (start & rest & la' & na' & Htb & H & _).
  exists la', na'. split; [reflexivity|].
  injection Htb as <- <-. exact H.
Defined.


Lemma append_twice_is_append_once_witness :
  exists self',
    append_results_from (Ok NaN) results_A (PyResults results_B) = Done self'
    /\ append_results_from (Ok NaN) self' (PyResults results_B) = Done self'.
Proof.
  eexists. split; [reflexivity|].
  apply (append_twice_is_append_once (Ok NaN) results_A results_B _
           times_A times_B links_A nodes_A links_B nodes_B
           A_time_indexed B_time_indexed eq_refl).
Defined.

(** ** append_results_from: what a raise leaves behind *)

Lemma update_all_raised : forall g (d0 d : Dict.t DataFrame) e,
  update_all g d0 = Raised e d ->
  exists pre k a post done,
    d0 = pre ++ (k, a) :: post
    /\ d = done ++ (k, a) :: post
    /\ update_all g pre = Done done
    /\ g k a = Raise e.
Proof.
  intros g. induction d0 as [|[k a] d0 IH]; intros d e H; cbn [update_all] in H;
    [discriminate|].
  destruct (g k a) as [f|e'] eqn:Hg.
  - destruct (update_all g d0) as [r|e' r] eqn:Hr; [discriminate|].
    injection H as <- <-.
    destruct (IH r e' eq_refl) as (pre & k' & a' & post & done & -> & -> & Hpre & Hk).
    exists ((k, a) :: pre), k', a', post, ((k, f) :: done).
    repeat split; try assumption. cbn [update_all]. now rewrite Hg, Hpre.
  - injection H as <- <-.
    exists [], k, a, d0, []. repeat split. exact Hg.
Qed.

Lemma merged_raised : forall pd_nan keep template (mine o r : Dict.t DataFrame) e,
  merged pd_nan keep template mine o = Raised e r ->
  stopped pd_nan keep template mine o e r.
Proof.
  intros pd_nan keep template mine o r e H. unfold merged in H.
  destruct (update_all (spliced pd_nan keep template o) mine) as [d|e' d] eqn:Hd.
  - destruct (only_theirs mine o) as [|entry news] eqn:Hnew; [discriminate|].
    destruct (masked_template pd_nan keep template d) as [kept|e'] eqn:Hm;
      [discriminate|].
    injection H as <- <-.
    exists mine, [], d. rewrite !app_nil_r.
    repeat split; try assumption. rewrite Hnew. discriminate.
  - injection H as <- <-.
    destruct (update_all_raised _ mine d e' Hd)
      as (pre & k & a & post & done & -> & -> & Hpre & Hk).
    exists pre, ((k, a) :: post), done. repeat split; assumption.
Qed.

Lemma stopped_keys : forall pd_nan keep template (mine o r : Dict.t DataFrame) e,
  stopped pd_nan keep template mine o e r -> Dict.keys r = Dict.keys mine.
Proof.
  intros pd_nan keep template mine o r e (pre & post & done & -> & -> & Hpre & _).
  destruct (update_all_done _ pre done Hpre) as [Hkeys _].
  now rewrite !keys_app, Hkeys.
Qed.

(** X19: what a raise leaves behind.  Once both ['head'] frames are found,
    a call that raises leaves [A] with its timestamp, name and simulation
    time and with one dictionary stopped midway: the frames of the keys
    walked so far are merged, the frame of the key that raised and those of
    the later keys are as they were, and no key has been adopted or lost.
    When the raise comes while merging the links, the node dictionary has
    not been touched; when it comes while merging the nodes, the link
    dictionary is merged completely. *)
Theorem append_raise_leaves_one_dictionary_midway :
  forall (pd_nan : result cell) (self other self' : SimulationResults)
         (la na lb nb : Dict.t DataFrame) (ha hb : DataFrame)
         (start : Z) (rest : list Z) (e : exn),
    link self = Some la -> node self = Some na ->
    link other = Some lb -> node other = Some nb ->
    NoDup (Dict.keys la) -> NoDup (Dict.keys na) ->
    NoDup (Dict.keys lb) -> NoDup (Dict.keys nb) ->
    Dict.get "head" na = Some ha -> Dict.get "head" nb = Some hb ->
    index hb = start :: rest ->
    append_results_from pd_nan self (PyResults other) = Raised e self' ->
    exists la' na',
      self' = mkResults (timestamp self) (network_name self) (sim_time self)
                (Some la') (Some na')
      /\ ((na' = na /\ Dict.keys la' = Dict.keys la
           /\ stopped pd_nan (before start (index ha)) "flowrate" la lb e la')
          \/ (merged pd_nan (before start (index ha)) "flowrate" la lb = Done la'
              /\ Dict.keys na' = Dict.keys na
              /\ stopped pd_nan (before start (index ha)) "head" na nb e na')).
Proof.
  intros pd_nan [stamp name time l nd] other self' la na lb nb ha hb start rest e
    Hla Hna Hlb Hnb Hndl Hndn Hndlb Hndnb Hha Hhb Hidx Hrun.
  cbn [link node] in Hla, Hna. subst l nd.
  rewrite (append_exact pd_nan _ other la na lb nb ha hb start rest) in Hrun
    by (try assumption; reflexivity).
  cbn [timestamp network_name sim_time].
  destruct (merged pd_nan (before start (index ha)) "flowrate" la lb) as [l|e' l]
    eqn:Hl.
  - destruct (merged pd_nan (before start (index ha)) "head" na nb) as [n|e' n]
      eqn:Hn; [discriminate|].
    injection Hrun as <- <-. exists l, n. split; [reflexivity|]. right.
    apply merged_raised in Hn. split; [reflexivity|].
    split; [exact (stopped_keys _ _ _ _ _ _ _ Hn) | exact Hn].
  - injection Hrun as <- <-. exists l, na. split; [reflexivity|]. left.
    apply merged_raised in Hl. split; [reflexivity|].
    split; [exact (stopped_keys _ _ _ _ _ _ _ Hl) | exact Hl].
Qed.

Lemma append_raise_leaves_one_dictionary_midway_witness :
  exists la' na',
    results_of "2020-01-01 00:00:00"
      [("flowrate",
        series "p1" [(0, 1); (25, 2); (50, 30); (75, 40); (100, 50); (125, 60)])]
      nodes_A
    = mkResults "2020-01-01 00:00:00" (Some "net") 0 (Some la') (Some na')
    /\ ((na' = nodes_A /\ Dict.keys la' = Dict.keys links_flow
         /\ stopped (Ok NaN) (before 50 (index head_A)) "flowrate"
              links_flow links_B IndexError la')
        \/ (merged (Ok NaN) (before 50 (index head_A)) "flowrate" links_flow links_B
            = Done la'
            /\ Dict.keys na' = Dict.keys nodes_A
            /\ stopped (Ok NaN) (before 50 (index head_A)) "head"
                 nodes_A nodes_B IndexError na')).
Proof.
  apply (append_raise_leaves_one_dictionary_midway (Ok NaN)
           (results_of "2020-01-01 00:00:00" links_flow nodes_A) results_B _
           links_flow nodes_A links_B nodes_B head_A head_B 50 [75; 100; 125]
           IndexError eq_refl eq_refl eq_refl eq_refl
           (distinct_NoDup (Dict.keys links_flow) eq_refl)
           (distinct_NoDup (Dict.keys nodes_A) eq_refl)
           (distinct_NoDup (Dict.keys links_B) eq_refl)
           (distinct_NoDup (Dict.keys nodes_B) eq_refl)
           eq_refl eq_refl eq_refl eq_refl).
Defined.

(** ** The average of two results objects *)

(** X20: the average that the class docstring has in mind for [A / n].
    [(A + B) / 2] evaluates without raising on populated objects and holds
    exactly the keys common to [A] and [B], in [A]'s order, each with the
    frame [(a + b) / 2]. *)
Theorem average_key_by_key :
  forall (df_add df_div : DataFrame -> DataFrame -> DataFrame)
         (df_div_int : DataFrame -> Z -> DataFrame) (now : string)
         (A B : SimulationResults) (la lb na nb : Dict.t DataFrame),
    link A = Some la -> link B = Some lb ->
    node A = Some na -> node B = Some nb ->
    NoDup (Dict.keys la) -> NoDup (Dict.keys na) ->
    exists S M,
      __add__ df_add now A (PyResults B) = Ok S
      /\ __truediv__ df_div df_div_int now S (PyInt 2) = Ok M
      /\ link M = Some (common (fun a b => df_div_int (df_add a b) 2) la lb)
      /\ node M = Some (common (fun a b => df_div_int (df_add a b) 2) na nb)
      /\ (forall key,
            Dict.get key (common (fun a b => df_div_int (df_add a b) 2) la lb)
            = match Dict.get key la, Dict.get key lb with
              | Some a, Some b => Some (df_div_int (df_add a b) 2)
              | _, _ => None
              end).
Proof.
  intros df_add df_div df_div_int now A B la lb na nb Hla Hlb Hna Hnb Hndl Hndn.
  assert (Hmap : forall (d e : Dict.t DataFrame),
            map_values (fun a => df_div_int a 2) (common df_add d e)
            = common (fun a b => df_div_int (df_add a b) 2) d e).
  { intros d e. unfold map_values, common.
    induction d as [|[k a] d IH]; cbn [flat_map fst snd]; [reflexivity|].
    rewrite map_app, IH. now destruct (Dict.get k e). }
  assert (Hcommon : forall (d e : Dict.t DataFrame),
            NoDup (Dict.keys d) -> NoDup (Dict.keys (common df_add d e))).
  { intros d e Hd. rewrite keys_common. now apply NoDup_filter_keys. }
  eexists _, _. split; [|split; [|split; [|split]]].
  - cbn [__add__]. exact (binary_common now df_add _ A B la lb na nb
                            Hla Hlb Hna Hnb Hndl Hndn).
  - cbn [__truediv__ int_value link node].
    rewrite (scalarwise_total df_div_int 2 _ (Hcommon la lb Hndl)),
      (scalarwise_total df_div_int 2 _ (Hcommon na nb Hndn)).
    reflexivity.
  - cbn [with_dicts link]. now rewrite Hmap.
  - cbn [with_dicts node]. now rewrite Hmap.
  - intros key. now rewrite (get_common _ la lb key Hndl).
Qed.

Lemma average_key_by_key_witness :
  exists S M,
    __add__ (frame_op cell_add) "now" results_A (PyResults results_C_short) = Ok S
    /\ __truediv__ (frame_op cell_div) frame_div_int "now" S (PyInt 2) = Ok M
    /\ link M
       = Some (common (fun a b => frame_div_int (frame_op cell_add a b) 2)
                 links_A links_C_short)
    /\ node M
       = Some (common (fun a b => frame_div_int (frame_op cell_add a b) 2)
                 nodes_A nodes_C_short)
    /\ (forall key,
          Dict.get key
            (common (fun a b => frame_div_int (frame_op cell_add a b) 2)
               links_A links_C_short)
          = match Dict.get key links_A, Dict.get key links_C_short with
            | Some a, Some b => Some (frame_div_int (frame_op cell_add a b) 2)
            | _, _ => None
            end).
Proof.
  exact (average_key_by_key (frame_op cell_add) (frame_op cell_div) frame_div_int
           "now" results_A results_C_short links_A links_C_short nodes_A nodes_C_short
           eq_refl eq_refl eq_refl eq_refl
           (distinct_NoDup (Dict.keys links_A) eq_refl)
           (distinct_NoDup (Dict.keys nodes_A) eq_refl)).
Defined.

(** ** append_results_from on objects that are not populated *)

(** X21: [append_results_from] given something it cannot merge leaves [A]
    as it was.  An operand that is not a results object raises the
    [ValueError] of the docstring; a [node] attribute that is still [None],
    in [B] or in [A], raises [TypeError]; with both ['head'] frames found, a
    [link] attribute of [A] that is still [None] raises [AttributeError],
    and a [link] attribute of [B] that is still [None] raises [TypeError]
    at the first link key of [A], or [AttributeError] when [A] has no link
    key. *)
Theorem append_on_unpopulated_objects :
  forall (pd_nan : result cell) (self other : SimulationResults) (x : pyval),
    (isinstance_results x = false ->
     append_results_from pd_nan self x = Raised (ValueError type_message) self)
    /\ (node other = None ->
        append_results_from pd_nan self (PyResults other) = Raised TypeError self)
    /\ (forall nb hb start rest,
          node other = Some nb -> Dict.get "head" nb = Some hb ->
          index hb = start :: rest ->
          (node self = None ->
           append_results_from pd_nan self (PyResults other)
           = Raised TypeError self)
          /\ (forall na ha,
                node self = Some na -> Dict.get "head" na = Some ha ->
                (link self = None ->
                 append_results_from pd_nan self (PyResults other)
                 = Raised AttributeError self)
                /\ (forall k a la,
                      link self = Some ((k, a) :: la) -> link other = None ->
                      append_results_from pd_nan self (PyResults other)
                      = Raised TypeError self)
                /\ (link self = Some [] -> link other = None ->
                    append_results_from pd_nan self (PyResults other)
                    = Raised AttributeError self))).
Proof.
  intros pd_nan [stamp name time l nd] other x.
  cbn [link node]. split; [|split].
  - intros Hx. destruct x; try discriminate Hx; reflexivity.
  - intros Hnb. unfold append_results_from, subscript. now rewrite Hnb.
  - intros nb hb start rest Hnb Hhb Hidx. split.
    + intros ->. unfold append_results_from, subscript, Dict.getitem.
      rewrite Hnb, Hhb. cbn [try]. rewrite Hidx. reflexivity.
    + intros na ha -> Hha.
      assert (Hrun : forall self,
                node self = Some na ->
                append_results_from pd_nan self (PyResults other)
                = match splice pd_nan (before start (index ha)) "flowrate"
                          (link self) (link other) with
                  | Raised e l' => Raised e (set_link self l')
                  | Done l' =>
                      match splice pd_nan (before start (index ha)) "head"
                              (Some na) (Some nb) with
                      | Raised e n => Raised e (set_node (set_link self l') n)
                      | Done n => Done (set_node (set_link self l') n)
                      end
                  end).
      { intros self Hna.
        exact (append_results_from_unfold pd_nan self other na nb ha hb start rest
                 Hna Hnb Hha Hhb Hidx). }
      split; [|split].
      * intros ->. now rewrite Hrun.
      * intros k a la -> Ho. rewrite Hrun by reflexivity. cbn [link].
        rewrite Ho. reflexivity.
      * intros -> Ho. rewrite Hrun by reflexivity. cbn [link].
        rewrite Ho. reflexivity.
Qed.

Lemma append_on_unpopulated_objects_witness :
  append_results_from (Ok NaN) results_A (PyInt 3)
  = Raised (ValueError type_message) results_A
  /\ append_results_from (Ok NaN) results_A (PyResults (__init__ "t0"))
     = Raised TypeError results_A
  /\ append_results_from (Ok NaN) (mkResults "t0" None 0 None (Some nodes_A))
       (PyResults results_B)
     = Raised AttributeError (mkResults "t0" None 0 None (Some nodes_A))
  /\ append_results_from (Ok NaN) results_A
       (PyResults (mkResults "t1" None 0 None (Some nodes_B)))
     = Raised TypeError results_A.
Proof.
  split; [|split; [|split]].
  - exact (proj1 (append_on_unpopulated_objects (Ok NaN) results_A results_B
                    (PyInt 3)) eq_refl).
  - exact (proj1 (proj2 (append_on_unpopulated_objects (Ok NaN) results_A
                    (__init__ "t0") PyNone)) eq_refl).
  - exact (proj1 (proj2 (proj2 (proj2 (append_on_unpopulated_objects (Ok NaN)
                    (mkResults "t0" None 0 None (Some nodes_A)) results_B PyNone))
                    nodes_B head_B 50 [75; 100; 125] eq_refl eq_refl eq_refl)
                    nodes_A head_A eq_refl eq_refl) eq_refl).
  - exact (proj1 (proj2 (proj2 (proj2 (proj2 (append_on_unpopulated_objects (Ok NaN)
                    results_A (mkResults "t1" None 0 None (Some nodes_B)) PyNone))
                    nodes_B head_B 50 [75; 100; 125] eq_refl eq_refl eq_refl)
                    nodes_A head_A eq_refl eq_refl))
             "flowrate" flowrate_A [("velocity", velocity_A)] eq_refl eq_refl).
Defined.

(** ** _adjust_time on concrete stores *)

Lemma store_B_int64 : Shared.int64_indexed store_B.
Proof.
  intros f t Hf Ht. cbn in Hf.
  repeat (destruct Hf as [<-|Hf]); try contradiction; cbn in Ht;
    repeat (destruct Ht as [<-|Ht]); try contradiction; unfold int64; lia.
Qed.

Lemma store_aliased_int64 : Shared.int64_indexed store_aliased.
Proof.
  intros f t Hf Ht. cbn in Hf.
  repeat (destruct Hf as [<-|Hf]); try contradiction; cbn in Ht;
    repeat (destruct Ht as [<-|Ht]); try contradiction; unfold int64; lia.
Qed.

Lemma links_A_int64 : Shared.int64_indexed [flowrate_A; velocity_A].
Proof.
  intros f t Hf Ht. cbn in Hf.
  repeat (destruct Hf as [<-|Hf]); try contradiction; cbn in Ht;
    repeat (destruct Ht as [<-|Ht]); try contradiction; unfold int64; lia.
Qed.

Lemma adjust_time_shifts_every_frame_witness :
  exists fs',
    Shared._adjust_time (Ok 100) shared_B store_B = Done fs'
    /\ Shared.value fs' shared_B = shifted 100 results_B
    /\ Shared._adjust_time (Raise TypeError) shared_B store_B
       = Raised TypeError store_B.
Proof.
  assert (Hrefs : NoDup (Shared.all_refs shared_B)).
  { repeat (constructor; [cbn; intuition discriminate|]). constructor. }
  destruct (adjust_time_shifts_every_frame shared_B store_B
              [("flowrate", 0%nat); ("velocity", 1%nat)]
              [("head", 2%nat); ("pressure", 3%nat)] (Ok 100)
              eq_refl eq_refl
              (distinct_NoDup ["flowrate"; "velocity"] eq_refl)
              (distinct_NoDup ["head"; "pressure"] eq_refl) Hrefs)
    as [fs' [Hrun [_ [_ [_ Hvalue]]]]].
  { unfold int64. lia. }
  { exact store_B_int64. }
  exists fs'. split; [exact Hrun|]. split.
  - apply Hvalue. intros r Hr t Ht. cbn in Hr.
    repeat (destruct Hr as [<-|Hr]); try contradiction; cbn in Ht;
      repeat (destruct Ht as [<-|Ht]); try contradiction; unfold int64; lia.
  - exact (adjust_time_shifts_every_frame shared_B store_B
             [("flowrate", 0%nat); ("velocity", 1%nat)]
             [("head", 2%nat); ("pressure", 3%nat)] (Raise TypeError)
             eq_refl eq_refl
             (distinct_NoDup ["flowrate"; "velocity"] eq_refl)
             (distinct_NoDup ["head"; "pressure"] eq_refl) Hrefs).
Defined.

Lemma adjust_time_half_populated_witness :
  exists fs',
    Shared._adjust_time (Ok 100)
      (Shared.mkShared "t0" None 0
         (Some [("flowrate", 0%nat); ("velocity", 1%nat)]) None)
      [flowrate_A; velocity_A]
    = Raised AttributeError fs'
    /\ List.length fs' = 2%nat
    /\ Shared.view fs' [("flowrate", 0%nat); ("velocity", 1%nat)]
       = map_values (index_iadd 100) links_A.
Proof.
  assert (H64 : int64 100) by (unfold int64; lia).
  apply (proj2 (adjust_time_half_populated
                  (Shared.mkShared "t0" None 0
                     (Some [("flowrate", 0%nat); ("velocity", 1%nat)]) None)
                  [flowrate_A; velocity_A] 100 H64 links_A_int64)
           [("flowrate", 0%nat); ("velocity", 1%nat)] eq_refl eq_refl
           (distinct_NoDup ["flowrate"; "velocity"] eq_refl)).
  repeat (constructor; [cbn; intuition discriminate|]). constructor.
Defined.

Lemma adjust_time_composes_witness :
  exists fs1,
    Shared._adjust_time (Ok 100) shared_aliased store_aliased = Done fs1
    /\ Shared._adjust_time (Ok 25) shared_aliased fs1
       = Shared._adjust_time (Ok (100 + 25)) shared_aliased store_aliased
    /\ Shared._adjust_time (Ok 0) shared_aliased store_aliased = Done store_aliased
    /\ Shared._adjust_time (Ok (- 100)) shared_aliased fs1 = Done store_aliased.
Proof.
  destruct (adjust_time_composes shared_aliased store_aliased
              [("flowrate", 0%nat); ("velocity", 0%nat)] [("head", 1%nat)]
              100 25 eq_refl eq_refl
              (distinct_NoDup ["flowrate"; "velocity"] eq_refl)
              (distinct_NoDup ["head"] eq_refl))
    as [fs1 [Hrun [Hthen [Hzero Hrestore]]]];
    try (unfold int64; lia); try exact store_aliased_int64.
  exists fs1. split; [exact Hrun|]. split; [exact Hthen|].
  split; [exact Hzero|]. apply Hrestore. unfold int64. lia.
Defined.

Lemma B_store_time_indexed :
  time_indexed (Shared.value store_B shared_B) times_B links_B nodes_B.
Proof.
  repeat split; try (apply distinct_NoDup; reflexivity);
    apply all_indexed_by_sound; reflexivity.
Qed.

Lemma adjust_time_keeps_time_index_witness :
  exists fs',
    Shared._adjust_time (Ok 100) shared_B store_B = Done fs'
    /\ time_indexed (Shared.value fs' shared_B) [150; 175; 200; 225]
         (map_values (shift 100) links_B) (map_values (shift 100) nodes_B)
    /\ Dict.keys (map_values (shift 100) links_B) = Dict.keys links_B
    /\ Dict.keys (map_values (shift 100) nodes_B) = Dict.keys nodes_B.
Proof.
  apply (adjust_time_keeps_time_index shared_B store_B times_B links_B nodes_B 100
           B_store_time_indexed).
  - repeat (constructor; [cbn; intuition discriminate|]). constructor.
  - unfold int64. lia.
  - exact store_B_int64.
  - intros t Ht. cbn in Ht.
    repeat (destruct Ht as [<-|Ht]); try contradiction; unfold int64; lia.
Defined.

Lemma adjust_time_shifts_once_per_reference_witness :
  exists fs',
    Shared._adjust_time (Ok 100) shared_aliased store_aliased = Done fs'
    /\ List.length fs' = 3%nat
    /\ Shared.deref fs' 0 = index_iadd 100 (index_iadd 100 flowrate_A)
    /\ Shared.deref fs' 1 = index_iadd 100 head_A
    /\ Shared.deref fs' 2 = pressure_A
    /\ index (Shared.deref fs' 0) = [200; 225; 250; 275].
Proof.
  destruct (adjust_time_shifts_once_per_reference shared_aliased store_aliased
              [("flowrate", 0%nat); ("velocity", 0%nat)] [("head", 1%nat)] 100
              eq_refl eq_refl
              (distinct_NoDup ["flowrate"; "velocity"] eq_refl)
              (distinct_NoDup ["head"] eq_refl))
    as [fs' [Hrun [Hlen [Hderef Hindex]]]];
    [unfold int64; lia | exact store_aliased_int64 |].
  exists fs'. split; [exact Hrun|]. split; [exact Hlen|].
  split; [exact (Hderef 0%nat)|]. split; [exact (Hderef 1%nat)|].
  split; [exact (Hderef 2%nat)|].
  rewrite (Hindex 0%nat). reflexivity.
Defined.

(** ** _adjust_time followed by append_results_from *)

(** X18: continuing a simulation.  The results [B] of the next run, on
    int64 indices and with no frame shared, are first moved by [n] with
    [_adjust_time],
    [n] and the moved times fitting in 64 bits, so that they start after
    the last time of [A]; they are then appended to [A].  A returning call
    leaves every frame of [A] with all of [A]'s times followed by all of
    [B]'s times moved by [n]: nothing is dropped. *)
Theorem adjust_then_append_continues :
  forall (pd_nan : result cell) (self : SimulationResults)
         (other : Shared.results) (fs : Shared.store) (ta tb : list Z)
         (la na lb nb : Dict.t DataFrame) (n start : Z) (rest : list Z),
    time_indexed self ta la na ->
    time_indexed (Shared.value fs other) tb lb nb ->
    NoDup (Shared.all_refs other) ->
    int64 n -> Shared.int64_indexed fs -> (forall t, In t tb -> int64 (t + n)) ->
    tb = start :: rest ->
    (forall t, In t ta -> t < start + n) ->
    exists fs',
      Shared._adjust_time (Ok n) other fs = Done fs'
      /\ Shared.value fs' other = shifted n (Shared.value fs other)
      /\ forall self',
           append_results_from pd_nan self (PyResults (Shared.value fs' other))
           = Done self' ->
           exists la' na',
             time_indexed self' (ta ++ map (fun t => t + n) tb) la' na'.
Proof.
  intros pd_nan self other fs ta tb la na lb nb n start rest HA HB Hnd _ _ Hfit ->
    Hlater.
  destruct (adjust_time_indexed n other fs _ lb nb HB Hnd Hfit) as [fs' [Hrun Hvalue]].
  exists fs'. split; [exact Hrun|]. split; [exact Hvalue|].
  intros self' Happend. rewrite Hvalue in Happend.
  destruct (append_done_time_indexed pd_nan self _ self'
              ta _ la na _ _ HA (shifted_time_indexed _ _ lb nb n HB) Happend)
    as (start' & rest' & la' & na' & Htb & H).
  cbn [map] in Htb. injection Htb as <- <-.
  exists la', na'. rewrite filter_all in H; [exact H|].
  intros t Ht. apply Z.ltb_lt. now apply Hlater.
Qed.

Lemma adjust_then_append_continues_witness :
  exists fs' self' la' na',
    Shared._adjust_time (Ok 50) shared_B store_B = Done fs'
    /\ Shared.value fs' shared_B = shifted 50 results_B
    /\ append_results_from (Raise AttributeError) results_A
         (PyResults (shifted 50 results_B))
       = Done self'
    /\ time_indexed self' [0; 25; 50; 75; 100; 125; 150; 175] la' na'.
Proof.
  destruct (adjust_then_append_continues (Raise AttributeError) results_A
              shared_B store_B times_A times_B links_A nodes_A links_B nodes_B
              50 50 [75; 100; 125] A_time_indexed B_store_time_indexed)
    as [fs' [Hadjust [Hvalue Happend]]].
  - repeat (constructor; [cbn; intuition discriminate|]). constructor.
  - unfold int64. lia.
  - exact store_B_int64.
  - intros t Ht. cbn in Ht.
    repeat (destruct Ht as [<-|Ht]); try contradiction; unfold int64; lia.
  - reflexivity.
  - intros t Ht. cbn in Ht. lia.
  - rewrite Hvalue in Happend.
    destruct (Happend _ eq_refl) as (la' & na' & H).
    exists fs'. eexists. exists la', na'.
    split; [exact Hadjust|]. split; [exact Hvalue|]. split; [reflexivity | exact H].
Defined.

(** ** append_results_from when pandas has no attribute [nan] *)

(** Without [pd.nan] no placeholder can be built, so a dictionary is merged
    to the end only if both objects have the same keys in it. *)
Lemma merged_without_nan :
  forall e0 keep template (mine o r : Dict.t DataFrame),
    merged (Raise e0) keep template mine o = Done r ->
    forall key, In key (Dict.keys mine) <-> In key (Dict.keys o).
Proof.
  intros e0 keep template mine o r H key. unfold merged in H.
  destruct (update_all (spliced (Raise e0) keep template o) mine) as [d|e d] eqn:Hd;
    [|discriminate].
  destruct (only_theirs mine o) as [|entry news] eqn:Hnew.
  - destruct (update_all_done _ mine d Hd) as [_ [_ Hout]]. split.
    + intros Hk. unfold Dict.keys in Hk. apply in_map_iff in Hk.
      destruct Hk as [[k a] [Hfst Hin]]. cbn [fst] in Hfst. subst k.
      destruct (Hout key a Hin) as [f [_ Hf]]. unfold spliced in Hf.
      destruct (Dict.get key o) as [b|] eqn:Hb.
      * apply contains_keys, contains_get. eauto.
      * destruct (Dict.getitem template o); discriminate Hf.
    + intros Hk. apply contains_keys.
      destruct (Dict.contains key mine) eqn:Hc; [reflexivity|]. exfalso.
      assert (Hfil : In key (Dict.keys (only_theirs mine o))).
      { rewrite keys_only_theirs. apply filter_In. split; [exact Hk|].
        now rewrite Hc. }
      rewrite Hnew in Hfil. exact Hfil.
  - unfold masked_template in H.
    destruct (Dict.getitem template d); discriminate H.
Qed.

(** C2: on pandas, which has no attribute [nan], the placeholder of lines
    234, 239, 247 and 252 cannot be built.  For populated objects [A] and
    [B], as soon as some key is in the link dictionary or in the node
    dictionary of only one of them, [A.append_results_from(B)] raises: it
    does not complete, and no key is filled with a placeholder. *)
Theorem append_raises_on_unmatched_key :
  forall (e0 : exn) (self other : SimulationResults)
         (la na lb nb : Dict.t DataFrame) (key : string),
    link self = Some la -> node self = Some na ->
    link other = Some lb -> node other = Some nb ->
    NoDup (Dict.keys la) -> NoDup (Dict.keys na) ->
    NoDup (Dict.keys lb) -> NoDup (Dict.keys nb) ->
    ~ (In key (Dict.keys la) <-> In key (Dict.keys lb))
    \/ ~ (In key (Dict.keys na) <-> In key (Dict.keys nb)) ->
    exists e self',
      append_results_from (Raise e0) self (PyResults other) = Raised e self'.
Proof.
  intros e0 self other la na lb nb key Hla Hna Hlb Hnb Hndl Hndn Hndlb Hndnb Hkey.
  destruct (append_results_from (Raise e0) self (PyResults other))
    as [self'|e self'] eqn:Hrun; [exfalso | now exists e, self'].
  destruct (append_done (Raise e0) self other la na lb nb self'
              Hla Hna Hlb Hnb Hndl Hndn Hndlb Hndnb Hrun)
    as (ha & hb & start & rest & la' & na' & _ & _ & _ & Hl & Hn & _).
  destruct Hkey as [Hkey|Hkey]; apply Hkey.
  - exact (merged_without_nan _ _ _ _ _ _ Hl key).
  - exact (merged_without_nan _ _ _ _ _ _ Hn key).
Qed.

(** [results_A] has ['velocity'] and ['pressure'], [results_short] has not:
    the call stops at ['velocity'] with the flowrate merged already and
    everything else as it was. *)
Lemma append_raises_on_unmatched_key_witness :
  append_results_from (Raise AttributeError) results_A (PyResults results_short)
  = Raised AttributeError
      (results_of "2020-01-01 00:00:00"
         [("flowrate",
           series "p1" [(0, 1); (25, 2); (50, 30); (75, 40); (100, 50); (125, 60)]);
          ("velocity", velocity_A)]
         nodes_A)
  /\ exists e self',
       append_results_from (Raise AttributeError) results_A (PyResults results_short)
       = Raised e self'.
Proof.
  split; [reflexivity|].
  apply (append_raises_on_unmatched_key AttributeError results_A results_short
           links_A nodes_A links_short nodes_short "velocity");
    try reflexivity; try (apply distinct_NoDup; reflexivity).
  left. cbn. intros [H _].
  destruct H as [H|[]]; [right; left; reflexivity | discriminate H].
Defined.
